(** * Spanner PostgreSQL gorm dialect: migrator and dialect callbacks

    A shallow embedding of [postgresql/migrator.go] and
    [postgresql/spanner.go].  Code that talks to the database is written
    as a program over three kinds of events (a read-only catalog query, an
    [Exec] on the migrator's connection, and a look at the connection's
    DDL batch); a connection model interprets the events.  The methods of
    gorm's base migrator that the dialect calls are program-valued
    parameters. *)

From Stdlib Require Import ZArith String List Ascii Bool Lia.
From stdpp Require Import base option list strings gmap.
Import ListNotations.
Local Open Scope string_scope.
Local Open Scope Z_scope.
Local Open Scope list_scope.

(** ** Values shared by all components *)

(** A Go [error], compared by its message. *)
Definition Err := string.

(** [spanner.Statement]. *)
Record Statement := mkStatement {
  SQL : string;
  Params : list (string * string)
}.

(** [sql.NullString], [sql.NullInt64], [sql.NullBool]: [None] is
    [Valid = false]. *)
Definition NullString := option string.
Definition NullInt64 := option Z.

(** [sql.NullBool] keeps both fields: the migrator creates values that are
    valid and false. *)
Record NullBool := mkNullBool { Bool_ : bool; Valid : bool }.

(** The result of draining a [*sql.Rows]: the rows scanned before the
    iteration stopped, and the error of [Scan], [Err] or [Close] that
    stopped it, if any. *)
Record RowSet (R : Type) := mkRowSet {
  rows : list R;
  rowsErr : option Err
}.
Arguments mkRowSet {R} _ _.
Arguments rows {R} _.
Arguments rowsErr {R} _.

(** One row of the column query of [ColumnTypes], in select-list order. *)
Record ColumnRow := mkColumnRow {
  cr_column_name : string;
  cr_is_nullable : NullBool;
  cr_udt_name : NullString;
  cr_character_maximum_length : NullInt64;
  cr_numeric_precision : NullInt64;
  cr_numeric_precision_radix : NullInt64;
  cr_numeric_scale : NullInt64;
  cr_datetime_precision : NullInt64;
  cr_typlen8 : NullInt64;
  cr_column_default : NullString;
  cr_description : NullString;
  cr_identity_increment : NullString
}.

(** [*sql.ColumnType] of the driver, as far as the migrator reads it. *)
Record RawColumnType := mkRawColumnType {
  raw_Name : string;
  raw_DatabaseTypeName : string
}.

(** One row of [indexSql]. *)
Record IndexRow := mkIndexRow {
  ir_TableName : string;
  ir_IndexName : string;
  ir_NonUnique : bool;
  ir_Primary : bool;
  ir_ColumnName : string
}.

(** The schema part of [CurrentSchema]'s result: an SQL expression or a
    name. *)
Inductive SchemaRef :=
| SchemaExpr (sql : string)
| SchemaName (s : string).

(** ** Events *)

(** The catalog queries of [migrator.go], with their bind values, indexed
    by what the caller scans.  [QBase] is any query of gorm's own
    migrator. *)
Inductive Query : Type -> Type :=
| QDefaultSequenceKind : Query Z
| QTableNames (schema : SchemaRef) : Query (RowSet string)
| QTableCount (schema : SchemaRef) (table : string) : Query Z
| QIndexCount (table name : string) (schema : SchemaRef) : Query Z
| QColumnCount (schema : SchemaRef) (table column : string) : Query Z
| QConstraintCount (schema : SchemaRef) (table name : string) : Query Z
| QGeneratedColumnCount (schema : SchemaRef) (table column : string) : Query Z
| QReferencingForeignKeys (schema : SchemaRef) (table : string)
    : Query (RowSet (string * string))
| QTableIndexNames (schema : SchemaRef) (table : string) : Query (RowSet string)
| QColumns (schema : SchemaRef) (table : string) : Query (RowSet ColumnRow)
| QRawColumnTypes (schema : SchemaRef) (table : string) : Query (RowSet RawColumnType)
| QUniqueConstraintNames (schema : SchemaRef) (table : string) : Query (RowSet string)
| QKeyConstraintColumns (schema : SchemaRef) (table : string)
    : Query (RowSet (string * string * string))
| QSpannerTypes (schema : SchemaRef) (table : string) : Query (RowSet (string * string))
| QIndexColumns (table : string) : Query (RowSet IndexRow)
| QBase (sql : string) (args : list string) : Query (RowSet (list string)).

(** What [autoMigrate] finds when it asks the connection pool for the
    batched statements. *)
Inductive RawConn :=
| NotSqlConn
| RawFailed (e : Err)
| NotSpannerConn
| BatchedStatements (stmts : list Statement).

Inductive Event : Type -> Type :=
| EQuery {R} (q : Query R) : Event (Err + R)
| EExec (sql : string) : Event (option Err)
| EConnRaw : Event RawConn.

(** ** Programs *)

(** A Go function body: it returns, panics, or performs an event and goes
    on with the answer. *)
Inductive Prog (A : Type) : Type :=
| Ret (a : A)
| Panic (msg : string)
| Vis {X : Type} (e : Event X) (k : X -> Prog A).
Arguments Ret {A} _.
Arguments Panic {A} _.
Arguments Vis {A X} _ _.

Fixpoint bind {A B} (p : Prog A) (f : A -> Prog B) : Prog B :=
  match p with
  | Ret a => f a
  | Panic m => Panic m
  | Vis e k => Vis e (fun x => bind (k x) f)
  end.

#[global] Instance Prog_ret : MRet Prog := @Ret.
#[global] Instance Prog_bind : MBind Prog := fun A B f p => bind p f.

Definition query {R} (q : Query R) : Prog (Err + R) := Vis (EQuery q) Ret.
Definition exec (sql : string) : Prog (option Err) := Vis (EExec sql) Ret.
Definition connRaw : Prog RawConn := Vis EConnRaw Ret.

(** [defer cleanup] around a body: the cleanup runs when the body returns
    and when it panics, and its own result is discarded. *)
Fixpoint deferred {A B} (body : Prog A) (cleanup : Prog B) : Prog A :=
  match body with
  | Ret a => bind cleanup (fun _ => Ret a)
  | Panic m => bind cleanup (fun _ => Panic m)
  | Vis e k => Vis e (fun x => deferred (k x) cleanup)
  end.

(** Outcome of running a program. *)
Inductive Outcome (A : Type) :=
| Returned (a : A)
| Panicked (msg : string).
Arguments Returned {A} _.
Arguments Panicked {A} _.

(** ** The connection *)

(** The database behind the connection: a state, what it answers to a
    catalog query, and what one schema-update request (one or more DDL
    statements) does to it. *)
Record Server := mkServer {
  DB : Type;
  answer : forall R, DB -> Query R -> Err + R;
  updateDatabaseDdl : DB -> list string -> DB * option Err
}.
Arguments answer _ {R} _ _.

(** The client-side statements that [StartBatchDDL], [RunBatch] and
    [AbortBatch] send through [Exec]; everything else is DDL. *)
Inductive StmtKind := KStartBatchDDL | KRunBatch | KAbortBatch | KDdl.

Definition classify (sql : string) : StmtKind :=
  if String.eqb sql "START BATCH DDL" then KStartBatchDDL
  else if String.eqb sql "RUN BATCH" then KRunBatch
  else if String.eqb sql "ABORT BATCH" then KAbortBatch
  else KDdl.

Definition errBatchActive : Err := "this connection already has an active batch".
Definition errNoBatch : Err := "this connection does not have an active batch".

(** The single connection that [Dialector.Migrator] gives the migrator:
    the live database, the open DDL batch if there is one, every string
    sent through [Exec] so far (oldest first), and what [conn.Raw] will
    find. *)
Record Conn (srv : Server) := mkConn {
  live : DB srv;
  batch : option (list Statement);
  trace : list string;
  poolIsSqlConn : bool;
  connRawErr : option Err;
  driverIsSpanner : bool
}.
Arguments mkConn {srv} _ _ _ _ _ _.
Arguments live {srv} _.
Arguments batch {srv} _.
Arguments trace {srv} _.
Arguments poolIsSqlConn {srv} _.
Arguments connRawErr {srv} _.
Arguments driverIsSpanner {srv} _.

Definition withBatch {srv} (c : Conn srv) (b : option (list Statement))
  (sql : string) : Conn srv :=
  mkConn (live c) b (trace c ++ [sql])
         (poolIsSqlConn c) (connRawErr c) (driverIsSpanner c).

Definition withLive {srv} (c : Conn srv) (d : DB srv)
  (b : option (list Statement)) (sql : string) : Conn srv :=
  mkConn d b (trace c ++ [sql])
         (poolIsSqlConn c) (connRawErr c) (driverIsSpanner c).

(** [Exec] on the connection.  While a batch is open, DDL is only added to
    it; RUN BATCH sends the whole batch as one request (none when the
    batch is empty); ABORT BATCH drops the batch and is a no-op without
    one. Without a batch each DDL statement is a request of its own. *)
Definition execOn {srv} (c : Conn srv) (sql : string) : option Err * Conn srv :=
  match classify sql with
  | KStartBatchDDL =>
      match batch c with
      | None => (None, withBatch c (Some []) sql)
      | Some b => (Some errBatchActive, withBatch c (Some b) sql)
      end
  | KRunBatch =>
      match batch c with
      | Some [] => (None, withBatch c None sql)
      | Some b =>
          let '(d, e) := updateDatabaseDdl srv (live c) (map SQL b) in
          (e, withLive c d None sql)
      | None => (Some errNoBatch, withBatch c None sql)
      end
  | KAbortBatch => (None, withBatch c None sql)
  | KDdl =>
      match batch c with
      | Some b => (None, withBatch c (Some (b ++ [mkStatement sql []])) sql)
      | None =>
          let '(d, e) := updateDatabaseDdl srv (live c) [sql] in
          (e, withLive c d None sql)
      end
  end.

(** The assertion that the pool is a [sql.Conn], [conn.Raw] and
    [GetBatchedStatements]. *)
Definition rawOn {srv} (c : Conn srv) : RawConn :=
  if negb (poolIsSqlConn c) then NotSqlConn
  else match connRawErr c with
       | Some e => RawFailed e
       | None =>
           if negb (driverIsSpanner c) then NotSpannerConn
           else BatchedStatements (default [] (batch c))
       end.

Fixpoint run {srv A} (p : Prog A) (c : Conn srv) : Outcome A * Conn srv :=
  match p with
  | Ret a => (Returned a, c)
  | Panic m => (Panicked m, c)
  | Vis e k =>
      match e in Event X return (X -> Prog A) -> Outcome A * Conn srv with
      | EQuery q => fun k => run (k (answer srv (live c) q)) c
      | EExec sql => fun k => let '(r, c') := execOn c sql in run (k r) c'
      | EConnRaw => fun k => run (k (rawOn c)) c
      end k
  end.

(** ** gorm's schema values, as far as the dialect reads them *)

(** [schema.Field]. *)
Record Field := mkField {
  Name : string;
  DBName : string;
  DataType : string;
  PrimaryKey : bool;
  AutoIncrement : bool;
  NotNull : bool;
  Unique : bool;
  HasDefaultValue : bool;
  DefaultValue : string;
  DefaultValueInterface : option string;
  IgnoreMigration : bool
}.

(** [schema.Schema]; [PrimaryFieldDBNames] is a slice that can be nil, and
    [LookUpField] is the schema's method. *)
Record Schema := mkSchema {
  Table : string;
  Fields : list Field;
  PrimaryFields : list Field;
  PrimaryFieldDBNames : option (list string);
  LookUpField : string -> option Field
}.

(** [gorm.Statement]. *)
Record Stmt := mkStmt {
  stmt_Table : string;
  stmt_Schema : option Schema;
  Omits : list string
}.

(** A migrator argument [value interface{}]: a table name, a model that
    parses into a schema, or a value whose parsing fails. *)
Inductive Value :=
| TableName (t : string)
| Model (s : Schema)
| Unparsable (e : Err).

(** Arguments of a DDL template: a table or column name is quoted, an
    expression is copied. *)
Inductive SqlArg :=
| ArgTable (name : string)
| ArgColumn (name : string)
| ArgExpr (sql : string).

Definition dquote : string := String "034"%char EmptyString.

Definition QuoteTo (name : string) : string := dquote +:+ name +:+ dquote.

Definition renderArg (a : SqlArg) : string :=
  match a with
  | ArgTable n => QuoteTo n
  | ArgColumn n => QuoteTo n
  | ArgExpr s => s
  end.

(** Replaces each [?] of the template by the next argument. *)
Fixpoint Explain (template : string) (args : list SqlArg) : string :=
  match template with
  | EmptyString => EmptyString
  | String c rest =>
      if Ascii.eqb c "?"%char then
        match args with
        | a :: args' => renderArg a +:+ Explain rest args'
        | [] => String c (Explain rest [])
        end
      else String c (Explain rest args)
  end.

(** [SpannerConfig] and the dialector stored in the migrator's config. *)
Record SpannerConfig := mkSpannerConfig {
  DisableAutoMigrateBatching : bool;
  AutoOrderByPk : bool;
  AutoAddPrimaryKey : bool
}.

Inductive GormDialector :=
| SpannerPG (cfg : SpannerConfig)
| OtherDialector.

(** [migrator.ColumnType], the value [ColumnTypes] builds per column. *)
Record ColumnType := mkColumnType {
  NameValue : NullString;
  NullableValue : NullBool;
  DataTypeValue : NullString;
  LengthValue : NullInt64;
  DecimalSizeValue : NullInt64;
  ScaleValue : NullInt64;
  DefaultValueValue : NullString;
  CommentValue : NullString;
  AutoIncrementValue : NullBool;
  PrimaryKeyValue : NullBool;
  UniqueValue : NullBool;
  ColumnTypeValue : NullString;
  SQLColumnType : option RawColumnType
}.

(** ** The migrator *)

(** [spannerPostgresMigrator]: the embedded [postgres.Migrator] (whose
    methods are not part of this package and are fields here), the
    dialector of its config, and [autoAddPrimaryKey]. *)
Record Migrator := mkMigrator {
  base_AutoMigrate : list Value -> Prog (option Err);
  base_MigrateColumn : Value -> Field -> ColumnType -> Prog (option Err);
  base_CurrentSchema : Stmt -> string -> SchemaRef * string;
  base_CurrentTable : Stmt -> string;
  base_ReorderModels : list Value -> bool -> list Value;
  base_DropConstraint : Value -> string -> Prog (option Err);
  base_DropIndex : Value -> string -> Prog (option Err);
  base_GetTypeAliases : string -> list string;
  base_DataTypeOf : Field -> string;
  base_UpdateSequence : Stmt -> Field -> string -> Prog (option Err);
  base_CreateSequence : Stmt -> Field -> string -> Prog (option Err);
  base_DeleteSequence : Stmt -> Field -> string -> Prog (option Err);
  base_ExplainDefault : string -> string;
  Dialector : GormDialector;
  autoAddPrimaryKey : bool
}.

(** gorm's [RunWithValue]: a string names the table, any other value is
    parsed, and a parse error is returned without calling [fc]. *)
Definition ParseValue (value : Value) : Err + Stmt :=
  match value with
  | TableName t => inr (mkStmt t None [])
  | Model s => inr (mkStmt (Table s) (Some s) [])
  | Unparsable e => inl e
  end.

Definition RunWithValue {A} (value : Value)
  (fc : Stmt -> Prog (Err + A)) : Prog (Err + A) :=
  match ParseValue value with
  | inr stmt => fc stmt
  | inl e => Ret (inl e)
  end.

Definition CurrentSchema (m : Migrator) (stmt : Stmt) (table : string)
  : SchemaRef * string :=
  let '(s, t) := base_CurrentSchema m stmt table in
  match s with
  | SchemaExpr sql =>
      if String.eqb sql "CURRENT_SCHEMA()" then (SchemaName "public", t)
      else (s, t)
  | SchemaName _ => (s, t)
  end.

Definition StartBatchDDL : Prog (option Err) := exec "START BATCH DDL".
Definition RunBatch : Prog (option Err) := exec "RUN BATCH".
Definition AbortBatch : Prog (option Err) := exec "ABORT BATCH".

Definition disableAutoMigrateBatching (m : Migrator) : bool :=
  match Dialector m with
  | SpannerPG cfg => DisableAutoMigrateBatching cfg
  | OtherDialector => false
  end.

Definition alterDatabaseSql : string :=
  "alter database " +:+ QuoteTo "db" +:+
  " set spanner.default_sequence_kind = 'bit_reversed_positive'".

Definition errUnexpectedConnPool : Err := "unexpected ConnPool type".
Definition errDryRunOnlySpanner : Err := "dry-run is only supported for Spanner".

(** The part of [autoMigrate] after the batch has been started. *)
Definition autoMigrateBody (m : Migrator) (dryRun disableAutoBatching : bool)
  (c : Z) (values : list Value) : Prog (list Statement * option Err) :=
  e ← (if c =? 0 then exec alterDatabaseSql else Ret None);
  match e with
  | Some err => Ret ([], Some err)
  | None =>
      err ← base_AutoMigrate m values;
      match err with
      | None =>
          if negb dryRun && disableAutoBatching then Ret ([], None)
          else if dryRun then
            raw ← connRaw;
            match raw with
            | NotSqlConn => Ret ([], Some errUnexpectedConnPool)
            | RawFailed err => Ret ([], Some err)
            | NotSpannerConn => Ret ([], Some errDryRunOnlySpanner)
            | BatchedStatements statements =>
                e ← AbortBatch; Ret (statements, e)
            end
          else (e ← RunBatch; Ret ([], e))
      | Some err => Ret ([], Some err)
      end
  end.

Definition autoMigrate (m : Migrator) (dryRun : bool) (values : list Value)
  : Prog (list Statement * option Err) :=
  let disableAutoBatching := disableAutoMigrateBatching m in
  r ← query QDefaultSequenceKind;
  match r with
  | inl err => Ret ([], Some err)
  | inr c =>
      if dryRun || negb disableAutoBatching then
        e ← StartBatchDDL;
        match e with
        | Some err => Ret ([], Some err)
        | None =>
            deferred (autoMigrateBody m dryRun disableAutoBatching c values)
                     AbortBatch
        end
      else autoMigrateBody m dryRun disableAutoBatching c values
  end.

Definition AutoMigrateDryRun (m : Migrator) (values : list Value)
  : Prog (list Statement * option Err) :=
  autoMigrate m true values.

Definition AutoMigrate (m : Migrator) (values : list Value)
  : Prog (option Err) :=
  r ← autoMigrate m false values; Ret (snd r).

(** [Exec] of a template with its arguments. *)
Definition execf (template : string) (args : list SqlArg) : Prog (option Err) :=
  exec (Explain template args).

(** A closure that only returns an error, run through [RunWithValue]. *)
Definition RunWithValue_ (value : Value) (fc : Stmt -> Prog (option Err))
  : Prog (option Err) :=
  match ParseValue value with
  | inr stmt => fc stmt
  | inl e => Ret (Some e)
  end.

(** *** Introspection *)

Definition GetTables (m : Migrator) : Prog (list string * option Err) :=
  let '(currentSchema, _) := CurrentSchema m (mkStmt "" None []) "" in
  r ← query (QTableNames currentSchema);
  match r with
  | inl err => Ret ([], Some err)
  | inr rs => Ret (rows rs, rowsErr rs)
  end.

Definition HasTable (m : Migrator) (value : Value) : Prog bool :=
  r ← RunWithValue value (fun stmt =>
         let '(currentSchema, curTable) := CurrentSchema m stmt (stmt_Table stmt) in
         query (QTableCount currentSchema curTable));
  match r with
  | inl _ => Ret false
  | inr count => Ret (0 <? count)
  end.

(** [stmt.Schema.LookIndex] is gorm's; it is passed in as [lookIndex]. *)
Definition HasIndex (m : Migrator) (lookIndex : Schema -> string -> option string)
  (value : Value) (name : string) : Prog bool :=
  r ← RunWithValue value (fun stmt =>
         let name :=
           match stmt_Schema stmt with
           | Some sch => default name (lookIndex sch name)
           | None => name
           end in
         let '(currentSchema, curTable) := CurrentSchema m stmt (stmt_Table stmt) in
         query (QIndexCount curTable name currentSchema));
  match r with
  | inl _ => Ret false
  | inr count => Ret (0 <? count)
  end.

Definition HasColumn (m : Migrator) (value : Value) (field : string) : Prog bool :=
  r ← RunWithValue value (fun stmt =>
         let name :=
           match stmt_Schema stmt with
           | Some sch =>
               match LookUpField sch field with
               | Some f => DBName f
               | None => field
               end
           | None => field
           end in
         let '(currentSchema, curTable) := CurrentSchema m stmt (stmt_Table stmt) in
         query (QColumnCount currentSchema curTable name));
  match r with
  | inl _ => Ret false
  | inr count => Ret (0 <? count)
  end.

(** *** Dropping tables *)

(** A [for rows.Next()] loop whose body can fail. *)
Fixpoint forRows {R} (body : R -> Prog (option Err)) (rs : list R)
  : Prog (option Err) :=
  match rs with
  | [] => Ret None
  | r :: rest =>
      e ← body r;
      match e with
      | Some err => Ret (Some err)
      | None => forRows body rest
      end
  end.

Definition dropForeignKeysReferencingTable (m : Migrator) (stmt : Stmt)
  : Prog (option Err) :=
  let '(currentSchema, curTable) := CurrentSchema m stmt (stmt_Table stmt) in
  fk ← query (QReferencingForeignKeys currentSchema curTable);
  match fk with
  | inl err => Ret (Some err)
  | inr rs =>
      e ← forRows (fun '(tableName, constraintName) =>
                     base_DropConstraint m (TableName tableName) constraintName)
                  (rows rs);
      match e with
      | Some err => Ret (Some err)
      | None => Ret (rowsErr rs)
      end
  end.

Definition dropTableIndexes (m : Migrator) (stmt : Stmt) : Prog (option Err) :=
  let '(currentSchema, curTable) := CurrentSchema m stmt (stmt_Table stmt) in
  idx ← query (QTableIndexNames currentSchema curTable);
  match idx with
  | inl err => Ret (Some err)
  | inr rs =>
      e ← forRows (fun name => base_DropIndex m (TableName curTable) name)
                  (rows rs);
      match e with
      | Some err => Ret (Some err)
      | None => Ret (rowsErr rs)
      end
  end.

Definition dropTableDependencies (m : Migrator) (stmt : Stmt) : Prog (option Err) :=
  e ← dropForeignKeysReferencingTable m stmt;
  match e with
  | Some err => Ret (Some err)
  | None =>
      e ← dropTableIndexes m stmt;
      match e with
      | Some err => Ret (Some err)
      | None => Ret None
      end
  end.

Definition dropTableSql (m : Migrator) (stmt : Stmt) : string :=
  Explain "DROP TABLE IF EXISTS ?" [ArgTable (base_CurrentTable m stmt)].

Definition dropOne (m : Migrator) (value : Value) : Prog (option Err) :=
  RunWithValue_ value (fun stmt =>
    e ← dropTableDependencies m stmt;
    match e with
    | Some err => Ret (Some err)
    | None => exec (dropTableSql m stmt)
    end).

(** The loop of [DropTable], which walks [values] from the last index down
    to 0. *)
Fixpoint dropFromLast (m : Migrator) (reversed : list Value) : Prog (option Err) :=
  match reversed with
  | [] => Ret None
  | v :: rest =>
      e ← dropOne m v;
      match e with
      | Some err => Ret (Some err)
      | None => dropFromLast m rest
      end
  end.

Definition DropTable (m : Migrator) (values : list Value) : Prog (option Err) :=
  let values := base_ReorderModels m values false in
  dropFromLast m (rev values).

(** *** Strings *)

Definition toLower (c : ascii) : ascii :=
  let n := nat_of_ascii c in
  if (Nat.leb 65 n && Nat.leb n 90)%bool then ascii_of_nat (n + 32) else c.

Fixpoint ToLower (s : string) : string :=
  match s with
  | EmptyString => EmptyString
  | String c r => String (toLower c) (ToLower r)
  end.

(** [strings.EqualFold] on ASCII text. *)
Definition EqualFold (s t : string) : bool := String.eqb (ToLower s) (ToLower t).

(** [strings.HasPrefix]. *)
Definition HasPrefix (s prefix : string) : bool := String.prefix prefix s.

Definition HasSuffix (s suffix : string) : bool :=
  String.prefix (String.rev suffix) (String.rev s).

Fixpoint trimLeftChar (cut : ascii) (s : string) : string :=
  match s with
  | EmptyString => EmptyString
  | String c r => if Ascii.eqb c cut then trimLeftChar cut r else s
  end.

(** [strings.Trim(s, cutset)] for a cutset of one character. *)
Definition Trim (s : string) (cut : ascii) : string :=
  String.rev (trimLeftChar cut (String.rev (trimLeftChar cut s))).

Fixpoint containsChar (c : ascii) (s : string) : bool :=
  match s with
  | EmptyString => false
  | String d r => Ascii.eqb c d || containsChar c r
  end.

(** The text before the first [::]: the first, lazy group of the pattern
    in [parseDefaultValueValue], whose optional second group starts at a
    double colon and runs to the end. *)
Fixpoint beforeCast (s : string) : string :=
  match s with
  | EmptyString => EmptyString
  | String c r => if String.prefix "::" s then EmptyString else String c (beforeCast r)
  end.

(** [parseDefaultValueValue]: the pattern matches every text without a
    line break, and then the replacement is its first group. *)
Definition parseDefaultValueValue (defaultValue : string) : string :=
  let value :=
    if containsChar "010"%char defaultValue then defaultValue
    else beforeCast defaultValue in
  Trim value "'"%char.

Definition dropLast (s : string) : string :=
  String.substring 0 (String.length s - 1) s.

(** [autoIncrementValuePattern.MatchString]: the text is
    [nextval('] + name + ['::regclass)], where the name has no single
    quote, may end in a double quote, and before that ends in [seq] after
    at least one more character. *)
Definition autoIncrementValuePattern (s : string) : bool :=
  let pre := "nextval('" in
  let post := "'::regclass)" in
  HasPrefix s pre && HasSuffix s post &&
  Nat.leb (String.length pre + String.length post) (String.length s) &&
  (let name := String.substring (String.length pre)
                 (String.length s - String.length pre - String.length post) s in
   negb (containsChar "'"%char name) &&
   (let core := if HasSuffix name dquote then dropLast name else name in
    HasSuffix core "seq" && Nat.leb 4 (String.length core))).

(** *** [ColumnTypes] *)

(** The [String] field of a [sql.NullString]. *)
Definition NullString_String (o : NullString) : string := default "" o.

(** Methods of [migrator.ColumnType]. *)
Definition ColumnType_Name (ct : ColumnType) : string :=
  match NameValue ct with
  | Some s => s
  | None => match SQLColumnType ct with Some r => raw_Name r | None => "" end
  end.

Definition DatabaseTypeName (ct : ColumnType) : string :=
  match DataTypeValue ct with
  | Some s => s
  | None => match SQLColumnType ct with
            | Some r => raw_DatabaseTypeName r
            | None => ""
            end
  end.

Definition with_SQLColumnType (ct : ColumnType) (c : RawColumnType) : ColumnType :=
  mkColumnType (NameValue ct) (NullableValue ct) (DataTypeValue ct)
    (LengthValue ct) (DecimalSizeValue ct) (ScaleValue ct)
    (DefaultValueValue ct) (CommentValue ct) (AutoIncrementValue ct)
    (PrimaryKeyValue ct) (UniqueValue ct) (ColumnTypeValue ct) (Some c).

Definition with_PrimaryKeyValue (ct : ColumnType) (v : NullBool) : ColumnType :=
  mkColumnType (NameValue ct) (NullableValue ct) (DataTypeValue ct)
    (LengthValue ct) (DecimalSizeValue ct) (ScaleValue ct)
    (DefaultValueValue ct) (CommentValue ct) (AutoIncrementValue ct)
    v (UniqueValue ct) (ColumnTypeValue ct) (SQLColumnType ct).

Definition with_UniqueValue (ct : ColumnType) (v : NullBool) : ColumnType :=
  mkColumnType (NameValue ct) (NullableValue ct) (DataTypeValue ct)
    (LengthValue ct) (DecimalSizeValue ct) (ScaleValue ct)
    (DefaultValueValue ct) (CommentValue ct) (AutoIncrementValue ct)
    (PrimaryKeyValue ct) v (ColumnTypeValue ct) (SQLColumnType ct).

Definition with_types (ct : ColumnType) (dataType columnType : NullString)
  : ColumnType :=
  mkColumnType (NameValue ct) (NullableValue ct) dataType
    (LengthValue ct) (DecimalSizeValue ct) (ScaleValue ct)
    (DefaultValueValue ct) (CommentValue ct) (AutoIncrementValue ct)
    (PrimaryKeyValue ct) (UniqueValue ct) columnType (SQLColumnType ct).

(** The body of the loop over the column query: one scanned row becomes
    one column. *)
Definition columnOfRow (r : ColumnRow) : ColumnType :=
  let typeLenValue := cr_typlen8 r in
  let identityIncrement := cr_identity_increment r in
  let datetimePrecision := cr_datetime_precision r in
  let length :=
    match typeLenValue with
    | Some n => if 0 <? n then typeLenValue else cr_character_maximum_length r
    | None => cr_character_maximum_length r
    end in
  let isAuto :=
    autoIncrementValuePattern (NullString_String (cr_column_default r))
    || match identityIncrement with
       | Some s => negb (String.eqb s "")
       | None => false
       end in
  let autoIncrement := if isAuto then mkNullBool true true else mkNullBool false false in
  let defaultValue := if isAuto then None else cr_column_default r in
  let defaultValue := parseDefaultValueValue <$> defaultValue in
  let decimalSize :=
    match datetimePrecision with
    | Some _ => datetimePrecision
    | None => cr_numeric_precision r
    end in
  mkColumnType (Some (cr_column_name r)) (cr_is_nullable r) (cr_udt_name r)
    length decimalSize (cr_numeric_scale r) defaultValue (cr_description r)
    autoIncrement (mkNullBool false true) (mkNullBool false true) None None.

(** A loop over the columns that changes the first one with the given
    name and breaks. *)
Fixpoint updateFirst (name : string) (f : ColumnType -> ColumnType)
  (columnTypes : list ColumnType) : list ColumnType :=
  match columnTypes with
  | [] => []
  | mc :: rest =>
      if String.eqb (NullString_String (NameValue mc)) name then f mc :: rest
      else mc :: updateFirst name f rest
  end.

(** "assign sql column type". *)
Definition assignSQLColumnTypes (rawColumnTypes : list RawColumnType)
  (columnTypes : list ColumnType) : list ColumnType :=
  map (fun columnType =>
         match find (fun c => String.eqb (raw_Name c) (ColumnType_Name columnType))
                    rawColumnTypes with
         | Some c => with_SQLColumnType columnType c
         | None => columnType
         end) columnTypes.

(** [uniqueContraints[constraintName]++] over the rows of the first
    constraint query. *)
Definition countConstraints (names : list string) : gmap string Z :=
  foldl (fun (counts : gmap string Z) name =>
           <[name := default 0 (counts !! name) + 1]> counts) ∅ names.

(** "check primary, unique field": the loop over the rows of the second
    constraint query. *)
Definition markKeys (uniqueContraints : gmap string Z)
  (keyRows : list (string * string * string))
  (columnTypes : list ColumnType) : list ColumnType :=
  foldl (fun cts '(name, constraintName, columnType) =>
           updateFirst name
             (fun mc =>
                if String.eqb columnType "PRIMARY KEY" then
                  with_PrimaryKeyValue mc (mkNullBool true true)
                else if String.eqb columnType "UNIQUE" then
                  if default 0 (uniqueContraints !! constraintName) =? 1
                  then with_UniqueValue mc (mkNullBool true true)
                  else mc
                else mc)
             cts)
        columnTypes keyRows.

(** "check column type": the loop over the rows of the type query. *)
Definition assignSpannerTypes (typeRows : list (string * string))
  (columnTypes : list ColumnType) : list ColumnType :=
  foldl (fun cts '(name, dataType) =>
           updateFirst name
             (fun mc =>
                with_types mc
                  (if HasPrefix (NullString_String (DataTypeValue mc)) "_"
                   then Some dataType else DataTypeValue mc)
                  (Some dataType))
             cts)
        columnTypes typeRows.

(** [ColumnTypes] returns the columns built so far together with the
    error.  An error of [rows.ColumnTypes] counts as an error of
    [GetRows]; an error in [RowSet] is one of [Scan], [Err] or [Close]
    after the rows before it were handled. *)
Definition ColumnTypes (m : Migrator) (value : Value)
  : Prog (list ColumnType * option Err) :=
  match ParseValue value with
  | inl err => Ret ([], Some err)
  | inr stmt =>
      let '(currentSchema, table) := CurrentSchema m stmt (stmt_Table stmt) in
      columns ← query (QColumns currentSchema table);
      match columns with
      | inl err => Ret ([], Some err)
      | inr columns =>
          let columnTypes := map columnOfRow (rows columns) in
          match rowsErr columns with
          | Some err => Ret (columnTypes, Some err)
          | None =>
              raw ← query (QRawColumnTypes currentSchema table);
              match raw with
              | inl rowsErr_ => Ret (columnTypes, Some rowsErr_)
              | inr raw =>
                  let columnTypes := assignSQLColumnTypes (rows raw) columnTypes in
                  match rowsErr raw with
                  | Some err => Ret (columnTypes, Some err)
                  | None =>
                      uniq ← query (QUniqueConstraintNames currentSchema table);
                      match uniq with
                      | inl err => Ret (columnTypes, Some err)
                      | inr uniq =>
                          let uniqueContraints := countConstraints (rows uniq) in
                          match rowsErr uniq with
                          | Some err => Ret (columnTypes, Some err)
                          | None =>
                              keys ← query (QKeyConstraintColumns currentSchema table);
                              match keys with
                              | inl err => Ret (columnTypes, Some err)
                              | inr keys =>
                                  let columnTypes :=
                                    markKeys uniqueContraints (rows keys) columnTypes in
                                  match rowsErr keys with
                                  | Some err => Ret (columnTypes, Some err)
                                  | None =>
                                      types ← query (QSpannerTypes currentSchema table);
                                      match types with
                                      | inl err => Ret (columnTypes, Some err)
                                      | inr types =>
                                          let columnTypes :=
                                            assignSpannerTypes (rows types) columnTypes in
                                          match rowsErr types with
                                          | Some err => Ret (columnTypes, Some err)
                                          | None => Ret (columnTypes, None)
                                          end
                                      end
                                  end
                              end
                          end
                      end
                  end
              end
          end
      end
  end.

(** *** Columns *)

(** [Dialector.DataTypeOf]; [pgDataTypeOf] is the method of the embedded
    [postgres.Dialector].  The cases are gorm's [schema.Int], [schema.Uint],
    [schema.Float] and [schema.Time]. *)
Definition DataTypeOf (pgDataTypeOf : Field -> string) (field : Field) : string :=
  if String.eqb (DataType field) "int" || String.eqb (DataType field) "uint" then
    if AutoIncrement field then "serial" else "int"
  else if String.eqb (DataType field) "float" then "numeric"
  else if String.eqb (DataType field) "time" then "timestamptz"
  else if AutoIncrement field then "serial"
  else pgDataTypeOf field.

Definition getSerialDatabaseType (s : string) : string * bool :=
  if String.eqb s "smallserial" then ("integer", true)
  else if String.eqb s "serial" then ("integer", true)
  else if String.eqb s "bigserial" then ("bigint", true)
  else ("", false).

Definition MigrateColumn (m : Migrator) (value : Value) (field : Field)
  (columnType : ColumnType) : Prog (option Err) :=
  if negb (PrimaryKey field) then
    e ← base_MigrateColumn m value field columnType;
    match e with
    | Some err => Ret (Some err)
    | None => Ret None
    end
  else Ret None.

(** [stmt.Schema.LookUpField] is called without a nil check: a value
    without a schema makes it panic. *)
Definition isColumnGenerated (m : Migrator) (value : Value) (field : string)
  : Prog bool :=
  r ← RunWithValue value (fun stmt =>
         let currentSchema := SchemaName "public" in
         match stmt_Schema stmt with
         | None => Panic "invalid memory address or nil pointer dereference"
         | Some sch =>
             let name :=
               match LookUpField sch field with
               | Some f => DBName f
               | None => field
               end in
             query (QGeneratedColumnCount currentSchema (stmt_Table stmt) name)
         end);
  match r with
  | inl _ => Ret false
  | inr count => Ret (0 <? count)
  end.

Definition modifyColumn (m : Migrator) (stmt : Stmt) (field : Field)
  (targetType : string) (existingColumn : ColumnType) : Prog (option Err) :=
  let isBoolean := String.eqb targetType "boolean" in
  let alterSQL :=
    if isBoolean &&
       (String.eqb (DatabaseTypeName existingColumn) "int2"
        || String.eqb (DatabaseTypeName existingColumn) "int8"
        || String.eqb (DatabaseTypeName existingColumn) "numeric")
    then "ALTER TABLE ? ALTER COLUMN ? TYPE ? USING ?::int::?"
    else "ALTER TABLE ? ALTER COLUMN ? TYPE ?" in
  let isUncastableDefaultValue := isBoolean in
  let table := ArgTable (base_CurrentTable m stmt) in
  let column := ArgColumn (DBName field) in
  e ← (if negb (String.eqb (NullString_String (DefaultValueValue existingColumn)) "")
          && isUncastableDefaultValue
       then execf "ALTER TABLE ? ALTER COLUMN ? DROP DEFAULT" [table; column]
       else Ret None);
  match e with
  | Some err => Ret (Some err)
  | None =>
      if isUncastableDefaultValue then
        execf alterSQL [table; column; ArgExpr targetType; column; ArgExpr targetType]
      else
        execf alterSQL [table; column; ArgExpr targetType]
  end.

(** The loop that looks for the column of the field has no break: the
    last column with the name wins. *)
Definition findFieldColumnType (dbName : string) (columnTypes : list ColumnType)
  : option ColumnType :=
  foldl (fun found columnType =>
           if String.eqb (ColumnType_Name columnType) dbName
           then Some columnType else found)
        None columnTypes.

(** The type part of [AlterColumn]. *)
Definition alterType (m : Migrator) (stmt : Stmt) (field : Field)
  (fileType : string) (fieldColumnType : ColumnType) : Prog (option Err) :=
  let isSameType :=
    EqualFold (DatabaseTypeName fieldColumnType) fileType
    || existsb (fun alias => HasPrefix fileType alias)
         (base_GetTypeAliases m (DatabaseTypeName fieldColumnType)) in
  if negb isSameType then
    let filedColumnAutoIncrement := Bool_ (AutoIncrementValue fieldColumnType) in
    if AutoIncrement field && filedColumnAutoIncrement then
      let serialDatabaseType := (getSerialDatabaseType fileType).1 in
      if negb (String.eqb (NullString_String (ColumnTypeValue fieldColumnType))
                 serialDatabaseType)
      then base_UpdateSequence m stmt field serialDatabaseType
      else Ret None
    else if AutoIncrement field && negb filedColumnAutoIncrement then
      let serialDatabaseType := (getSerialDatabaseType fileType).1 in
      base_CreateSequence m stmt field serialDatabaseType
    else if negb (AutoIncrement field) && filedColumnAutoIncrement then
      base_DeleteSequence m stmt field fileType
    else modifyColumn m stmt field fileType fieldColumnType
  else Ret None.

(** The nullability part of [AlterColumn]. *)
Definition alterNullable (m : Migrator) (stmt : Stmt) (field : Field)
  (fieldColumnType : ColumnType) : Prog (option Err) :=
  let table := ArgTable (base_CurrentTable m stmt) in
  let column := ArgColumn (DBName field) in
  if Bool.eqb (Bool_ (NullableValue fieldColumnType)) (NotNull field) then
    if NotNull field then
      execf "ALTER TABLE ? ALTER COLUMN ? SET NOT NULL" [table; column]
    else
      execf "ALTER TABLE ? ALTER COLUMN ? DROP NOT NULL" [table; column]
  else Ret None.

(** The default value part of [AlterColumn]. *)
Definition alterDefault (m : Migrator) (stmt : Stmt) (field : Field)
  (fieldColumnType : ColumnType) : Prog (option Err) :=
  let table := ArgTable (base_CurrentTable m stmt) in
  let column := ArgColumn (DBName field) in
  let v := NullString_String (DefaultValueValue fieldColumnType) in
  let ok := bool_decide (is_Some (DefaultValueValue fieldColumnType)) in
  if (bool_decide (DefaultValueInterface field = None) && ok)
     || negb (String.eqb v (DefaultValue field)) then
    if HasDefaultValue field &&
       (bool_decide (is_Some (DefaultValueInterface field))
        || negb (String.eqb (DefaultValue field) "")) then
      match DefaultValueInterface field with
      | Some dv =>
          execf "ALTER TABLE ? ALTER COLUMN ? SET DEFAULT ?"
                [table; column; ArgExpr (base_ExplainDefault m dv)]
      | None =>
          if negb (String.eqb (DefaultValue field) "(-)") then
            execf "ALTER TABLE ? ALTER COLUMN ? SET DEFAULT ?"
                  [table; column; ArgExpr (DefaultValue field)]
          else
            execf "ALTER TABLE ? ALTER COLUMN ? DROP DEFAULT" [table; column]
      end
    else if negb (HasDefaultValue field) then
      execf "ALTER TABLE ? ALTER COLUMN ? DROP DEFAULT" [table; column]
    else Ret None
  else Ret None.

Definition errColumnTypeNotFound (dbName : string) : Err :=
  "column type not found: " +:+ dbName.
Definition errFailedToLookUpField (field : string) : Err :=
  "failed to look up field with name: " +:+ field.

Definition AlterColumn (m : Migrator) (value : Value) (field : string)
  : Prog (option Err) :=
  generated ← isColumnGenerated m value field;
  if (generated : bool) then Ret None
  else
    RunWithValue_ value (fun stmt =>
      match stmt_Schema stmt with
      | Some sch =>
          match LookUpField sch field with
          | Some field_ =>
              cts ← ColumnTypes m value;
              match findFieldColumnType (DBName field_) cts.1 with
              | None => Ret (Some (errColumnTypeNotFound (DBName field_)))
              | Some fieldColumnType =>
                  let fileType := base_DataTypeOf m field_ in
                  e ← alterType m stmt field_ fileType fieldColumnType;
                  match e with
                  | Some err => Ret (Some err)
                  | None =>
                      e ← alterNullable m stmt field_ fieldColumnType;
                      match e with
                      | Some err => Ret (Some err)
                      | None => alterDefault m stmt field_ fieldColumnType
                      end
                  end
              end
          | None => Ret (Some (errFailedToLookUpField field))
          end
      | None => Ret (Some (errFailedToLookUpField field))
      end).

(** *** The update callback *)

(** [gorm.DB] as the callback sees it. *)
Record GormDB := mkGormDB {
  Statement_ : option Stmt;
  DryRun : bool
}.

(** gorm's [utils.IsValidDBNameChar], on ASCII text: true for a character
    that is no letter, no digit and none of [.], [*], [_], [$] and [@]. *)
Definition IsValidDBNameChar (c : ascii) : bool :=
  let n := nat_of_ascii c in
  negb ((Nat.leb 65 n && Nat.leb n 90) || (Nat.leb 97 n && Nat.leb n 122))
  && negb (Nat.leb 48 n && Nat.leb n 57)
  && negb (Ascii.eqb c "."%char) && negb (Ascii.eqb c "*"%char)
  && negb (Ascii.eqb c "_"%char) && negb (Ascii.eqb c "$"%char)
  && negb (Ascii.eqb c "@"%char).

(** [strings.FieldsFunc]: the text is split at each run of characters
    that satisfy [f]; [field] is the field read so far. *)
Fixpoint fieldsFrom (f : ascii -> bool) (field : string) (s : string)
  : list string :=
  match s with
  | EmptyString => if String.eqb field "" then [] else [field]
  | String c r =>
      if f c then
        if String.eqb field "" then fieldsFrom f "" r
        else field :: fieldsFrom f "" r
      else fieldsFrom f (field +:+ String c EmptyString) r
  end.

Definition FieldsFunc (s : string) (f : ascii -> bool) : list string :=
  fieldsFrom f "" s.

(** [db.Statement.Omit(omits...)], gorm's [Omit]: the columns become the
    statement's [Omits], except that a single argument with a comma in
    it is split into the names it holds. *)
Definition Omit (stmt : Stmt) (columns : list string) : Stmt :=
  match columns with
  | [column] =>
      if containsChar ","%char column then
        mkStmt (stmt_Table stmt) (stmt_Schema stmt)
               (FieldsFunc column IsValidDBNameChar)
      else mkStmt (stmt_Table stmt) (stmt_Schema stmt) columns
  | _ => mkStmt (stmt_Table stmt) (stmt_Schema stmt) columns
  end.

Definition BeforeUpdate (db : GormDB) : GormDB :=
  match Statement_ db with
  | Some stmt =>
      match stmt_Schema stmt with
      | Some sch =>
          match PrimaryFieldDBNames sch with
          | Some primaryFieldDBNames =>
              let omits := [] ++ Omits stmt ++ primaryFieldDBNames in
              mkGormDB (Some (Omit stmt omits)) (DryRun db)
          | None => db
          end
      | None => db
      end
  | None => db
  end.

(** ** The information schema *)

(** The catalog relations that the queries of [ColumnTypes],
    [isColumnGenerated], [HasTable], [HasColumn], [HasConstraint] and
    [autoMigrate] read, with the columns these queries name. *)
Record ColumnInfo := mkColumnInfo {
  ci_table_schema : string;
  ci_table_name : string;
  ci_column_name : string;
  ci_ordinal_position : Z;
  ci_is_nullable : string;
  ci_udt_name : string;
  ci_character_maximum_length : NullInt64;
  ci_numeric_precision : NullInt64;
  ci_numeric_precision_radix : NullInt64;
  ci_numeric_scale : NullInt64;
  ci_datetime_precision : NullInt64;
  ci_column_default : NullString;
  ci_identity_increment : NullString;
  ci_generation_expression : NullString;
  ci_spanner_type : string
}.

Record TableConstraint := mkTableConstraint {
  tc_constraint_catalog : string;
  tc_constraint_schema : string;
  tc_constraint_name : string;
  tc_table_schema : string;
  tc_table_name : string;
  tc_constraint_type : string
}.

Record ConstraintColumnUsage := mkConstraintColumnUsage {
  ccu_table_schema : string;
  ccu_table_name : string;
  ccu_column_name : string;
  ccu_constraint_catalog : string;
  ccu_constraint_schema : string;
  ccu_constraint_name : string
}.

Record PgType := mkPgType {
  typname : string;
  typlen : Z
}.

(** A row of [pg_description] with its [objoid] resolved through
    [pg_class] and [pg_namespace] to the schema and relation it names. *)
Record PgDescription := mkPgDescription {
  pd_nspname : string;
  pd_relname : string;
  pd_objsubid : Z;
  pd_description : string
}.

Record ConstraintTableUsage := mkConstraintTableUsage {
  ctu_table_schema : string;
  ctu_table_name : string;
  ctu_constraint_catalog : string;
  ctu_constraint_schema : string;
  ctu_constraint_name : string
}.

Record IndexInfo := mkIndexInfo {
  ix_table_schema : string;
  ix_table_name : string;
  ix_index_name : string;
  ix_index_type : string;
  ix_spanner_is_managed : string
}.

Record TableInfo := mkTableInfo {
  ti_table_schema : string;
  ti_table_name : string;
  ti_table_type : string
}.

Record DatabaseOption := mkDatabaseOption {
  do_schema_name : string;
  do_option_name : string
}.

Record Catalog := mkCatalog {
  cat_tables : list TableInfo;
  cat_columns : list ColumnInfo;
  cat_table_constraints : list TableConstraint;
  cat_constraint_column_usage : list ConstraintColumnUsage;
  cat_constraint_table_usage : list ConstraintTableUsage;
  cat_indexes : list IndexInfo;
  cat_pg_type : list PgType;
  cat_pg_description : list PgDescription;
  cat_database_options : list DatabaseOption
}.

Definition count {A} (p : A -> bool) (l : list A) : Z :=
  Z.of_nat (length (List.filter p l)).

(** [LEFT JOIN]: the matching rows of the right side, or one row of
    nulls. *)
Definition leftJoin {A} (p : A -> bool) (l : list A) : list (option A) :=
  match List.filter p l with
  | [] => [None]
  | matches => map Some matches
  end.

Definition generatedId : string := "spanner_gorm_generated_id".

Definition ofTable (schema table : string) (c : ColumnInfo) : bool :=
  String.eqb (ci_table_schema c) schema && String.eqb (ci_table_name c) table.

(** The column query of [ColumnTypes], over the three relations it
    joins. *)
Definition joinColumns (cols : list ColumnInfo) (types : list PgType)
  (descriptions : list PgDescription) (schema table : string) : list ColumnRow :=
  flat_map (fun c =>
    if ofTable schema table c && negb (String.eqb (ci_column_name c) generatedId) then
      flat_map (fun pgt =>
        map (fun pd =>
          mkColumnRow (ci_column_name c)
            (mkNullBool (String.eqb (ci_is_nullable c) "YES") true)
            (Some (ci_udt_name c))
            (ci_character_maximum_length c) (ci_numeric_precision c)
            (ci_numeric_precision_radix c) (ci_numeric_scale c)
            (ci_datetime_precision c)
            ((fun t => 8 * typlen t) <$> pgt)
            (ci_column_default c)
            (pd_description <$> pd)
            (ci_identity_increment c))
          (leftJoin (fun pd =>
                       (pd_objsubid pd =? ci_ordinal_position c)
                       && String.eqb (pd_relname pd) (ci_table_name c)
                       && String.eqb (pd_nspname pd) (ci_table_schema c))
                    descriptions))
        (leftJoin (fun pgt => String.eqb (ci_udt_name c) (typname pgt)) types)
    else [])
  cols.

Definition selectColumns (cat : Catalog) (schema table : string) : list ColumnRow :=
  joinColumns (cat_columns cat) (cat_pg_type cat) (cat_pg_description cat)
              schema table.

(** The join shared by the two constraint queries:
    [table_constraints tc JOIN constraint_column_usage ccu USING
    (constraint_schema, constraint_catalog, table_name, constraint_name)
    JOIN columns c ON c.table_schema = tc.constraint_schema AND
    tc.table_name = c.table_name AND ccu.column_name = c.column_name],
    with the conditions on schema, table, constraint type and column
    name of the [WHERE] clause. *)
Definition joined (tc : TableConstraint) (ccu : ConstraintColumnUsage)
  (c : ColumnInfo) (schema table : string) : bool :=
  String.eqb (tc_constraint_schema tc) (ccu_constraint_schema ccu)
  && String.eqb (tc_constraint_catalog tc) (ccu_constraint_catalog ccu)
  && String.eqb (tc_table_name tc) (ccu_table_name ccu)
  && String.eqb (tc_constraint_name tc) (ccu_constraint_name ccu)
  && String.eqb (ci_table_schema c) (tc_constraint_schema tc)
  && String.eqb (tc_table_name tc) (ci_table_name c)
  && String.eqb (ccu_column_name ccu) (ci_column_name c)
  && (String.eqb (tc_constraint_type tc) "PRIMARY KEY"
      || String.eqb (tc_constraint_type tc) "UNIQUE")
  && String.eqb (ci_table_schema c) schema
  && String.eqb (ci_table_name c) table
  && negb (String.eqb (ci_column_name c) generatedId).

Definition joinConstraints {R} (tcs : list TableConstraint)
  (ccus : list ConstraintColumnUsage) (cols : list ColumnInfo)
  (schema table : string) (keep : TableConstraint -> bool)
  (out : TableConstraint -> ConstraintColumnUsage -> ColumnInfo -> R) : list R :=
  flat_map (fun tc =>
    flat_map (fun ccu =>
      flat_map (fun c =>
        if joined tc ccu c schema table && keep tc then [out tc ccu c] else [])
        cols)
      ccus)
    tcs.

Definition selectConstraints {R} (cat : Catalog) (schema table : string)
  (keep : TableConstraint -> bool)
  (out : TableConstraint -> ConstraintColumnUsage -> ColumnInfo -> R) : list R :=
  joinConstraints (cat_table_constraints cat) (cat_constraint_column_usage cat)
                  (cat_columns cat) schema table keep out.

Definition selectUniqueConstraintNames (cat : Catalog) (schema table : string)
  : list string :=
  selectConstraints cat schema table
    (fun tc => String.eqb (tc_constraint_type tc) "UNIQUE")
    (fun tc _ _ => tc_constraint_name tc).

Definition selectKeyConstraintColumns (cat : Catalog) (schema table : string)
  : list (string * string * string) :=
  selectConstraints cat schema table (fun _ => true)
    (fun tc _ c => (ci_column_name c, tc_constraint_name tc, tc_constraint_type tc)).

Definition selectSpannerTypes (cat : Catalog) (schema table : string)
  : list (string * string) :=
  map (fun c => (ci_column_name c, ci_spanner_type c))
      (List.filter (fun c => ofTable schema table c
                             && negb (String.eqb (ci_column_name c) generatedId))
                   (cat_columns cat)).

(** The column types the driver reports for [SELECT * FROM table]. *)
Definition selectRawColumnTypes (cat : Catalog) (schema table : string)
  : list RawColumnType :=
  map (fun c => mkRawColumnType (ci_column_name c) (ci_udt_name c))
      (List.filter (ofTable schema table) (cat_columns cat)).

(** The query of [dropForeignKeysReferencingTable]. *)
Definition selectReferencingForeignKeys (cat : Catalog) (schema table : string)
  : list (string * string) :=
  flat_map (fun ctu =>
    flat_map (fun tc =>
      if String.eqb (ctu_constraint_catalog ctu) (tc_constraint_catalog tc)
         && String.eqb (ctu_constraint_schema ctu) (tc_constraint_schema tc)
         && String.eqb (ctu_constraint_name ctu) (tc_constraint_name tc)
         && String.eqb (ctu_table_schema ctu) schema
         && String.eqb (ctu_table_name ctu) table
         && String.eqb (tc_constraint_type tc) "FOREIGN KEY"
      then [(tc_table_name tc, ctu_constraint_name ctu)] else [])
      (cat_table_constraints cat))
    (cat_constraint_table_usage cat).

(** The query of [dropTableIndexes]. *)
Definition selectTableIndexNames (cat : Catalog) (schema table : string)
  : list string :=
  map ix_index_name
    (List.filter (fun i => String.eqb (ix_table_schema i) schema
                           && String.eqb (ix_table_name i) table
                           && String.eqb (ix_index_type i) "INDEX"
                           && String.eqb (ix_spanner_is_managed i) "NO")
                 (cat_indexes cat)).

Definition errSchemaExpr : Err := "schema expression is not evaluated".
Definition errNotInCatalog : Err := "relation is not part of the catalog model".

Definition onSchema {R} (s : SchemaRef) (f : string -> R) : Err + R :=
  match s with
  | SchemaName name => inr (f name)
  | SchemaExpr _ => inl errSchemaExpr
  end.

Definition okRows {R} (l : list R) : RowSet R := mkRowSet l None.

Definition catalogAnswer (R : Type) (cat : Catalog) (q : Query R) : Err + R :=
  match q in Query R return Err + R with
  | QDefaultSequenceKind =>
      inr (count (fun o => String.eqb (do_schema_name o) "public"
                           && String.eqb (do_option_name o) "default_sequence_kind")
                 (cat_database_options cat))
  | QTableNames s =>
      onSchema s (fun schema =>
        okRows (map ti_table_name
                  (List.filter (fun t => String.eqb (ti_table_schema t) schema
                                         && String.eqb (ti_table_type t) "BASE TABLE")
                               (cat_tables cat))))
  | QTableCount s table =>
      onSchema s (fun schema =>
        count (fun t => String.eqb (ti_table_schema t) schema
                        && String.eqb (ti_table_name t) table
                        && String.eqb (ti_table_type t) "BASE TABLE")
              (cat_tables cat))
  | QColumnCount s table column =>
      onSchema s (fun schema =>
        count (fun c => ofTable schema table c
                        && String.eqb (ci_column_name c) column)
              (cat_columns cat))
  | QConstraintCount s table name =>
      onSchema s (fun schema =>
        count (fun tc => String.eqb (tc_table_schema tc) schema
                         && String.eqb (tc_table_name tc) table
                         && String.eqb (tc_constraint_name tc) name)
              (cat_table_constraints cat))
  | QGeneratedColumnCount s table column =>
      onSchema s (fun schema =>
        count (fun c => ofTable schema table c
                        && String.eqb (ci_column_name c) column
                        && bool_decide (is_Some (ci_generation_expression c)))
              (cat_columns cat))
  | QIndexCount table name s =>
      onSchema s (fun schema =>
        count (fun i => String.eqb (ix_table_name i) table
                        && String.eqb (ix_index_name i) name
                        && String.eqb (ix_table_schema i) schema)
              (cat_indexes cat))
  | QReferencingForeignKeys s table =>
      onSchema s (fun schema => okRows (selectReferencingForeignKeys cat schema table))
  | QTableIndexNames s table =>
      onSchema s (fun schema => okRows (selectTableIndexNames cat schema table))
  | QColumns s table =>
      onSchema s (fun schema => okRows (selectColumns cat schema table))
  | QRawColumnTypes s table =>
      onSchema s (fun schema => okRows (selectRawColumnTypes cat schema table))
  | QUniqueConstraintNames s table =>
      onSchema s (fun schema => okRows (selectUniqueConstraintNames cat schema table))
  | QKeyConstraintColumns s table =>
      onSchema s (fun schema => okRows (selectKeyConstraintColumns cat schema table))
  | QSpannerTypes s table =>
      onSchema s (fun schema => okRows (selectSpannerTypes cat schema table))
  | _ => inl errNotInCatalog
  end.

Definition errReadOnlyCatalog : Err := "DDL is not applied to the catalog model".

(** A server that answers from a catalog and applies no DDL. *)
Definition catalogServer : Server :=
  mkServer Catalog catalogAnswer (fun cat _ => (cat, Some errReadOnlyCatalog)).

(** ** A server and an embedded migrator for the examples *)

Definition errUnavailable : Err := "rpc error: code = Unavailable".

(** The error the emulator returns in [TestMigrateUniqueFieldFails]. *)
Definition errUniqueNotSupportedByServer : Err :=
  "rpc error: code = FailedPrecondition desc = <UNIQUE> constraint is not supported, create a unique index instead.".

(** [strings.Contains]. *)
Fixpoint Contains (s substr : string) : bool :=
  String.prefix substr s ||
  match s with
  | EmptyString => false
  | String _ r => Contains r substr
  end.

Definition createTablePrefix (table : string) : string :=
  "CREATE TABLE " +:+ QuoteTo table +:+ " (".

(** A database that is either unreachable ([None]) or the list of the DDL
    statements applied to it: a table exists once its CREATE TABLE was
    applied, the sequence kind is set once the ALTER DATABASE was, and a
    request with a UNIQUE constraint is refused as a whole. *)
Definition recordedAnswer (R : Type) (d : option (list string)) (q : Query R)
  : Err + R :=
  match d with
  | None => inl errUnavailable
  | Some applied =>
      match q in Query R return Err + R with
      | QDefaultSequenceKind =>
          inr (count (String.eqb alterDatabaseSql) applied)
      | QTableCount (SchemaName "public") table =>
          inr (count (fun s => HasPrefix s (createTablePrefix table)) applied)
      | _ => inl errNotInCatalog
      end
  end.

Definition recordedUpdate (d : option (list string)) (stmts : list string)
  : option (list string) * option Err :=
  match d with
  | None => (None, Some errUnavailable)
  | Some applied =>
      if existsb (fun s => Contains s " UNIQUE ") stmts
      then (d, Some errUniqueNotSupportedByServer)
      else (Some (applied ++ stmts), None)
  end.

Definition recordingServer : Server :=
  mkServer (option (list string)) recordedAnswer recordedUpdate.

Fixpoint joinWith (sep : string) (l : list string) : string :=
  match l with
  | [] => EmptyString
  | [x] => x
  | x :: rest => x +:+ sep +:+ joinWith sep rest
  end.

(** A CREATE TABLE in the shape of the statements that the tests expect:
    the columns, then a UNIQUE constraint for each field marked unique. *)
Definition exampleCreateTable (sch : Schema) : string :=
  createTablePrefix (Table sch) +:+
  joinWith ","
    (map (fun f => QuoteTo (DBName f) +:+ " " +:+ DataType f) (Fields sch)
     ++ map (fun f => "CONSTRAINT " +:+ QuoteTo ("uni_" +:+ Table sch +:+ "_" +:+ DBName f)
                      +:+ " UNIQUE (" +:+ QuoteTo (DBName f) +:+ ")")
            (List.filter Unique (Fields sch)))
  +:+ ")".

(** An embedded migrator for the examples: it creates each model's table
    unless the catalog has it. *)
Definition exampleAutoMigrate (values : list Value) : Prog (option Err) :=
  forRows (fun value =>
    match value with
    | Model sch =>
        r ← query (QTableCount (SchemaName "public") (Table sch));
        match r with
        | inl err => Ret (Some err)
        | inr n => if 0 <? n then Ret None else exec (exampleCreateTable sch)
        end
    | TableName _ => Ret None
    | Unparsable err => Ret (Some err)
    end) values.

(** The migrator of the examples.  Its [ReorderModels] returns the
    values in the order given, which is what gorm's does for distinct
    models when it is called with [autoAdd] false, as [DropTable] calls
    it: gorm follows the dependencies of a model only to add them. *)
Definition exampleMigrator (cfg : SpannerConfig) : Migrator :=
  mkMigrator
    exampleAutoMigrate
    (fun _ _ _ => Ret None)
    (fun _ table => (SchemaExpr "CURRENT_SCHEMA()", table))
    stmt_Table
    (fun values _ => values)
    (fun value name =>
       match value with
       | TableName t => execf "ALTER TABLE ? DROP CONSTRAINT ?" [ArgTable t; ArgColumn name]
       | _ => Ret None
       end)
    (fun _ name => execf "DROP INDEX ?" [ArgColumn name])
    (fun _ => [])
    DataType
    (fun _ _ _ => Ret None)
    (fun _ _ _ => Ret None)
    (fun _ _ _ => Ret None)
    (fun v => v)
    (SpannerPG cfg)
    (AutoAddPrimaryKey cfg).

Definition defaultConfig : SpannerConfig := mkSpannerConfig false false false.

Definition exampleField (name dbName dataType : string) : Field :=
  mkField name dbName dataType false false false false false "" None false.

Definition lookUpIn (fields : list Field) (name : string) : option Field :=
  match find (fun f => String.eqb (DBName f) name) fields with
  | Some f => Some f
  | None => find (fun f => String.eqb (Name f) name) fields
  end.

Definition exampleSchema (table : string) (fields : list Field) : Schema :=
  mkSchema table fields
    (List.filter PrimaryKey fields)
    (Some (map DBName (List.filter PrimaryKey fields)))
    (lookUpIn fields).

Definition idField : Field :=
  mkField "ID" "id" "uint" true true false false false "" None false.

(** A fresh connection to a server state. *)
Definition connect {srv} (d : DB srv) : Conn srv :=
  mkConn d None [] true None true.

(** ** The catalog of [TestMigrateMultipleTimesUniqueIndexSameFieldName] *)

Definition exampleColumn (table column : string) (position : Z)
  (udt spannerType : string) : ColumnInfo :=
  mkColumnInfo "public" table column position "YES" udt None None None None None
               None None None spannerType.

(** The columns of a model that embeds [gorm.Model] and has a [SHA256]
    string. *)
Definition sha256Columns (table : string) : list ColumnInfo :=
  [ mkColumnInfo "public" table "id" 1 "NO" "int8" None (Some 64) (Some 2) (Some 0)
                 None None (Some "1") None "bigint";
    exampleColumn table "created_at" 2 "timestamptz" "timestamp with time zone";
    exampleColumn table "updated_at" 3 "timestamptz" "timestamp with time zone";
    exampleColumn table "deleted_at" 4 "timestamptz" "timestamp with time zone";
    exampleColumn table "sha256" 5 "varchar" "character varying" ].

Definition primaryKeyOf (table : string) : TableConstraint :=
  mkTableConstraint "" "public" ("PK_" +:+ table) "public" table "PRIMARY KEY".

Definition primaryKeyUsage (table : string) : ConstraintColumnUsage :=
  mkConstraintColumnUsage "public" table "id" "" "public" ("PK_" +:+ table).

Definition examplePgTypes : list PgType :=
  [mkPgType "int8" 8; mkPgType "varchar" (-1); mkPgType "timestamptz" 8].

(** Only table [as]. *)
Definition catalogAs : Catalog :=
  mkCatalog
    [mkTableInfo "public" "as" "BASE TABLE"]
    (sha256Columns "as")
    [primaryKeyOf "as"]
    [primaryKeyUsage "as"]
    [] []
    examplePgTypes [] [mkDatabaseOption "public" "default_sequence_kind"].

(** Tables [as] and [bs], with [bs.sha256] unique. *)
Definition catalogAsBs : Catalog :=
  mkCatalog
    [mkTableInfo "public" "as" "BASE TABLE"; mkTableInfo "public" "bs" "BASE TABLE"]
    (sha256Columns "bs" ++ sha256Columns "as")
    [mkTableConstraint "" "public" "uni_bs_sha256" "public" "bs" "UNIQUE";
     primaryKeyOf "bs"; primaryKeyOf "as"]
    [mkConstraintColumnUsage "public" "bs" "sha256" "" "public" "uni_bs_sha256";
     primaryKeyUsage "bs"; primaryKeyUsage "as"]
    []
    [mkIndexInfo "public" "bs" "idx_bs_sha256" "INDEX" "NO"]
    examplePgTypes [] [mkDatabaseOption "public" "default_sequence_kind"].

Definition sha256Model (table : string) (unique : bool) : Schema :=
  exampleSchema table
    [ idField;
      exampleField "CreatedAt" "created_at" "time";
      exampleField "UpdatedAt" "updated_at" "time";
      exampleField "DeletedAt" "deleted_at" "time";
      mkField "SHA256" "sha256" "string" false false false unique false "" None false ].

(** The condition under which gorm's column migration drops a unique
    constraint, the spurious action of the regression that the test
    describes: the live column is reported unique and the field is not. *)
Definition dropsUnique (field : Field) (columnType : ColumnType) : bool :=
  Bool_ (UniqueValue columnType) && negb (Unique field).

(** ** The generated column of the test model [Singer] *)

Definition fullNameExpression : string :=
  "CASE WHEN first_name IS NULL THEN last_name WHEN last_name  IS NULL THEN first_name ELSE first_name || ' ' || last_name END".

(** [FullName string] with the tags [type:varchar generated always as
    (...) stored] and [default:(-)]. *)
Definition fullNameField : Field :=
  mkField "FullName" "full_name"
    ("varchar generated always as (" +:+ fullNameExpression +:+ ") stored")
    false false false false true "(-)" None false.

Definition singerModel : Schema :=
  exampleSchema "singers"
    [ idField;
      exampleField "FirstName" "first_name" "string";
      exampleField "LastName" "last_name" "string";
      fullNameField;
      exampleField "Active" "active" "bool" ].

(** The catalog after the table was created; [generated] says whether
    [full_name] carries its generation expression. *)
Definition catalogSingers (generated : bool) : Catalog :=
  mkCatalog
    [mkTableInfo "public" "singers" "BASE TABLE"]
    [ mkColumnInfo "public" "singers" "id" 1 "NO" "int8" None (Some 64) (Some 2)
                   (Some 0) None None (Some "1") None "bigint";
      exampleColumn "singers" "first_name" 2 "varchar" "character varying";
      exampleColumn "singers" "last_name" 3 "varchar" "character varying";
      mkColumnInfo "public" "singers" "full_name" 4 "YES" "varchar" None None None
                   None None None None
                   (if generated then Some fullNameExpression else None)
                   "character varying";
      exampleColumn "singers" "active" 5 "bool" "boolean" ]
    [primaryKeyOf "singers"]
    [primaryKeyUsage "singers"]
    [] []
    (mkPgType "bool" 1 :: examplePgTypes) []
    [mkDatabaseOption "public" "default_sequence_kind"].

(** A server on which the count query of [isColumnGenerated] fails and
    every other query is answered from the catalog. *)
Definition generatedCountUnavailable : Server :=
  mkServer Catalog
    (fun R cat q =>
       match q in Query R return Err + R with
       | QGeneratedColumnCount _ _ _ => inl errUnavailable
       | q' => catalogAnswer _ cat q'
       end)
    (fun cat _ => (cat, Some errReadOnlyCatalog)).

(** The same table in the schema [music]. *)
Definition catalogMusicSingers : Catalog :=
  mkCatalog
    [mkTableInfo "music" "singers" "BASE TABLE"]
    [ mkColumnInfo "music" "singers" "id" 1 "NO" "int8" None (Some 64) (Some 2)
                   (Some 0) None None (Some "1") None "bigint";
      mkColumnInfo "music" "singers" "full_name" 4 "YES" "varchar" None None None
                   None None None None (Some fullNameExpression)
                   "character varying" ]
    [] [] [] []
    (mkPgType "bool" 1 :: examplePgTypes) []
    [mkDatabaseOption "public" "default_sequence_kind"].

(** The migrator for a statement whose table expression names the schema
    [music]: the embedded [CurrentSchema] returns that schema with the
    table, and [stmt.Table] is the bare table name. *)
Definition musicMigrator : Migrator :=
  mkMigrator
    exampleAutoMigrate
    (fun _ _ _ => Ret None)
    (fun _ table => (SchemaName "music", table))
    stmt_Table
    (fun values _ => values)
    (fun _ _ => Ret None)
    (fun _ name => execf "DROP INDEX ?" [ArgColumn name])
    (fun _ => [])
    DataType
    (fun _ _ _ => Ret None)
    (fun _ _ _ => Ret None)
    (fun _ _ _ => Ret None)
    (fun v => v)
    (SpannerPG defaultConfig)
    (AutoAddPrimaryKey defaultConfig).

(** ** The update callback chain *)

(** A callback as [Initialize] registers it: its name, the callbacks it
    must run after and before, and the function. *)
Record Callback := mkCallback {
  cb_name : string;
  cb_after : string;
  cb_before : string;
  cb_handler : GormDB -> GormDB
}.

(** The registration in [Initialize]. *)
Definition removePrimaryKeyFromUpdate : Callback :=
  mkCallback "gorm:spanner:remove_primary_key_from_update"
             "gorm:before_update" "gorm:update" BeforeUpdate.

(** The processor runs the callbacks in their order. *)
Definition runCallbacks (chain : list Callback) (db : GormDB) : GormDB :=
  foldl (fun d cb => cb_handler cb d) db chain.

(** A SET clause builder for the examples: the columns of the update that
    are not omitted. *)
Definition exampleAssignments (columns : list string) (stmt : Stmt) : list string :=
  List.filter (fun col => negb (existsb (String.eqb col) (Omits stmt))) columns.

(** A model whose only key column has a comma in its name. *)
Definition pairsModel : Schema :=
  exampleSchema "pairs"
    [ mkField "Key" "a,b" "string" true false false false false "" None false;
      exampleField "Value" "value" "string" ].

(** ** The models of [TestMigrate]: [album] references [singer] *)

Definition singersModel : Schema :=
  exampleSchema "singers" [idField; exampleField "FirstName" "first_name" "string"].

Definition albumsModel : Schema :=
  exampleSchema "albums"
    [idField; exampleField "Title" "title" "string";
     exampleField "SingerID" "singer_id" "uint"].

(** The catalog once both tables exist, with the foreign key of
    [albums] and the indexes on [deleted_at]. *)
Definition catalogSingersAlbums : Catalog :=
  mkCatalog
    [mkTableInfo "public" "singers" "BASE TABLE";
     mkTableInfo "public" "albums" "BASE TABLE"]
    [ exampleColumn "singers" "id" 1 "int8" "bigint";
      exampleColumn "singers" "first_name" 2 "varchar" "character varying";
      exampleColumn "albums" "id" 1 "int8" "bigint";
      exampleColumn "albums" "title" 2 "varchar" "character varying";
      exampleColumn "albums" "singer_id" 3 "int8" "bigint" ]
    [primaryKeyOf "singers"; primaryKeyOf "albums";
     mkTableConstraint "" "public" "fk_albums_singer" "public" "albums" "FOREIGN KEY"]
    [primaryKeyUsage "singers"; primaryKeyUsage "albums"]
    [mkConstraintTableUsage "public" "singers" "" "public" "fk_albums_singer"]
    [mkIndexInfo "public" "singers" "idx_singers_deleted_at" "INDEX" "NO";
     mkIndexInfo "public" "albums" "idx_albums_deleted_at" "INDEX" "NO";
     mkIndexInfo "public" "albums" "PRIMARY_KEY" "PRIMARY_KEY" "NO"]
    examplePgTypes [] [mkDatabaseOption "public" "default_sequence_kind"].

(** ** The constraint check in front of the planner *)

(** Modelled from the spec: the rejection of a genuine UNIQUE constraint
    by the Type and Constraint Mapper (section 4.2), which fails before
    anything is planned.  The migrator of the GoogleSQL dialect, which
    returns [errUniqueConstraintNotSupported], is not among the source
    files; its test [TestMigrateUniqueFieldFails] is.  The error value is
    a parameter. *)
Definition declaresUnique (value : Value) : bool :=
  match value with
  | Model sch => existsb Unique (Fields sch)
  | _ => false
  end.

Definition checkUniqueConstraints (errUniqueConstraintNotSupported : Err)
  (values : list Value) : option Err :=
  if existsb declaresUnique values then Some errUniqueConstraintNotSupported
  else None.

Definition withConstraintCheck (errUniqueConstraintNotSupported : Err)
  (m : Migrator) : Migrator :=
  mkMigrator
    (fun values =>
       match checkUniqueConstraints errUniqueConstraintNotSupported values with
       | Some err => Ret (Some err)
       | None => base_AutoMigrate m values
       end)
    (base_MigrateColumn m) (base_CurrentSchema m) (base_CurrentTable m)
    (base_ReorderModels m) (base_DropConstraint m) (base_DropIndex m)
    (base_GetTypeAliases m) (base_DataTypeOf m) (base_UpdateSequence m)
    (base_CreateSequence m) (base_DeleteSequence m) (base_ExplainDefault m)
    (Dialector m) (autoAddPrimaryKey m).

(** ** Names in the statements that the tests expect *)

(** The statement texts below are those of the tests; where a test has a
    double quote, the text here has a backquote, and [doubleQuoted] puts
    the double quote back. *)
Fixpoint doubleQuoted (s : string) : string :=
  match s with
  | EmptyString => EmptyString
  | String c r =>
      String (if Ascii.eqb c "`"%char then "034"%char else c) (doubleQuoted r)
  end.

(** The five statements that [TestMigrate] expects from the PostgreSQL
    dialect for [singer], [album] and [test]; [album] and [test] have a
    field [Singer *singer]. *)
Definition TestMigrate_statements : list string :=
  map doubleQuoted
  [
    "CREATE TABLE `singers` (`id` serial,`created_at` timestamptz,`updated_at` timestamptz,`deleted_at` timestamptz,`first_name` text,`last_name` text,`full_name` text,`active` boolean,PRIMARY KEY (`id`))";
    "CREATE INDEX IF NOT EXISTS `idx_singers_deleted_at` ON `singers` (`deleted_at`)";
    "CREATE TABLE `albums` (`id` serial,`created_at` timestamptz,`updated_at` timestamptz,`deleted_at` timestamptz,`title` text,`rating` numeric,`singer_id` int,PRIMARY KEY (`id`),CONSTRAINT `fk_albums_singer` FOREIGN KEY (`singer_id`) REFERENCES `singers`(`id`))";
    "CREATE INDEX IF NOT EXISTS `idx_albums_deleted_at` ON `albums` (`deleted_at`)";
    "CREATE TABLE `tests` (`id` serial,`test` text,`singer_id` int,PRIMARY KEY (`id`),CONSTRAINT `fk_tests_singer` FOREIGN KEY (`singer_id`) REFERENCES `singers`(`id`))"
 ].

(** The sixteen statements that [TestAutoMigrate_CreateDataModel] expects
    from the dry run of the GoogleSQL dialect for [Singer], [Album],
    [Track], [Venue] and [Concert]; [Singer] has [Albums []Album] and
    [Concerts []Concert], [Album] has [Tracks []Track], [Venue] has
    [Concerts []Concert]. *)
Definition createSequenceStatement (name : string) : string :=
  "CREATE SEQUENCE IF NOT EXISTS " +:+ name +:+ " OPTIONS (sequence_kind = "
  +:+ QuoteTo "bit_reversed_positive" +:+ ")".

Definition CreateDataModel_statements : list string :=
  [
    createSequenceStatement "singers_seq";
    "CREATE TABLE `singers` (`id` INT64 DEFAULT (GET_NEXT_SEQUENCE_VALUE(Sequence singers_seq)),`created_at` TIMESTAMP,`updated_at` TIMESTAMP,`deleted_at` TIMESTAMP,`first_name` STRING(MAX),`last_name` STRING(MAX),`full_name` STRING(MAX) AS (concat(coalesce(first_name, ''),' ',last_name)) STORED,`active` BOOL) PRIMARY KEY (`id`)";
    "CREATE INDEX `idx_singers_deleted_at` ON `singers`(`deleted_at`)";
    createSequenceStatement "albums_seq";
    "CREATE TABLE `albums` (`id` INT64 DEFAULT (GET_NEXT_SEQUENCE_VALUE(Sequence albums_seq)),`created_at` TIMESTAMP,`updated_at` TIMESTAMP,`deleted_at` TIMESTAMP,`title` STRING(MAX),`marketing_budget` BOOL,`release_date` date,`cover_picture` BYTES(MAX),`singer_id` INT64,CONSTRAINT `fk_singers_albums` FOREIGN KEY (`singer_id`) REFERENCES `singers`(`id`)) PRIMARY KEY (`id`)";
    "CREATE INDEX `idx_albums_deleted_at` ON `albums`(`deleted_at`)";
    createSequenceStatement "tracks_seq";
    "CREATE TABLE `tracks` (`id` INT64 DEFAULT (GET_NEXT_SEQUENCE_VALUE(Sequence tracks_seq)),`created_at` TIMESTAMP,`updated_at` TIMESTAMP,`deleted_at` TIMESTAMP,`track_number` INT64,`title` STRING(MAX),`sample_rate` FLOAT64,`album_id` INT64,CONSTRAINT `fk_albums_tracks` FOREIGN KEY (`album_id`) REFERENCES `albums`(`id`)) PRIMARY KEY (`id`)";
    "CREATE INDEX `idx_tracks_deleted_at` ON `tracks`(`deleted_at`)";
    createSequenceStatement "venues_seq";
    "CREATE TABLE `venues` (`id` INT64 DEFAULT (GET_NEXT_SEQUENCE_VALUE(Sequence venues_seq)),`created_at` TIMESTAMP,`updated_at` TIMESTAMP,`deleted_at` TIMESTAMP,`name` STRING(MAX),`description` JSON) PRIMARY KEY (`id`)";
    "CREATE INDEX `idx_venues_deleted_at` ON `venues`(`deleted_at`)";
    createSequenceStatement "concerts_seq";
    "CREATE TABLE `concerts` (`id` INT64 DEFAULT (GET_NEXT_SEQUENCE_VALUE(Sequence concerts_seq)),`created_at` TIMESTAMP,`updated_at` TIMESTAMP,`deleted_at` TIMESTAMP,`name` STRING(MAX),`venue_id` INT64,`singer_id` INT64,`start_time` TIMESTAMP,`end_time` TIMESTAMP,CONSTRAINT `fk_singers_concerts` FOREIGN KEY (`singer_id`) REFERENCES `singers`(`id`),CONSTRAINT `fk_venues_concerts` FOREIGN KEY (`venue_id`) REFERENCES `venues`(`id`)) PRIMARY KEY (`id`)";
    "CREATE INDEX `idx_concerts_time` ON `concerts`(`start_time`,`end_time`)";
    "CREATE INDEX `idx_concerts_deleted_at` ON `concerts`(`deleted_at`)"
 ].

(** Modelled from the spec: the naming conventions of section 4.4.  The
    names are made by gorm's naming strategy and by the migrator of the
    GoogleSQL dialect, which are not among the source files. *)
Definition foreignKeyName (parent child : string) : string :=
  "fk_" +:+ parent +:+ "_" +:+ child.

Definition softDeleteIndexName (table : string) : string :=
  "idx_" +:+ table +:+ "_deleted_at".

Definition sequenceName (table : string) : string := table +:+ "_seq".

(** An association of a test model whose foreign key the expected
    statements contain: the table of the model that declares it, the
    snake case name of its field, and the tables of the child (which
    holds the foreign key column) and of the parent. *)
Record Association := mkAssociation {
  declaringTable : string;
  associationName : string;
  childTable : string;
  parentTable : string
}.

(** The foreign key names of the expected statements follow this
    shape. *)
Definition associationForeignKeyName (a : Association) : string :=
  "fk_" +:+ declaringTable a +:+ "_" +:+ associationName a.

Definition TestMigrate_associations : list Association :=
  [ mkAssociation "albums" "singer" "albums" "singers";
    mkAssociation "tests" "singer" "tests" "singers" ].

Definition CreateDataModel_associations : list Association :=
  [ mkAssociation "singers" "albums" "albums" "singers";
    mkAssociation "albums" "tracks" "tracks" "albums";
    mkAssociation "venues" "concerts" "concerts" "venues";
    mkAssociation "singers" "concerts" "concerts" "singers" ].

Definition backquote : string := "`".

Definition quotedBy (q name : string) : string := q +:+ name +:+ q.

Definition createsTable (q stmt table : string) : bool :=
  HasPrefix stmt ("CREATE TABLE " +:+ quotedBy q table +:+ " (").

Definition referencesTable (q stmt parent : string) : bool :=
  Contains stmt (" REFERENCES " +:+ quotedBy q parent +:+ "(").

Definition namesForeignKey (q stmt name : string) : bool :=
  Contains stmt ("CONSTRAINT " +:+ quotedBy q name +:+ " FOREIGN KEY ").

Definition createsIndexOnDeletedAt (q stmt : string) : bool :=
  HasPrefix stmt "CREATE INDEX " && Contains stmt ("(" +:+ quotedBy q "deleted_at" +:+ ")").

Definition namesIndex (q stmt name table : string) : bool :=
  Contains stmt (" " +:+ quotedBy q name +:+ " ON " +:+ quotedBy q table).

(** How often a text occurs in a statement. *)
Fixpoint occurrences (s substr : string) : nat :=
  (if String.prefix substr s then 1 else 0)%nat +
  match s with
  | EmptyString => 0%nat
  | String _ r => occurrences r substr
  end.

(** The convention of the spec for foreign keys, on a list of statements
    and the tables they are about: a CREATE TABLE of a child that
    references a parent names the constraint [fk_<parent>_<child>]. *)
Definition foreignKeysNamedParentChild (q : string) (stmts tables : list string)
  : bool :=
  forallb (fun stmt =>
    forallb (fun child =>
      forallb (fun parent =>
        implb (createsTable q stmt child && referencesTable q stmt parent)
              (namesForeignKey q stmt (foreignKeyName parent child)))
        tables) tables) stmts.

(** Every association has its foreign key in the CREATE TABLE of the
    child, under the name of the association, and the statements have no
    other foreign key. *)
Definition foreignKeysNamedByAssociation (q : string) (stmts : list string)
  (associations : list Association) : bool :=
  forallb (fun a =>
    existsb (fun stmt =>
      createsTable q stmt (childTable a) && referencesTable q stmt (parentTable a)
      && namesForeignKey q stmt (associationForeignKeyName a)) stmts)
    associations
  && Nat.eqb (list_sum (map (fun stmt => occurrences stmt " FOREIGN KEY ") stmts))
             (length associations).

(** Every index on [deleted_at] has the soft-delete name of its table,
    and every table with a [deleted_at] column has one. *)
Definition softDeleteIndexesNamed (q : string) (stmts tables : list string) : bool :=
  forallb (fun stmt =>
    implb (createsIndexOnDeletedAt q stmt)
          (existsb (fun t => namesIndex q stmt (softDeleteIndexName t) t) tables))
    stmts
  && forallb (fun t =>
       implb (existsb (fun stmt => createsTable q stmt t
                                   && Contains stmt (quotedBy q "deleted_at")) stmts)
             (existsb (fun stmt => createsIndexOnDeletedAt q stmt
                                   && namesIndex q stmt (softDeleteIndexName t) t) stmts))
       tables.

(** Every CREATE SEQUENCE is that of a table's sequence, and the table's
    CREATE TABLE takes its key from the sequence of that name. *)
Definition sequencesNamed (q : string) (stmts tables : list string) : bool :=
  forallb (fun stmt =>
    implb (HasPrefix stmt "CREATE SEQUENCE ")
          (existsb (fun t => String.eqb stmt (createSequenceStatement (sequenceName t)))
                   tables))
    stmts
  && forallb (fun t =>
       existsb (fun stmt =>
         createsTable q stmt t
         && Contains stmt ("GET_NEXT_SEQUENCE_VALUE(Sequence " +:+ sequenceName t +:+ ")"))
         stmts
       && existsb (String.eqb (createSequenceStatement (sequenceName t))) stmts)
       tables.

Definition TestMigrate_tables : list string := ["singers"; "albums"; "tests"].

Definition CreateDataModel_tables : list string :=
  ["singers"; "albums"; "tracks"; "venues"; "concerts"].

(** ** The two renderings of [concerts] *)

(** The two texts that [TestAutoMigrate_CreateDataModel] accepts for
    statement 9 of the dry run, the CREATE TABLE of [concerts]: the two
    foreign keys come in either order, and which one a call gets is not
    decided by the models. *)
Definition createConcerts (venuesFirst : bool) : string :=
  doubleQuoted
    ("CREATE TABLE `concerts` (`id` serial,`created_at` timestamptz,`updated_at` timestamptz,`deleted_at` timestamptz,`name` text,`venue_id` int,`singer_id` int,`start_time` timestamptz,`end_time` timestamptz,PRIMARY KEY (`id`),"
     +:+ (if venuesFirst
          then "CONSTRAINT `fk_venues_concerts` FOREIGN KEY (`venue_id`) REFERENCES `venues`(`id`),CONSTRAINT `fk_singers_concerts` FOREIGN KEY (`singer_id`) REFERENCES `singers`(`id`)"
          else "CONSTRAINT `fk_singers_concerts` FOREIGN KEY (`singer_id`) REFERENCES `singers`(`id`),CONSTRAINT `fk_venues_concerts` FOREIGN KEY (`venue_id`) REFERENCES `venues`(`id`)")
     +:+ ")").

Definition concertsModel : Schema :=
  exampleSchema "concerts"
    [idField; exampleField "Name" "name" "string";
     exampleField "VenueID" "venue_id" "uint";
     exampleField "SingerID" "singer_id" "uint"].

(** The migrator during one call of the test: its embedded migrator
    creates [concerts] with the text that the call happens to get. *)
Definition concertsMigrator (venuesFirst : bool) : Migrator :=
  mkMigrator
    (fun _ => exec (createConcerts venuesFirst))
    (fun _ _ _ => Ret None)
    (fun _ table => (SchemaExpr "CURRENT_SCHEMA()", table))
    stmt_Table
    (fun values _ => values)
    (fun _ _ => Ret None)
    (fun _ name => execf "DROP INDEX ?" [ArgColumn name])
    (fun _ => [])
    DataType
    (fun _ _ _ => Ret None)
    (fun _ _ _ => Ret None)
    (fun _ _ _ => Ret None)
    (fun v => v)
    (SpannerPG defaultConfig)
    (AutoAddPrimaryKey defaultConfig).
(** ** Vocabulary of the properties *)

(** A program that only queries the catalog and executes DDL: it sends no
    batch control statement and never looks at the connection itself.
    gorm's own migrator is such a program. *)
Fixpoint ddl_only {A} (p : Prog A) : Prop :=
  match p with
  | Ret _ => True
  | Panic _ => True
  | Vis e k =>
      match e in Event X return (X -> Prog A) -> Prop with
      | EQuery q => fun k => forall r, ddl_only (k r)
      | EExec sql => fun k => classify sql = KDdl /\ forall r, ddl_only (k r)
      | EConnRaw => fun _ => False
      end k
  end.

(** Two connections that differ at most in the record of what was sent. *)
Definition same_but_trace {srv} (c c' : Conn srv) : Prop :=
  live c = live c' /\ batch c = batch c' /\
  poolIsSqlConn c = poolIsSqlConn c' /\ connRawErr c = connRawErr c' /\
  driverIsSpanner c = driverIsSpanner c'.

(** The last string sent through [Exec]. *)
Definition last_sent {srv} (c : Conn srv) : option string := last (trace c).

(** [c'] was reached from [c] by sending only strings that satisfy [P]. *)
Definition sent_only {srv} (P : string -> Prop) (c c' : Conn srv) : Prop :=
  exists delta, trace c' = trace c ++ delta /\ Forall P delta.

Definition not_run_batch (sql : string) : Prop := classify sql <> KRunBatch.

(** The connection once [autoMigrate] has started its batch: START BATCH
    DDL was sent, and ALTER DATABASE is the first statement of the batch
    when the default sequence kind is not set. *)
Definition batchStarted {srv} (c : Conn srv) (cnt : Z) : Conn srv :=
  let c1 := withBatch c (Some []) "START BATCH DDL" in
  if cnt =? 0
  then withBatch c1 (Some [mkStatement alterDatabaseSql []]) alterDatabaseSql
  else c1.

(** What a program sends through [Exec] when it runs on a connection. *)
Definition sentBy {srv A} (p : Prog A) (c : Conn srv) : list string :=
  drop (length (trace c)) (trace (run p c).2).

(** The statements that accumulate in the batch of a migration: ALTER
    DATABASE when the default sequence kind is not set, then what the
    embedded migrator executes inside the batch, in its order. *)
Definition batchedStatements {srv} (m : Migrator) (values : list Value)
  (c : Conn srv) (cnt : Z) : list string :=
  (if cnt =? 0 then [alterDatabaseSql] else [])
  ++ sentBy (base_AutoMigrate m values) (batchStarted c cnt).

(** What a dry run returns, by the outcome of the embedded migrator on
    the started batch: the statements of the batch when it returns nil,
    its error and no statements otherwise. *)
Definition dryRunResult {srv} (m : Migrator) (values : list Value)
  (c : Conn srv) (cnt : Z) : Outcome (list Statement * option Err) :=
  match (run (base_AutoMigrate m values) (batchStarted c cnt)).1 with
  | Returned None =>
      Returned (map (fun sql => mkStatement sql []) (batchedStatements m values c cnt),
                None)
  | Returned (Some err) => Returned ([], Some err)
  | Panicked msg => Panicked msg
  end.

(** The rows of the catalog that belong to one table. *)
Definition tableColumns (cat : Catalog) (schema table : string) : list ColumnInfo :=
  List.filter (ofTable schema table) (cat_columns cat).

Definition tableConstraints (cat : Catalog) (schema table : string)
  : list TableConstraint :=
  List.filter (fun tc => String.eqb (tc_table_schema tc) schema
                         && String.eqb (tc_table_name tc) table)
              (cat_table_constraints cat).

Definition tableConstraintColumns (cat : Catalog) (schema table : string)
  : list ConstraintColumnUsage :=
  List.filter (fun ccu => String.eqb (ccu_table_schema ccu) schema
                          && String.eqb (ccu_table_name ccu) table)
              (cat_constraint_column_usage cat).

Definition tableDescriptions (cat : Catalog) (schema table : string)
  : list PgDescription :=
  List.filter (fun pd => String.eqb (pd_nspname pd) schema
                         && String.eqb (pd_relname pd) table)
              (cat_pg_description cat).

(** Two live schemas with the same catalog rows for a table: its
    columns, its constraints, the constraint column rows that name the
    table (those of its own keys and those of foreign keys of other
    tables that reference it), its descriptions, and the types. *)
Definition same_table (schema table : string) (cat1 cat2 : Catalog) : Prop :=
  tableColumns cat1 schema table = tableColumns cat2 schema table /\
  tableConstraints cat1 schema table = tableConstraints cat2 schema table /\
  tableConstraintColumns cat1 schema table
    = tableConstraintColumns cat2 schema table /\
  tableDescriptions cat1 schema table = tableDescriptions cat2 schema table /\
  cat_pg_type cat1 = cat_pg_type cat2.

(** A key or unique constraint lives in the schema of its table. *)
Definition constraints_in_table_schema (cat : Catalog) : Prop :=
  (forall tc, In tc (cat_table_constraints cat) ->
              tc_constraint_schema tc = tc_table_schema tc) /\
  (forall ccu, In ccu (cat_constraint_column_usage cat) ->
               ccu_constraint_schema ccu = ccu_table_schema ccu).

(** What [ColumnTypes] says about keys: per column its name and the
    primary key and unique flags. *)
Definition keyFacts (columnTypes : list ColumnType)
  : list (string * NullBool * NullBool) :=
  map (fun ct => (ColumnType_Name ct, PrimaryKeyValue ct, UniqueValue ct))
      columnTypes.

(** The primary key columns of the statement's schema; none when there is
    no statement, no schema or no list. *)
Definition primaryKeyColumns (db : GormDB) : list string :=
  match Statement_ db with
  | Some stmt =>
      match stmt_Schema stmt with
      | Some sch => default [] (PrimaryFieldDBNames sch)
      | None => []
      end
  | None => []
  end.

(** What [BeforeUpdate] hands to [Omit]: the statement's omit list
    followed by the primary key columns. *)
Definition omitArguments (db : GormDB) : list string :=
  match Statement_ db with
  | Some stmt => Omits stmt ++ primaryKeyColumns db
  | None => []
  end.

(** The case in which gorm's [Omit] splits what it is given: a single
    name with a comma in it. *)
Definition omitSplits (columns : list string) : bool :=
  match columns with
  | [column] => containsChar ","%char column
  | _ => false
  end.

(** The error of a query as its caller sees it: the error of the call,
    or else the one that reading its rows ended with. *)
Definition queryErr {R} (r : Err + RowSet R) : option Err :=
  match r with
  | inl e => Some e
  | inr rs => rowsErr rs
  end.

Fixpoint firstErr (errs : list (option Err)) : option Err :=
  match errs with
  | [] => None
  | Some e :: _ => Some e
  | None :: rest => firstErr rest
  end.

(** The first error among the five queries of [ColumnTypes], in the
    order in which it sends them. *)
Definition columnTypesQueryErr (srv : Server) (db : DB srv)
  (schema : SchemaRef) (table : string) : option Err :=
  firstErr [ queryErr (answer srv db (QColumns schema table));
             queryErr (answer srv db (QRawColumnTypes schema table));
             queryErr (answer srv db (QUniqueConstraintNames schema table));
             queryErr (answer srv db (QKeyConstraintColumns schema table));
             queryErr (answer srv db (QSpannerTypes schema table)) ].

(** The DROP TABLE statements of [DropTable]. *)
Definition isDropTable (sql : string) : bool := HasPrefix sql "DROP TABLE IF EXISTS ".

Definition not_drop_table (sql : string) : Prop := isDropTable sql = false.



(** ** More of the dialect *)

(** A program that only queries the catalog. *)
Fixpoint query_only {A} (p : Prog A) : Prop :=
  match p with
  | Ret _ => True
  | Panic _ => True
  | Vis e k =>
      match e in Event X return (X -> Prog A) -> Prop with
      | EQuery q => fun k => forall r, query_only (k r)
      | EExec _ => fun _ => False
      | EConnRaw => fun _ => False
      end k
  end.

(** [HasConstraint]; [GuessConstraintInterfaceAndTable] is gorm's and is
    passed in: it gives the name of the constraint it finds, if any, and
    the table. *)
Definition HasConstraint (m : Migrator)
  (guess : Stmt -> string -> option string * string)
  (value : Value) (name : string) : Prog bool :=
  r ← RunWithValue value (fun stmt =>
         let '(constraint, table) := guess stmt name in
         let name := default name constraint in
         let '(currentSchema, curTable) := CurrentSchema m stmt table in
         query (QConstraintCount currentSchema curTable name));
  match r with
  | inl _ => Ret false
  | inr count => Ret (0 <? count)
  end.

(** A statement that is not one of the three batch control statements. *)
Definition is_ddl (sql : string) : Prop := classify sql = KDdl.

(** The name that the loops of [ColumnTypes] compare:
    [mc.NameValue.String]. *)
Definition NameValue_String (ct : ColumnType) : string :=
  NullString_String (NameValue ct).

(** How often a constraint name occurs in the rows of the first
    constraint query. *)
Definition rowsNamed (name : string) (names : list string) : nat :=
  length (List.filter (String.eqb name) names).

(** What the passes of [ColumnTypes] after the column query leave alone
    or set: the name and the two key flags of a column. *)
Definition keyFact (ct : ColumnType) : NullString * NullBool * NullBool :=
  (NameValue ct, PrimaryKeyValue ct, UniqueValue ct).

(** A table that was created without a primary key of its own: the key
    that [CreateTable] added, and one column of the model. *)
Definition catalogNotes : Catalog :=
  mkCatalog
    [mkTableInfo "public" "notes" "BASE TABLE"]
    [ mkColumnInfo "public" "notes" generatedId 2 "NO" "int8" None (Some 64)
                   (Some 2) (Some 0) None None None None "bigint";
      exampleColumn "notes" "body" 1 "varchar" "character varying" ]
    [primaryKeyOf "notes"]
    [mkConstraintColumnUsage "public" "notes" generatedId "" "public" "PK_notes"]
    [] []
    examplePgTypes [] [mkDatabaseOption "public" "default_sequence_kind"].

(** The model of the table [notes]: it declares no primary key. *)
Definition notesModel : Schema :=
  exampleSchema "notes" [exampleField "Body" "body" "varchar"].

(** The fields of a column that [ColumnTypes] scans from the column
    query. *)
Definition scanned (ct : ColumnType)
  : NullString * NullBool * NullInt64 * NullInt64 * NullInt64 * NullString
    * NullString * NullBool :=
  (NameValue ct, NullableValue ct, LengthValue ct, DecimalSizeValue ct,
   ScaleValue ct, DefaultValueValue ct, CommentValue ct, AutoIncrementValue ct).

(** *** Clause builders *)

(** [clause.Limit]: [Limit] is a pointer that can be nil. *)
Record LimitClause := mkLimitClause {
  Limit : option Z;
  Offset : Z
}.

(** [math.MaxInt] and the subtraction on [int], for an [int] of 64 bits. *)
Definition MaxInt : Z := 9223372036854775807.
Definition MinInt : Z := -9223372036854775808.

Definition subInt (a b : Z) : Z := (a - b - MinInt) mod 2 ^ 64 + MinInt.

(** [clause.OnConflict], as far as the builder reads and writes it; a
    column is its name. *)
Record OnConflict := mkOnConflict {
  Columns : list string;
  DoNothing : bool
}.

(** The expression of the clause that a builder is called with. *)
Inductive Expression :=
| ExprOnConflict (onConflict : OnConflict)
| ExprLimit (limit : LimitClause)
| ExprOther.

(** The builder registered for LIMIT; the result is the expression of the
    clause that it passes on to [c.Build]. *)
Definition ClauseLimit (expression : Expression) : Expression :=
  match expression with
  | ExprLimit limit =>
      if (0 <? Offset limit) && bool_decide (Limit limit = None) then
        let l := subInt MaxInt (Offset limit) in
        ExprLimit (mkLimitClause (Some l) (Offset limit))
      else expression
  | _ => expression
  end.

(** The builder registered for ON CONFLICT; [s] is the schema of the
    statement that builds the clause. *)
Definition ClauseOnConflict (s : option Schema) (expression : Expression)
  : Expression :=
  match expression with
  | ExprOnConflict onConflict =>
      if DoNothing onConflict && (length (Columns onConflict) =? 0)%nat then
        match s with
        | Some s =>
            let added :=
              if (length (PrimaryFields s) =? 0)%nat then
                map DBName
                  (List.filter (fun field => String.eqb (DataType field) "serial primary key")
                               (Fields s))
              else map DBName (PrimaryFields s) in
            ExprOnConflict
              (mkOnConflict (Columns onConflict ++ added) (DoNothing onConflict))
        | None => expression
        end
      else expression
  | _ => expression
  end.

(** *** [CreateTable] *)

Definition toUpper (c : ascii) : ascii :=
  let n := nat_of_ascii c in
  if (Nat.leb 97 n && Nat.leb n 122)%bool then ascii_of_nat (n - 32) else c.

(** [strings.ToUpper] on ASCII text. *)
Fixpoint ToUpper (s : string) : string :=
  match s with
  | EmptyString => EmptyString
  | String c r => String (toUpper c) (ToUpper r)
  end.

(** The slice and the two maps of [schema.Schema] that [CreateTable]
    reads and writes besides [Fields] and [PrimaryFields]. *)
Record SchemaIndex := mkSchemaIndex {
  DBNames : list string;
  FieldsByDBName : gmap string Field;
  FieldsByName : gmap string Field
}.

(** The field that [CreateTable] adds: every member that the literal does
    not set has its zero value. *)
Definition generatedPrimaryKey : Field :=
  mkField "spanner_gorm_generated_id" "spanner_gorm_generated_id"
          "serial primary key" false false false false false "" None false.

(** The loop over [DBNames]; [None] is the nil pointer dereference of a
    name without an entry in [FieldsByDBName]. *)
Fixpoint hasPrimaryKeyInDataType (m : Migrator) (byDBName : gmap string Field)
  (dbNames : list string) (has : bool) : option bool :=
  match dbNames with
  | [] => Some has
  | dbName :: rest =>
      match byDBName !! dbName with
      | None => None
      | Some field =>
          hasPrimaryKeyInDataType m byDBName rest
            (if negb (IgnoreMigration field) then
               has || Contains (ToUpper (base_DataTypeOf m field)) "PRIMARY KEY"
             else has)
      end
  end.

(** The closure that [CreateTable] runs for each model that has a schema
    when [autoAddPrimaryKey] is set, before it calls [CreateTable] of the
    embedded migrator: the schema is changed in place, and the closure
    itself returns nil.  [LookUpField] reads the two maps. *)
Definition addGeneratedPrimaryKey (m : Migrator) (s : Schema) (index : SchemaIndex)
  : Outcome (Schema * SchemaIndex) :=
  match hasPrimaryKeyInDataType m (FieldsByDBName index) (DBNames index) false with
  | None => Panicked "invalid memory address or nil pointer dereference"
  | Some has =>
      if negb has && (length (PrimaryFields s) =? 0)%nat then
        let pk := generatedPrimaryKey in
        Returned
          (mkSchema (Table s) (Fields s ++ [pk]) (PrimaryFields s)
                    (PrimaryFieldDBNames s)
                    (fun name => if String.eqb name (DBName pk) then Some pk
                                 else LookUpField s name),
           mkSchemaIndex (DBNames index ++ [DBName pk])
                         (<[DBName pk := pk]> (FieldsByDBName index))
                         (<[Name pk := pk]> (FieldsByName index)))
      else Returned (s, index)
  end.

(** A model without a primary key, with the slice and maps that gorm
    builds for it. *)
Definition notesIndex : SchemaIndex :=
  mkSchemaIndex ["body"]
    {[ "body" := exampleField "Body" "body" "varchar" ]}
    {[ "Body" := exampleField "Body" "body" "varchar" ]}.

(** *** [GetIndexes] *)

(** [migrator.Index], as far as [GetIndexes] fills it. *)
Record Index := mkIndex {
  idx_TableName : string;
  idx_NameValue : string;
  idx_ColumnList : list string;
  idx_PrimaryKeyValue : NullBool;
  idx_UniqueValue : NullBool
}.

Definition groupByIndexName (indexList : list IndexRow)
  : gmap string (list IndexRow) :=
  foldl (fun (columnIndexMap : gmap string (list IndexRow)) idx =>
           <[ir_IndexName idx :=
               default [] (columnIndexMap !! ir_IndexName idx) ++ [idx]]>
             columnIndexMap)
        ∅ indexList.

(** The body of the loop over the groups; [idx[0]] of an empty group is
    out of range. *)
Definition indexOfGroup (idx : list IndexRow) : option Index :=
  match idx with
  | first :: _ =>
      Some (mkIndex (ir_TableName first) (ir_IndexName first)
                    (map ir_ColumnName idx)
                    (mkNullBool (ir_Primary first) true)
                    (mkNullBool (ir_NonUnique first) true))
  | [] => None
  end.

Fixpoint indexesOfGroups (groups : list (list IndexRow)) : Prog (list Index) :=
  match groups with
  | [] => Ret []
  | idx :: rest =>
      match indexOfGroup idx with
      | Some tempIdx => indexes ← indexesOfGroups rest; Ret (tempIdx :: indexes)
      | None => Panic "index out of range [0] with length 0"
      end
  end.

(** [GetIndexes].  Go ranges over the map of groups in an order that it
    does not specify; here the groups come in the order of
    [map_to_list]. *)
Definition GetIndexes (m : Migrator) (value : Value)
  : Prog (list Index * option Err) :=
  match ParseValue value with
  | inl err => Ret ([], Some err)
  | inr stmt =>
      result ← query (QIndexColumns (stmt_Table stmt));
      match result with
      | inl scanErr => Ret ([], Some scanErr)
      | inr result =>
          match rowsErr result with
          | Some scanErr => Ret ([], Some scanErr)
          | None =>
              let indexMap := groupByIndexName (rows result) in
              indexes ← indexesOfGroups (map snd (map_to_list indexMap));
              Ret (indexes, None)
          end
      end
  end.

(** The rows of one index among the rows of the query, in query order. *)
Definition rowsOfIndex (name : string) (result : list IndexRow) : list IndexRow :=
  List.filter (fun r => String.eqb (ir_IndexName r) name) result.

(** A server that holds the rows of [indexSql] for every table and
    nothing else. *)
Definition indexServer : Server :=
  mkServer (list IndexRow)
    (fun R indexRows q =>
       match q in Query R return Err + R with
       | QIndexColumns table =>
           inr (okRows (List.filter (fun r => String.eqb (ir_TableName r) table)
                                    indexRows))
       | _ => inl errNotInCatalog
       end)
    (fun indexRows _ => (indexRows, Some errReadOnlyCatalog)).

(** The primary key of [albums] and an index over two of its columns,
    next to an index of another table. *)
Definition exampleIndexRows : list IndexRow :=
  [ mkIndexRow "albums" "PRIMARY_KEY" true true "id";
    mkIndexRow "albums" "idx_albums_singer_title" false false "singer_id";
    mkIndexRow "albums" "idx_albums_singer_title" false false "title";
    mkIndexRow "singers" "idx_singers_last_name" false false "last_name" ].

(** [classify], as a test for DDL. *)
Definition isDdl (sql : string) : bool :=
  match classify sql with
  | KDdl => true
  | _ => false
  end.

(** The name and the two type fields of a column. *)
Definition typeFact (ct : ColumnType) : NullString * NullString * NullString :=
  (NameValue ct, DataTypeValue ct, ColumnTypeValue ct).

(** * Properties *)

(** ** Running programs *)

Lemma run_bind {srv A B} (p : Prog A) (f : A -> Prog B) (c : Conn srv) :
  run (bind p f) c =
  match run p c with
  | (Returned a, c1) => run (f a) c1
  | (Panicked msg, c1) => (Panicked msg, c1)
  end.
Proof.
  revert c. induction p as [a|msg|X e k IH]; intros c; simpl; try reflexivity.
  destruct e; simpl.
  - apply IH.
  - destruct (execOn c sql) as [r c']. apply IH.
  - apply IH.
Qed.

Lemma run_mbind {srv A B} (p : Prog A) (f : A -> Prog B) (c : Conn srv) :
  run (p ≫= f) c =
  match run p c with
  | (Returned a, c1) => run (f a) c1
  | (Panicked msg, c1) => (Panicked msg, c1)
  end.
Proof. apply run_bind. Qed.

Lemma run_deferred {srv A B} (body : Prog A) (cleanup : Prog B) (c : Conn srv) :
  run (deferred body cleanup) c =
  let '(o, c1) := run body c in
  match run cleanup c1 with
  | (Returned _, c2) => (o, c2)
  | (Panicked msg, c2) => (Panicked msg, c2)
  end.
Proof.
  revert c. induction body as [a|msg|X e k IH]; intros c; simpl.
  - rewrite run_bind. destruct (run cleanup c) as [[b|msg] c2]; reflexivity.
  - rewrite run_bind. destruct (run cleanup c) as [[b|msg'] c2]; reflexivity.
  - destruct e; simpl.
    + apply IH.
    + destruct (execOn c sql) as [r c']. apply IH.
    + apply IH.
Qed.

Lemma run_exec {srv} (sql : string) (c : Conn srv) :
  run (exec sql) c = (Returned (execOn c sql).1, (execOn c sql).2).
Proof. unfold exec. simpl. destruct (execOn c sql); reflexivity. Qed.

Lemma run_query {srv R} (q : Query R) (c : Conn srv) :
  run (query q) c = (Returned (answer srv (live c) q), c).
Proof. reflexivity. Qed.

(** ** The DDL batch of [autoMigrate] *)

Lemma same_but_trace_refl {srv} (c : Conn srv) : same_but_trace c c.
Proof. repeat split. Qed.

Lemma same_but_trace_trans {srv} (a b c : Conn srv) :
  same_but_trace a b -> same_but_trace b c -> same_but_trace a c.
Proof.
  unfold same_but_trace. intros (?&?&?&?&?) (?&?&?&?&?).
  repeat split; congruence.
Qed.

Lemma same_but_trace_sym {srv} (a b : Conn srv) :
  same_but_trace a b -> same_but_trace b a.
Proof. unfold same_but_trace. intros (?&?&?&?&?). repeat split; congruence. Qed.

Lemma execOn_same_but_trace {srv} (c c' : Conn srv) sql :
  same_but_trace c c' ->
  (execOn c sql).1 = (execOn c' sql).1 /\
  same_but_trace (execOn c sql).2 (execOn c' sql).2.
Proof.
  intros (Hl & Hb & Hp & Hr & Hd). unfold execOn.
  destruct (classify sql); rewrite <- ?Hb; destruct (batch c) as [[|s b]|];
    simpl; rewrite <- ?Hl;
    try destruct (updateDatabaseDdl srv (live c) _) as [d e];
    simpl; unfold same_but_trace; simpl; repeat split; auto.
Qed.

Lemma rawOn_same_but_trace {srv} (c c' : Conn srv) :
  same_but_trace c c' -> rawOn c = rawOn c'.
Proof.
  intros (Hl & Hb & Hp & Hr & Hd). unfold rawOn.
  rewrite Hp, Hr, Hd, Hb. reflexivity.
Qed.

(** What a program returns does not depend on the record of what was sent
    before. *)
Lemma run_same_but_trace {srv A} (p : Prog A) (c c' : Conn srv) :
  same_but_trace c c' ->
  (run p c).1 = (run p c').1 /\ same_but_trace (run p c).2 (run p c').2.
Proof.
  revert c c'. induction p as [a|msg|X e k IH]; intros c c' Hs; simpl; auto.
  destruct e; simpl.
  - destruct Hs as (Hl & Hs). rewrite <- Hl. apply IH. split; assumption.
  - destruct (execOn_same_but_trace c c' sql Hs) as [Hr Hc].
    destruct (execOn c sql) as [r c1], (execOn c' sql) as [r' c1'].
    simpl in *. subst r'. apply IH, Hc.
  - rewrite <- (rawOn_same_but_trace c c' Hs). apply IH, Hs.
Qed.

Lemma sent_only_refl {srv} P (c : Conn srv) : sent_only P c c.
Proof. exists []. split; [symmetry; apply app_nil_r | constructor]. Qed.

Lemma sent_only_trans {srv} P (a b c : Conn srv) :
  sent_only P a b -> sent_only P b c -> sent_only P a c.
Proof.
  intros (d1 & H1 & F1) (d2 & H2 & F2). exists (d1 ++ d2). split.
  - rewrite H2, H1. symmetry. apply app_assoc.
  - apply Forall_app. split; assumption.
Qed.

Lemma sent_only_one {srv} (P : string -> Prop) (c c' : Conn srv) sql :
  P sql -> trace c' = trace c ++ [sql] -> sent_only P c c'.
Proof. intros HP Ht. exists [sql]. split; [assumption | repeat constructor; assumption]. Qed.

Lemma execOn_trace {srv} (c : Conn srv) sql :
  trace (execOn c sql).2 = trace c ++ [sql].
Proof.
  unfold execOn.
  destruct (classify sql); destruct (batch c) as [[|s b]|]; simpl;
    try destruct (updateDatabaseDdl srv (live c) _) as [d e]; reflexivity.
Qed.

(** While a batch is open, a program that only queries and executes DDL
    leaves the live database alone and the batch open. *)
Lemma run_ddl_only_batched {srv A} (p : Prog A) :
  ddl_only p ->
  forall (c : Conn srv) b, batch c = Some b ->
  live (run p c).2 = live c /\
  (exists b', batch (run p c).2 = Some b') /\
  poolIsSqlConn (run p c).2 = poolIsSqlConn c /\
  connRawErr (run p c).2 = connRawErr c /\
  driverIsSpanner (run p c).2 = driverIsSpanner c /\
  sent_only not_run_batch c (run p c).2.
Proof.
  induction p as [a|msg|X e k IH]; intros Hd c b Hb; simpl.
  - repeat split; eauto using sent_only_refl.
  - repeat split; eauto using sent_only_refl.
  - destruct e; simpl in *.
    + apply (IH _ (Hd _) c b Hb).
    + destruct Hd as [Hk Hd].
      unfold execOn. rewrite Hk, Hb. simpl.
      edestruct (IH None (Hd _)
                   (withBatch c (Some (b ++ [mkStatement sql []])) sql))
        as (H1 & H2 & H3 & H4 & H5 & H6); [reflexivity|].
      repeat split; try assumption.
      eapply sent_only_trans; [|exact H6].
      eapply sent_only_one; [|reflexivity].
      unfold not_run_batch. rewrite Hk. discriminate.
    + destruct Hd.
Qed.

(** Reduction that keeps the programs folded. *)
Ltac red_run := cbn [orb andb negb fst snd].
Ltac run_step :=
  first [rewrite run_mbind | rewrite run_bind | rewrite run_deferred
        | rewrite run_query | rewrite run_exec]; red_run.

Lemma run_Ret {srv A} (a : A) (c : Conn srv) : run (Ret a) c = (Returned a, c).
Proof. reflexivity. Qed.

(** A dry run leaves the connection as it found it, apart from the record
    of what was sent, and never sends RUN BATCH. *)
Lemma autoMigrate_dry_restores {srv} (m : Migrator) values (c : Conn srv) :
  ddl_only (base_AutoMigrate m values) ->
  same_but_trace c (run (autoMigrate m true values) c).2 /\
  sent_only not_run_batch c (run (autoMigrate m true values) c).2.
Proof.
  intros Hd. unfold autoMigrate. run_step. run_step.
  destruct (answer srv (live c) QDefaultSequenceKind) as [err|cnt]; red_run.
  { rewrite run_Ret. split; [apply same_but_trace_refl | apply sent_only_refl]. }
  run_step. unfold StartBatchDDL. run_step.
  unfold execOn. change (classify "START BATCH DDL") with KStartBatchDDL.
  destruct (batch c) as [b|] eqn:Hb; red_run.
  { rewrite run_Ret. split.
    - unfold same_but_trace; simpl. rewrite Hb. repeat split.
    - eapply sent_only_one; [|reflexivity]. discriminate. }
  run_step.
  set (c1 := withBatch c (Some []) "START BATCH DDL").
  assert (Hc1 : sent_only not_run_batch c c1).
  { eapply sent_only_one; [|reflexivity]. discriminate. }
  (* the body, run inside the batch *)
  assert (Hbody :
    let c2 := (run (autoMigrateBody m true (disableAutoMigrateBatching m) cnt values) c1).2 in
    live c2 = live c /\ poolIsSqlConn c2 = poolIsSqlConn c /\
    connRawErr c2 = connRawErr c /\ driverIsSpanner c2 = driverIsSpanner c /\
    sent_only not_run_batch c1 c2).
  { unfold autoMigrateBody. run_step.
    assert (Hfirst : exists c2 b2,
      run (if cnt =? 0 then exec alterDatabaseSql else Ret None) c1
        = (Returned None, c2) /\ batch c2 = Some b2 /\ live c2 = live c /\
      poolIsSqlConn c2 = poolIsSqlConn c /\ connRawErr c2 = connRawErr c /\
      driverIsSpanner c2 = driverIsSpanner c /\ sent_only not_run_batch c1 c2).
    { destruct (cnt =? 0).
      - rewrite run_exec. unfold execOn.
        change (classify alterDatabaseSql) with KDdl. simpl.
        eexists _, _. repeat split.
        eapply sent_only_one; [|reflexivity]. discriminate.
      - simpl. eexists c1, _. repeat split. apply sent_only_refl. }
    destruct Hfirst as (c2 & b2 & -> & Hb2 & Hl2 & Hp2 & Hr2 & Hd2 & Hs2).
    run_step.
    destruct (run_ddl_only_batched _ Hd c2 b2 Hb2)
      as (Hl3 & (b3 & Hb3) & Hp3 & Hr3 & Hd3 & Hs3).
    destruct (run (base_AutoMigrate m values) c2) as [[[err|]|msg] c3];
      red_run; cbn [fst snd] in *.
    - rewrite run_Ret. red_run.
      repeat split; try congruence. eapply sent_only_trans; eassumption.
    - run_step. unfold connRaw. cbn [run].
      destruct (rawOn c3); red_run; rewrite ?run_Ret; red_run;
        try (repeat split; try congruence; eapply sent_only_trans; eassumption).
      run_step. unfold AbortBatch. run_step. rewrite run_Ret. simpl.
      repeat split; try congruence.
      eapply sent_only_trans; [eassumption|].
      eapply sent_only_trans; [eassumption|].
      eapply sent_only_one; [|reflexivity]. discriminate.
    - repeat split; try congruence. eapply sent_only_trans; eassumption. }
  cbv zeta in Hbody.
  destruct (run (autoMigrateBody m true (disableAutoMigrateBatching m) cnt values) c1)
    as [o c2]; cbn [fst snd] in Hbody.
  destruct Hbody as (Hl2 & Hp2 & Hr2 & Hd2 & Hs2).
  unfold AbortBatch. run_step. cbn [execOn].
  assert (Hab : execOn c2 "ABORT BATCH" = (None, withBatch c2 None "ABORT BATCH"))
    by reflexivity.
  rewrite Hab. red_run.
  split.
  - unfold same_but_trace; simpl. rewrite Hb. repeat split; congruence.
  - eapply sent_only_trans; [exact Hc1|].
    eapply sent_only_trans; [exact Hs2|].
    eapply sent_only_one; [|reflexivity]. discriminate.
Qed.

Lemma run_trace_extends {srv A} (p : Prog A) (c : Conn srv) :
  exists delta, trace (run p c).2 = trace c ++ delta.
Proof.
  revert c. induction p as [a|msg|X e k IH]; intros c; simpl.
  - exists []. symmetry. apply app_nil_r.
  - exists []. symmetry. apply app_nil_r.
  - destruct e; simpl.
    + apply IH.
    + pose proof (execOn_trace c sql) as Ht.
      destruct (execOn c sql) as [r c1]. simpl in Ht.
      destruct (IH r c1) as [d Hd]. exists (sql :: d).
      rewrite Hd, Ht, <- app_assoc. reflexivity.
    + apply IH.
Qed.

(** While a batch is open, a program that only queries and executes DDL
    adds what it sends to the batch, in order, and to nothing else. *)
Lemma run_ddl_only_batch_content {srv A} (p : Prog A) :
  ddl_only p ->
  forall (c : Conn srv) b, batch c = Some b ->
  exists delta,
    trace (run p c).2 = trace c ++ delta /\
    List.filter isDdl delta = delta /\
    batch (run p c).2 = Some (b ++ map (fun sql => mkStatement sql []) delta) /\
    live (run p c).2 = live c.
Proof.
  induction p as [a|msg|X e k IH]; intros Hd c b Hb; cbn [run].
  - exists []. cbn. rewrite !app_nil_r. auto.
  - exists []. cbn. rewrite !app_nil_r. auto.
  - destruct e; cbn [ddl_only] in Hd.
    + apply (IH _ (Hd _) c b Hb).
    + destruct Hd as [Hk Hd].
      unfold execOn. rewrite Hk, Hb.
      destruct (IH None (Hd _)
                  (withBatch c (Some (b ++ [mkStatement sql []])) sql)
                  (b ++ [mkStatement sql []]) eq_refl)
        as (delta & Ht & Hf & Hbatch & Hl).
      exists (sql :: delta). cbn [fst snd]. split; [|split; [|split]].
      * rewrite Ht. cbn [withBatch trace]. rewrite <- app_assoc. reflexivity.
      * cbn [List.filter]. unfold isDdl at 1. rewrite Hk, Hf. reflexivity.
      * rewrite Hbatch. cbn [map]. rewrite <- app_assoc. reflexivity.
      * rewrite Hl. reflexivity.
    + destruct Hd.
Qed.

Lemma map_SQL_mkStatement (l : list string) :
  map SQL (map (fun sql => mkStatement sql []) l) = l.
Proof. rewrite map_map. cbn. apply map_id. Qed.

Lemma batchStarted_fields {srv} (c : Conn srv) (cnt : Z) :
  live (batchStarted c cnt) = live c /\
  batch (batchStarted c cnt)
  = Some (map (fun sql => mkStatement sql [])
              (if cnt =? 0 then [alterDatabaseSql] else [])) /\
  poolIsSqlConn (batchStarted c cnt) = poolIsSqlConn c /\
  connRawErr (batchStarted c cnt) = connRawErr c /\
  driverIsSpanner (batchStarted c cnt) = driverIsSpanner c.
Proof. unfold batchStarted. destruct (cnt =? 0); repeat split. Qed.

Lemma run_first_statement {srv} (c : Conn srv) (cnt : Z) :
  run (if cnt =? 0 then exec alterDatabaseSql else Ret None)
      (withBatch c (Some []) "START BATCH DDL")
  = (Returned None, batchStarted c cnt).
Proof.
  unfold batchStarted. destruct (cnt =? 0); [|reflexivity].
  rewrite run_exec. unfold execOn.
  change (classify alterDatabaseSql) with KDdl. reflexivity.
Qed.

(** A dry run on a connection without a batch, whose pool is a
    [sql.Conn] of the Spanner driver: what it returns is decided by the
    embedded migrator's run on the started batch. *)
Lemma autoMigrate_dry_run_result {srv} (m : Migrator) (values : list Value)
  (c : Conn srv) (cnt : Z) :
  ddl_only (base_AutoMigrate m values) ->
  answer srv (live c) QDefaultSequenceKind = inr cnt ->
  batch c = None ->
  poolIsSqlConn c = true -> connRawErr c = None -> driverIsSpanner c = true ->
  (run (autoMigrate m true values) c).1 = dryRunResult m values c cnt.
Proof.
  intros Hd Hq Hb Hpool Hraw Hdrv. unfold autoMigrate.
  run_step. run_step. rewrite Hq. red_run.
  run_step. unfold StartBatchDDL. run_step.
  unfold execOn. change (classify "START BATCH DDL") with KStartBatchDDL.
  rewrite Hb. red_run. run_step.
  unfold autoMigrateBody. run_step. rewrite run_first_statement. run_step.
  unfold dryRunResult, batchedStatements, sentBy.
  destruct (batchStarted_fields c cnt) as (Hl2 & Hb2 & Hp2 & Hr2 & Hd2).
  destruct (run_ddl_only_batch_content _ Hd (batchStarted c cnt) _ Hb2)
    as (delta & Ht3 & Hf3 & Hb3 & Hl3).
  destruct (run_ddl_only_batched _ Hd (batchStarted c cnt) _ Hb2)
    as (_ & _ & Hp3 & Hr3 & Hd3 & _).
  rewrite Ht3, drop_app_length.
  destruct (run (base_AutoMigrate m values) (batchStarted c cnt))
    as [[[err|]|msg] c3]; cbn [fst snd] in *.
  - rewrite run_Ret. unfold AbortBatch. run_step. reflexivity.
  - run_step. unfold connRaw. cbn [run]. unfold rawOn.
    rewrite Hp3, Hp2, Hpool, Hr3, Hr2, Hraw, Hd3, Hd2, Hdrv, Hb3.
    cbn [negb default]. run_step. unfold AbortBatch. run_step.
    rewrite run_Ret. run_step. cbn [fst]. rewrite map_app. reflexivity.
  - unfold AbortBatch. run_step. reflexivity.
Qed.

Lemma autoMigrate_dry_same_program (m1 m2 : Migrator) (values : list Value) :
  base_AutoMigrate m1 values = base_AutoMigrate m2 values ->
  autoMigrate m1 true values = autoMigrate m2 true values.
Proof.
  intros H. unfold autoMigrate, autoMigrateBody. cbn [orb negb andb].
  rewrite H. reflexivity.
Qed.

(** C4, as the code has it. Two dry runs in a row do not change the live
    schema and never send RUN BATCH: the batch is read and aborted, never
    committed.  On a connection without a batch, whose pool is a
    [sql.Conn] of the Spanner driver, each of them returns the
    statements that accumulated in its batch: ALTER DATABASE when the
    sequence kind is not set, then what the embedded migrator executed
    in that call, in its order (or the embedded migrator's error and no
    statements).  The two lists are the same when the embedded migrator
    runs the same program in both calls. *)
Theorem AutoMigrateDryRun_lists_its_batch {srv} (m1 m2 : Migrator)
  (values : list Value) (c0 : Conn srv) :
  ddl_only (base_AutoMigrate m1 values) ->
  ddl_only (base_AutoMigrate m2 values) ->
  let r1 := run (AutoMigrateDryRun m1 values) c0 in
  let r2 := run (AutoMigrateDryRun m2 values) r1.2 in
  live r1.2 = live c0 /\ live r2.2 = live c0 /\
  sent_only not_run_batch c0 r2.2 /\
  (base_AutoMigrate m1 values = base_AutoMigrate m2 values -> r1.1 = r2.1) /\
  (forall cnt,
      answer srv (live c0) QDefaultSequenceKind = inr cnt ->
      batch c0 = None ->
      poolIsSqlConn c0 = true -> connRawErr c0 = None -> driverIsSpanner c0 = true ->
      r1.1 = dryRunResult m1 values c0 cnt /\
      r2.1 = dryRunResult m2 values r1.2 cnt).
Proof.
  intros Hd1 Hd2 r1 r2. unfold AutoMigrateDryRun in *.
  destruct (autoMigrate_dry_restores m1 values c0 Hd1) as [Hs1 Ht1].
  fold r1 in Hs1, Ht1.
  destruct (autoMigrate_dry_restores m2 values r1.2 Hd2) as [Hs2 Ht2].
  fold r2 in Hs2, Ht2.
  split; [symmetry; apply Hs1|].
  split; [destruct Hs1 as [H1 _], Hs2 as [H2 _]; congruence|].
  split; [eapply sent_only_trans; eassumption|].
  split.
  - intros Hsame.
    destruct (run_same_but_trace (autoMigrate m1 true values) c0 r1.2 Hs1)
      as [Hres _].
    subst r2. rewrite <- (autoMigrate_dry_same_program m1 m2 values Hsame).
    exact Hres.
  - intros cnt Hq Hb Hpool Hraw Hdrv.
    split; [apply autoMigrate_dry_run_result; assumption|].
    destruct Hs1 as (Hl & Hb1 & Hp1 & Hr1 & Hdr1).
    apply autoMigrate_dry_run_result; try assumption; congruence.
Qed.

(** C5. Whenever [autoMigrate] has opened a DDL batch (the option query
    succeeded, batching is wanted, and START BATCH DDL found no batch on
    the connection), the batch is gone when the function is left, on every
    path, a panic of the embedded migrator included: ABORT BATCH is the
    last statement sent, after everything that followed START BATCH DDL. *)
Theorem autoMigrate_aborts_opened_batch {srv} (m : Migrator) (dryRun : bool)
  (values : list Value) (c : Conn srv) (cnt : Z) :
  answer srv (live c) QDefaultSequenceKind = inr cnt ->
  dryRun || negb (disableAutoMigrateBatching m) = true ->
  batch c = None ->
  let c' := (run (autoMigrate m dryRun values) c).2 in
  batch c' = None /\
  last_sent c' = Some "ABORT BATCH" /\
  exists between,
    trace c' = trace c ++ ["START BATCH DDL"] ++ between ++ ["ABORT BATCH"].
Proof.
  intros Hq Hon Hb c'. subst c'. unfold autoMigrate.
  run_step. run_step. rewrite Hq. red_run. rewrite Hon.
  run_step. unfold StartBatchDDL. run_step.
  unfold execOn. change (classify "START BATCH DDL") with KStartBatchDDL.
  rewrite Hb. red_run. run_step.
  set (c1 := withBatch c (Some []) "START BATCH DDL").
  destruct (run_trace_extends
              (autoMigrateBody m dryRun (disableAutoMigrateBatching m) cnt values) c1)
    as [between Hbetween].
  destruct (run (autoMigrateBody m dryRun (disableAutoMigrateBatching m) cnt values) c1)
    as [o c2]. cbn [fst snd] in Hbetween.
  unfold AbortBatch. run_step.
  assert (Hab : execOn c2 "ABORT BATCH" = (None, withBatch c2 None "ABORT BATCH"))
    by reflexivity.
  rewrite Hab. red_run. unfold last_sent. cbn [withBatch batch trace].
  repeat split.
  - apply last_snoc.
  - exists between. rewrite Hbetween. subst c1. cbn [withBatch trace].
    rewrite <- !app_assoc. reflexivity.
Qed.

(** ** Catalog queries are local to a table *)

Section JoinFacts.
Context {A B : Type}.

Lemma flat_map_all_nil (f : A -> list B) (l : list A) :
  (forall x, f x = []) -> flat_map f l = [].
Proof. intros H. induction l as [|x l IH]; simpl; [|rewrite H, IH]; reflexivity. Qed.

Lemma flat_map_ext_in (f g : A -> list B) (l : list A) :
  (forall x, In x l -> f x = g x) -> flat_map f l = flat_map g l.
Proof.
  induction l as [|x l IH]; intros H; simpl; [reflexivity|].
  rewrite (H x (or_introl eq_refl)), IH; [reflexivity|].
  intros y Hy. apply H. right. exact Hy.
Qed.

(** Rows on which the body of a join is empty can be filtered out
    first. *)
Lemma flat_map_restrict (p : A -> bool) (f : A -> list B) (l : list A) :
  (forall x, p x = false -> f x = []) ->
  flat_map f l = flat_map f (List.filter p l).
Proof.
  intros H. induction l as [|x l IH]; simpl; [reflexivity|].
  destruct (p x) eqn:Hp; simpl.
  - rewrite IH. reflexivity.
  - rewrite (H x Hp), IH. reflexivity.
Qed.

Lemma filter_ext_In (p q : A -> bool) (l : list A) :
  (forall x, In x l -> p x = q x) -> List.filter p l = List.filter q l.
Proof.
  induction l as [|x l IH]; intros H; simpl; [reflexivity|].
  rewrite (H x (or_introl eq_refl)), IH; [reflexivity|].
  intros y Hy. apply H. right. exact Hy.
Qed.

Lemma filter_filter_implied (p q : A -> bool) (l : list A) :
  (forall x, p x = true -> q x = true) ->
  List.filter p (List.filter q l) = List.filter p l.
Proof.
  intros H. induction l as [|x l IH]; simpl; [reflexivity|].
  destruct (q x) eqn:Hq; simpl.
  - rewrite IH. reflexivity.
  - destruct (p x) eqn:Hp; [|exact IH].
    rewrite (H x Hp) in Hq. discriminate.
Qed.
End JoinFacts.

Lemma joined_true tc ccu c schema table :
  joined tc ccu c schema table = true ->
  tc_constraint_schema tc = schema /\ tc_table_name tc = table /\
  ccu_constraint_schema ccu = schema /\ ccu_table_name ccu = table /\
  ci_table_schema c = schema /\ ci_table_name c = table.
Proof.
  unfold joined. rewrite !andb_true_iff, !String.eqb_eq.
  intros H. decompose [and] H. repeat split; congruence.
Qed.

Lemma joined_false_unless tc ccu c schema table (P : bool) :
  P = false ->
  (joined tc ccu c schema table = true -> P = true) ->
  joined tc ccu c schema table = false.
Proof.
  intros HP H. destruct (joined tc ccu c schema table); [|reflexivity].
  rewrite H in HP by reflexivity. discriminate.
Qed.

(** The constraint join reads only the rows of the table it is asked
    about. *)
Lemma selectConstraints_local {R} (cat : Catalog) (schema table : string)
  (keep : TableConstraint -> bool)
  (out : TableConstraint -> ConstraintColumnUsage -> ColumnInfo -> R) :
  constraints_in_table_schema cat ->
  selectConstraints cat schema table keep out =
  joinConstraints (tableConstraints cat schema table)
                  (tableConstraintColumns cat schema table)
                  (tableColumns cat schema table) schema table keep out.
Proof.
  intros [Htc Hccu]. unfold selectConstraints, joinConstraints.
  unfold tableConstraints, tableConstraintColumns, tableColumns.
  (* the rows of table_constraints *)
  rewrite (filter_ext_In
             (fun tc => String.eqb (tc_table_schema tc) schema
                        && String.eqb (tc_table_name tc) table)
             (fun tc => String.eqb (tc_constraint_schema tc) schema
                        && String.eqb (tc_table_name tc) table)
             (cat_table_constraints cat))
    by (intros tc Hin; rewrite (Htc tc Hin); reflexivity).
  rewrite (filter_ext_In
             (fun ccu => String.eqb (ccu_table_schema ccu) schema
                         && String.eqb (ccu_table_name ccu) table)
             (fun ccu => String.eqb (ccu_constraint_schema ccu) schema
                         && String.eqb (ccu_table_name ccu) table)
             (cat_constraint_column_usage cat))
    by (intros ccu Hin; rewrite (Hccu ccu Hin); reflexivity).
  rewrite <- (flat_map_restrict
                (fun tc => String.eqb (tc_constraint_schema tc) schema
                           && String.eqb (tc_table_name tc) table)).
  2:{ intros tc Hp. apply flat_map_all_nil. intros ccu.
      apply flat_map_all_nil. intros c.
      rewrite (joined_false_unless tc ccu c schema table _ Hp); [reflexivity|].
      intros Hj. apply joined_true in Hj. destruct Hj as (-> & -> & _).
      rewrite !String.eqb_refl. reflexivity. }
  apply flat_map_ext_in. intros tc _.
  rewrite <- (flat_map_restrict
                (fun ccu => String.eqb (ccu_constraint_schema ccu) schema
                            && String.eqb (ccu_table_name ccu) table)).
  2:{ intros ccu Hp. apply flat_map_all_nil. intros c.
      rewrite (joined_false_unless tc ccu c schema table _ Hp); [reflexivity|].
      intros Hj. apply joined_true in Hj. destruct Hj as (_ & _ & -> & -> & _).
      rewrite !String.eqb_refl. reflexivity. }
  apply flat_map_ext_in. intros ccu _.
  apply flat_map_restrict.
  intros c Hp.
  rewrite (joined_false_unless tc ccu c schema table _ Hp); [reflexivity|].
  intros Hj. apply joined_true in Hj. destruct Hj as (_ & _ & _ & _ & H1 & H2).
  unfold ofTable. rewrite H1, H2, !String.eqb_refl. reflexivity.
Qed.

Lemma leftJoin_ext {A} (p q : A -> bool) (l l' : list A) :
  List.filter p l = List.filter q l' -> leftJoin p l = leftJoin q l'.
Proof. unfold leftJoin. intros ->. reflexivity. Qed.

(** So does the column query, apart from the type names, which belong to
    no table. *)
Lemma selectColumns_local (cat : Catalog) (schema table : string) :
  selectColumns cat schema table =
  joinColumns (tableColumns cat schema table) (cat_pg_type cat)
              (tableDescriptions cat schema table) schema table.
Proof.
  unfold selectColumns, joinColumns, tableColumns, tableDescriptions.
  rewrite <- (flat_map_restrict (ofTable schema table)).
  2:{ intros c Hp. rewrite Hp. reflexivity. }
  apply flat_map_ext_in. intros c _.
  destruct (ofTable schema table c) eqn:Hc; [|reflexivity].
  cbn [andb]. destruct (negb _); [|reflexivity].
  apply flat_map_ext_in. intros pgt _. f_equal.
  apply leftJoin_ext. symmetry. apply filter_filter_implied.
  intros pd. unfold ofTable in Hc.
  apply andb_true_iff in Hc. destruct Hc as [H1 H2].
  apply String.eqb_eq in H1, H2.
  rewrite !andb_true_iff, !String.eqb_eq. intros [[_ Hr] Hn].
  split; congruence.
Qed.

Lemma selectSpannerTypes_local (cat : Catalog) (schema table : string) :
  selectSpannerTypes cat schema table =
  map (fun c => (ci_column_name c, ci_spanner_type c))
      (List.filter (fun c => ofTable schema table c
                             && negb (String.eqb (ci_column_name c) generatedId))
                   (tableColumns cat schema table)).
Proof.
  unfold selectSpannerTypes, tableColumns. f_equal. symmetry.
  apply filter_filter_implied. intros c H.
  apply andb_true_iff in H. apply H.
Qed.

(** The five queries of [ColumnTypes] have the same answers in two
    catalogs that hold the same rows for the table. *)
Lemma ColumnTypes_queries_same_table (schema table : string) (cat1 cat2 : Catalog) :
  constraints_in_table_schema cat1 ->
  constraints_in_table_schema cat2 ->
  same_table schema table cat1 cat2 ->
  catalogAnswer _ cat1 (QColumns (SchemaName schema) table)
    = catalogAnswer _ cat2 (QColumns (SchemaName schema) table) /\
  catalogAnswer _ cat1 (QRawColumnTypes (SchemaName schema) table)
    = catalogAnswer _ cat2 (QRawColumnTypes (SchemaName schema) table) /\
  catalogAnswer _ cat1 (QUniqueConstraintNames (SchemaName schema) table)
    = catalogAnswer _ cat2 (QUniqueConstraintNames (SchemaName schema) table) /\
  catalogAnswer _ cat1 (QKeyConstraintColumns (SchemaName schema) table)
    = catalogAnswer _ cat2 (QKeyConstraintColumns (SchemaName schema) table) /\
  catalogAnswer _ cat1 (QSpannerTypes (SchemaName schema) table)
    = catalogAnswer _ cat2 (QSpannerTypes (SchemaName schema) table).
Proof.
  intros W1 W2 (Hc & Htc & Hccu & Hd & Ht). cbn [catalogAnswer onSchema].
  repeat split; f_equal; f_equal.
  - rewrite !selectColumns_local, Hc, Hd, Ht. reflexivity.
  - unfold selectRawColumnTypes. fold (tableColumns cat1 schema table).
    fold (tableColumns cat2 schema table). rewrite Hc. reflexivity.
  - unfold selectUniqueConstraintNames.
    rewrite !selectConstraints_local by assumption.
    rewrite Hc, Htc, Hccu. reflexivity.
  - unfold selectKeyConstraintColumns.
    rewrite !selectConstraints_local by assumption.
    rewrite Hc, Htc, Hccu. reflexivity.
  - rewrite !selectSpannerTypes_local, Hc. reflexivity.
Qed.

(** [ColumnTypes] of a table reads only the catalog rows that name the
    table: on two live schemas that hold the same such rows (and whose
    key and unique constraints live in the schema of their table), it
    returns the same columns and the same error, and so the same primary
    key and unique flags for each column.  What the embedded migrator
    then does with these flags is gorm's and not part of this package. *)
Theorem ColumnTypes_unaffected_by_other_tables (m : Migrator) (value : Value)
  (stmt : Stmt) (schema table : string) (c1 c2 : Conn catalogServer) :
  ParseValue value = inr stmt ->
  CurrentSchema m stmt (stmt_Table stmt) = (SchemaName schema, table) ->
  constraints_in_table_schema (live c1) ->
  constraints_in_table_schema (live c2) ->
  same_table schema table (live c1) (live c2) ->
  (run (ColumnTypes m value) c1).1 = (run (ColumnTypes m value) c2).1 /\
  forall cts1 e1 cts2 e2,
    (run (ColumnTypes m value) c1).1 = Returned (cts1, e1) ->
    (run (ColumnTypes m value) c2).1 = Returned (cts2, e2) ->
    keyFacts cts1 = keyFacts cts2.
Proof.
  intros Hv Hs W1 W2 Hsame.
  assert (Heq : (run (ColumnTypes m value) c1).1 = (run (ColumnTypes m value) c2).1).
  { destruct (ColumnTypes_queries_same_table schema table _ _ W1 W2 Hsame)
      as (Q1 & Q2 & Q3 & Q4 & Q5).
    unfold ColumnTypes. rewrite Hv, Hs.
    run_step. run_step. run_step. run_step.
    cbn [answer catalogServer]. rewrite Q1.
    destruct (catalogAnswer _ (live c2) (QColumns (SchemaName schema) table))
      as [err|columns]; [reflexivity|].
    destruct (rowsErr columns); [reflexivity|].
    run_step. run_step. run_step. run_step.
    cbn [answer catalogServer]. rewrite Q2.
    destruct (catalogAnswer _ (live c2) (QRawColumnTypes (SchemaName schema) table))
      as [err|raw]; [reflexivity|].
    destruct (rowsErr raw); [reflexivity|].
    run_step. run_step. run_step. run_step.
    cbn [answer catalogServer]. rewrite Q3.
    destruct (catalogAnswer _ (live c2) (QUniqueConstraintNames (SchemaName schema) table))
      as [err|uniq]; [reflexivity|].
    destruct (rowsErr uniq); [reflexivity|].
    run_step. run_step. run_step. run_step.
    cbn [answer catalogServer]. rewrite Q4.
    destruct (catalogAnswer _ (live c2) (QKeyConstraintColumns (SchemaName schema) table))
      as [err|keys]; [reflexivity|].
    destruct (rowsErr keys); [reflexivity|].
    run_step. run_step. run_step. run_step.
    cbn [answer catalogServer]. rewrite Q5.
    destruct (catalogAnswer _ (live c2) (QSpannerTypes (SchemaName schema) table))
      as [err|types]; [reflexivity|].
    destruct (rowsErr types); reflexivity. }
  split; [exact Heq|].
  intros cts1 e1 cts2 e2 H1 H2. rewrite Heq, H2 in H1.
  injection H1 as <- _. reflexivity.
Qed.

Lemma constraints_in_table_schema_catalogAs : constraints_in_table_schema catalogAs.
Proof.
  split; simpl; intros x H; repeat (destruct H as [<-|H]; [reflexivity|]);
    destruct H.
Qed.

Lemma constraints_in_table_schema_catalogAsBs : constraints_in_table_schema catalogAsBs.
Proof.
  split; simpl; intros x H; repeat (destruct H as [<-|H]; [reflexivity|]);
    destruct H.
Qed.

Lemma ColumnTypes_unaffected_by_other_tables_witness :
  let m := exampleMigrator defaultConfig in
  let value := Model (sha256Model "as" false) in
  let c1 : Conn catalogServer := @connect catalogServer catalogAsBs in
  let c2 : Conn catalogServer := @connect catalogServer catalogAs in
  (run (ColumnTypes m value) c1).1 = (run (ColumnTypes m value) c2).1 /\
  forall cts1 e1 cts2 e2,
    (run (ColumnTypes m value) c1).1 = Returned (cts1, e1) ->
    (run (ColumnTypes m value) c2).1 = Returned (cts2, e2) ->
    keyFacts cts1 = keyFacts cts2.
Proof.
  intros m value c1 c2.
  apply (ColumnTypes_unaffected_by_other_tables m value
           (mkStmt "as" (Some (sha256Model "as" false)) []) "public" "as" c1 c2).
  - reflexivity.
  - reflexivity.
  - exact constraints_in_table_schema_catalogAsBs.
  - exact constraints_in_table_schema_catalogAs.
  - repeat split; vm_compute; reflexivity.
Defined.

(** The scenario of [TestMigrateMultipleTimesUniqueIndexSameFieldName]:
    with [bs.sha256] unique in the catalog, [as.sha256] is reported as not
    unique, [bs.sha256] as unique, and no column of [as] meets the
    condition for dropping a unique constraint. *)
Example as_not_unique_next_to_unique_bs :
  let m := exampleMigrator defaultConfig in
  let c : Conn catalogServer := @connect catalogServer catalogAsBs in
  exists ctsA ctsB,
    run (ColumnTypes m (Model (sha256Model "as" false))) c = (Returned (ctsA, None), c) /\
    run (ColumnTypes m (Model (sha256Model "bs" true))) c = (Returned (ctsB, None), c) /\
    (UniqueValue <$> findFieldColumnType "sha256" ctsA) = Some (mkNullBool false true) /\
    (UniqueValue <$> findFieldColumnType "sha256" ctsB) = Some (mkNullBool true true) /\
    forallb (fun field =>
               match findFieldColumnType (DBName field) ctsA with
               | Some ct => negb (dropsUnique field ct)
               | None => true
               end) (Fields (sha256Model "as" false)) = true.
Proof.
  intros m c. eexists _, _.
  split; [vm_compute; reflexivity|].
  split; [vm_compute; reflexivity|].
  repeat split; vm_compute; reflexivity.
Qed.

(** ** Introspection that returns a bool *)

(** C8, as the code has it. [HasTable] returns a bool and nothing else:
    [true] exactly when the value parses and the count query succeeds
    with a positive count.  A failed query is not propagated; it gives
    [false], like a missing table.  The call sends nothing.  [GetTables]
    and [ColumnTypes], whose signatures have an error, do return the
    query error verbatim: [GetTables] the error of its query, and
    [ColumnTypes] the error of the first of its five queries that fails,
    each of them nil when no query fails. *)
Theorem HasTable_true_iff_counted {srv} (m : Migrator) (value : Value)
  (c : Conn srv) :
  (exists b,
      run (HasTable m value) c = (Returned b, c) /\
      (b = true <->
       exists stmt n,
         ParseValue value = inr stmt /\
         answer srv (live c)
           (QTableCount (CurrentSchema m stmt (stmt_Table stmt)).1
                        (CurrentSchema m stmt (stmt_Table stmt)).2) = inr n /\
         0 < n)) /\
  (exists tables,
      run (GetTables m) c =
      (Returned (tables,
                 queryErr (answer srv (live c)
                             (QTableNames (CurrentSchema m (mkStmt "" None []) "").1))),
       c)) /\
  (forall stmt,
      ParseValue value = inr stmt ->
      exists columnTypes,
        run (ColumnTypes m value) c =
        (Returned (columnTypes,
                   columnTypesQueryErr srv (live c)
                     (CurrentSchema m stmt (stmt_Table stmt)).1
                     (CurrentSchema m stmt (stmt_Table stmt)).2),
         c)).
Proof.
  split; [|split].
  - unfold HasTable, RunWithValue. run_step.
    destruct (ParseValue value) as [e|stmt] eqn:Hv.
    + rewrite run_Ret. red_run. rewrite run_Ret.
      exists false. split; [reflexivity|]. split; [discriminate|].
      intros (stmt & n & H & _). discriminate.
    + destruct (CurrentSchema m stmt (stmt_Table stmt))
        as [currentSchema curTable] eqn:Hcs.
      run_step. cbn [fst snd].
      destruct (answer srv (live c) (QTableCount currentSchema curTable))
        as [e|n] eqn:Hq; rewrite run_Ret.
      * exists false. split; [reflexivity|]. split; [discriminate|].
        intros (stmt' & n & H & Hq' & _). injection H as <-.
        rewrite Hcs in Hq'. cbn [fst snd] in Hq'. rewrite Hq in Hq'. discriminate.
      * exists (0 <? n). split; [reflexivity|]. split.
        -- intros Hn. exists stmt, n. rewrite Hcs. cbn [fst snd].
           repeat split; try assumption. apply Z.ltb_lt. exact Hn.
        -- intros (stmt' & n' & H & Hq' & Hn). injection H as <-.
           rewrite Hcs in Hq'. cbn [fst snd] in Hq'. rewrite Hq in Hq'. injection Hq' as <-. apply Z.ltb_lt. exact Hn.
  - unfold GetTables.
    destruct (CurrentSchema m (mkStmt "" None []) "") as [currentSchema t].
    cbn [fst]. run_step. run_step.
    destruct (answer srv (live c) (QTableNames currentSchema)) as [e|rs];
      eexists; reflexivity.
  - intros stmt Hv. unfold ColumnTypes, columnTypesQueryErr. rewrite Hv.
    destruct (CurrentSchema m stmt (stmt_Table stmt)) as [currentSchema table].
    cbn [fst snd firstErr]. run_step. run_step.
    destruct (answer srv (live c) (QColumns currentSchema table)) as [e|columns];
      cbn [queryErr]; [eexists; reflexivity|].
    destruct (rowsErr columns) as [e|]; [eexists; reflexivity|].
    run_step. run_step.
    destruct (answer srv (live c) (QRawColumnTypes currentSchema table)) as [e|raw];
      cbn [queryErr]; [eexists; reflexivity|].
    destruct (rowsErr raw) as [e|]; [eexists; reflexivity|].
    run_step. run_step.
    destruct (answer srv (live c) (QUniqueConstraintNames currentSchema table))
      as [e|uniq]; cbn [queryErr]; [eexists; reflexivity|].
    destruct (rowsErr uniq) as [e|]; [eexists; reflexivity|].
    run_step. run_step.
    destruct (answer srv (live c) (QKeyConstraintColumns currentSchema table))
      as [e|keys]; cbn [queryErr]; [eexists; reflexivity|].
    destruct (rowsErr keys) as [e|]; [eexists; reflexivity|].
    run_step. run_step.
    destruct (answer srv (live c) (QSpannerTypes currentSchema table))
      as [e|types]; cbn [queryErr]; [eexists; reflexivity|].
    destruct (rowsErr types) as [e|]; eexists; reflexivity.
Qed.

(** C8, the claim as stated fails: on a database that cannot be reached
    the count query of [HasTable] fails, on a reachable database without
    the table it counts 0, and [HasTable] returns the same [false] in both
    cases. *)
Lemma HasTable_error_looks_like_absent :
  let m := exampleMigrator defaultConfig in
  let unreachable : Conn recordingServer := @connect recordingServer None in
  let empty : Conn recordingServer := @connect recordingServer (Some []) in
  answer recordingServer (live unreachable)
    (QTableCount (SchemaName "public") "singers") = inl errUnavailable /\
  answer recordingServer (live empty)
    (QTableCount (SchemaName "public") "singers") = inr 0 /\
  (run (HasTable m (TableName "singers")) unreachable).1 = Returned false /\
  (run (HasTable m (TableName "singers")) empty).1 = Returned false.
Proof. repeat split. Qed.

(** On a database that cannot be reached, [GetTables] and [ColumnTypes]
    return the error of their first query. *)
Example GetTables_ColumnTypes_return_query_error :
  let m := exampleMigrator defaultConfig in
  let unreachable : Conn recordingServer := @connect recordingServer None in
  run (GetTables m) unreachable = (Returned ([], Some errUnavailable), unreachable) /\
  run (ColumnTypes m (TableName "singers")) unreachable
  = (Returned ([], Some errUnavailable), unreachable).
Proof. split; reflexivity. Qed.

(** ** Generated columns *)

(** The count query of [isColumnGenerated] is positive for a column whose
    catalog row carries a generation expression. *)
Lemma generated_column_counted (cat : Catalog) (col : ColumnInfo) (e : string) :
  In col (cat_columns cat) ->
  ci_generation_expression col = Some e ->
  exists n,
    catalogAnswer _ cat
      (QGeneratedColumnCount (SchemaName (ci_table_schema col))
                             (ci_table_name col) (ci_column_name col)) = inr n /\
    0 < n.
Proof.
  intros Hin He. cbn [catalogAnswer onSchema]. eexists. split; [reflexivity|].
  unfold count.
  set (p := fun c : ColumnInfo => _).
  assert (Hp : In col (List.filter p (cat_columns cat))).
  { apply filter_In. split; [exact Hin|]. subst p. cbn beta.
    unfold ofTable. rewrite !String.eqb_refl, He. reflexivity. }
  destruct (List.filter p (cat_columns cat)); [destruct Hp|].
  cbn [length]. lia.
Qed.

(** C7, as the code has it. A column of a table in schema [public] whose
    catalog row carries a generation expression is left alone:
    [AlterColumn] returns nil and sends nothing, whatever the field
    declares, when the server answers the count query of
    [isColumnGenerated] from its catalog.  When that query fails, the
    error is discarded and [isColumnGenerated] reports the column as not
    generated. *)
Theorem AlterColumn_skips_generated_column {srv} (m : Migrator) (sch : Schema)
  (field : string) (c : Conn catalogServer) (c' : Conn srv) :
  let name := match LookUpField sch field with
              | Some f => DBName f
              | None => field
              end in
  (forall col e,
      In col (cat_columns (live c)) ->
      ci_generation_expression col = Some e ->
      ci_table_schema col = "public" ->
      ci_table_name col = Table sch ->
      ci_column_name col = name ->
      run (AlterColumn m (Model sch) field) c = (Returned None, c)) /\
  (forall err,
      answer srv (live c')
        (QGeneratedColumnCount (SchemaName "public") (Table sch) name) = inl err ->
      run (isColumnGenerated m (Model sch) field) c' = (Returned false, c')).
Proof.
  intros name. split.
  - intros col e Hin He Hs Ht Hn.
    destruct (generated_column_counted (live c) col e Hin He) as (n & Hq & Hpos).
    rewrite Hs, Ht, Hn in Hq.
    unfold AlterColumn. run_step.
    unfold isColumnGenerated, RunWithValue. cbn [ParseValue stmt_Schema stmt_Table].
    run_step. run_step. fold name.
    change (answer catalogServer (live c)
              (QGeneratedColumnCount (SchemaName "public") (Table sch) name))
      with (catalogAnswer _ (live c)
              (QGeneratedColumnCount (SchemaName "public") (Table sch) name)).
    rewrite Hq. rewrite run_Ret.
    apply Z.ltb_lt in Hpos. rewrite Hpos. reflexivity.
  - intros err Hq.
    unfold isColumnGenerated, RunWithValue. cbn [ParseValue stmt_Schema stmt_Table].
    run_step. run_step. fold name. rewrite Hq. reflexivity.
Qed.

Lemma AlterColumn_skips_generated_column_witness :
  let c : Conn catalogServer := @connect catalogServer (catalogSingers true) in
  run (AlterColumn (exampleMigrator defaultConfig) (Model singerModel) "FullName") c
  = (Returned None, c).
Proof.
  intros c.
  apply (proj1 (AlterColumn_skips_generated_column
                  (exampleMigrator defaultConfig) singerModel "FullName" c c)
           (mkColumnInfo "public" "singers" "full_name" 4 "YES" "varchar" None None
              None None None None None (Some fullNameExpression)
              "character varying")
           fullNameExpression).
  - right. right. right. left. reflexivity.
  - reflexivity.
  - reflexivity.
  - reflexivity.
  - reflexivity.
Defined.

(** C7, the claim as stated fails: [full_name] carries its generation
    expression in the catalog, the count query of [isColumnGenerated]
    fails, and [AlterColumn] goes on to alter the column: it puts a type
    change and a default change into the open batch. *)
Lemma AlterColumn_alters_generated_column :
  let m := exampleMigrator defaultConfig in
  let c : Conn generatedCountUnavailable :=
    @mkConn generatedCountUnavailable (catalogSingers true) (Some []) [] true None true in
  let r := run (AlterColumn m (Model singerModel) "FullName") c in
  In (mkColumnInfo "public" "singers" "full_name" 4 "YES" "varchar" None None
        None None None None None (Some fullNameExpression) "character varying")
     (cat_columns (live c)) /\
  answer generatedCountUnavailable (live c)
    (QGeneratedColumnCount (SchemaName "public") "singers" "full_name")
    = inl errUnavailable /\
  r.1 = Returned None /\
  map SQL (default [] (batch r.2))
  = [ Explain "ALTER TABLE ? ALTER COLUMN ? TYPE ?"
        [ArgTable "singers"; ArgColumn "full_name"; ArgExpr (DataType fullNameField)];
      Explain "ALTER TABLE ? ALTER COLUMN ? DROP DEFAULT"
        [ArgTable "singers"; ArgColumn "full_name"] ].
Proof.
  intros m c r. split; [right; right; right; left; reflexivity|].
  split; [reflexivity|]. split; vm_compute; reflexivity.
Qed.

(** The same happens without any failure for a table outside the schema
    [public]: [isColumnGenerated] asks for schema [public] whatever
    [CurrentSchema] returns, counts nothing, and the generated column of
    [music.singers] is altered by two statements. *)
Example isColumnGenerated_asks_public_only :
  let c : Conn catalogServer :=
    @mkConn catalogServer catalogMusicSingers (Some []) [] true None true in
  let r := run (AlterColumn musicMigrator (Model singerModel) "FullName") c in
  run (isColumnGenerated musicMigrator (Model singerModel) "FullName") c
    = (Returned false, c) /\
  r.1 = Returned None /\
  length (default [] (batch r.2)) = 2%nat.
Proof. intros c r. split; [|split]; vm_compute; reflexivity. Qed.

(** Without the generation expression in the catalog the same call does
    alter the column: the declared type and the default [(-)] both look
    different from the live column. *)
Example AlterColumn_alters_plain_column :
  let c : Conn catalogServer :=
    @mkConn catalogServer (catalogSingers false) (Some []) [] true None true in
  (run (AlterColumn (exampleMigrator defaultConfig) (Model singerModel) "FullName") c).1
    = Returned None /\
  map SQL (default [] (batch (run (AlterColumn (exampleMigrator defaultConfig)
                                  (Model singerModel) "FullName") c).2))
  = [ Explain "ALTER TABLE ? ALTER COLUMN ? TYPE ?"
        [ArgTable "singers"; ArgColumn "full_name"; ArgExpr (DataType fullNameField)];
      Explain "ALTER TABLE ? ALTER COLUMN ? DROP DEFAULT"
        [ArgTable "singers"; ArgColumn "full_name"] ].
Proof. split; vm_compute; reflexivity. Qed.

(** ** Primary keys and UPDATE *)

Lemma Omit_keeps_statement (stmt : Stmt) (columns : list string) :
  stmt_Table (Omit stmt columns) = stmt_Table stmt /\
  stmt_Schema (Omit stmt columns) = stmt_Schema stmt.
Proof.
  unfold Omit. destruct columns as [|column [|c2 rest]]; try (split; reflexivity).
  destruct (containsChar "," column); split; reflexivity.
Qed.

(** Unless it is a single name with a comma in it, [Omit] stores what it
    is given. *)
Lemma Omit_unsplit (stmt : Stmt) (columns : list string) :
  omitSplits columns = false -> Omits (Omit stmt columns) = columns.
Proof.
  unfold Omit, omitSplits. destruct columns as [|column [|c2 rest]]; try reflexivity.
  intros ->. reflexivity.
Qed.

Lemma BeforeUpdate_primaryKeyColumns (db : GormDB) :
  primaryKeyColumns (BeforeUpdate db) = primaryKeyColumns db.
Proof.
  unfold BeforeUpdate, primaryKeyColumns.
  destruct (Statement_ db) as [stmt|] eqn:Hs; [|rewrite Hs; reflexivity].
  destruct (stmt_Schema stmt) as [sch|] eqn:Hsch; [|rewrite Hs, Hsch; reflexivity].
  destruct (PrimaryFieldDBNames sch) as [pks|] eqn:Hp.
  - cbn [Statement_].
    destruct (Omit_keeps_statement stmt ([] ++ Omits stmt ++ pks)) as [_ ->].
    rewrite Hsch, Hp. reflexivity.
  - rewrite Hs, Hsch, Hp. reflexivity.
Qed.

Lemma BeforeUpdate_omits (db : GormDB) (stmt : Stmt) (pk : string) :
  omitSplits (omitArguments db) = false ->
  Statement_ (BeforeUpdate db) = Some stmt ->
  In pk (primaryKeyColumns db) ->
  In pk (Omits stmt).
Proof.
  unfold BeforeUpdate, omitArguments, primaryKeyColumns.
  destruct (Statement_ db) as [stmt0|] eqn:Hs; [|intros _ _ []].
  destruct (stmt_Schema stmt0) as [sch|] eqn:Hsch; [|intros _ _ []].
  destruct (PrimaryFieldDBNames sch) as [pks|] eqn:Hp; [|intros _ _ []].
  cbn [default Statement_ app]. intros Hsplit [= <-] Hin.
  rewrite (Omit_unsplit _ _ Hsplit). apply in_or_app. right. exact Hin.
Qed.

Lemma BeforeUpdate_keeps_omits (db : GormDB) (stmt0 stmt : Stmt) (col : string) :
  omitSplits (omitArguments db) = false ->
  Statement_ db = Some stmt0 ->
  Statement_ (BeforeUpdate db) = Some stmt ->
  In col (Omits stmt0) -> In col (Omits stmt).
Proof.
  unfold BeforeUpdate, omitArguments, primaryKeyColumns. intros Hsplit Hs.
  rewrite Hs in *.
  destruct (stmt_Schema stmt0) as [sch|]; [|rewrite Hs; intros [= <-]; auto].
  destruct (PrimaryFieldDBNames sch) as [pks|]; [|rewrite Hs; intros [= <-]; auto].
  cbn [default Statement_ app] in *. intros [= <-] Hin.
  rewrite (Omit_unsplit _ _ Hsplit). apply in_or_app. left. exact Hin.
Qed.

Lemma runCallbacks_app (l1 l2 : list Callback) (db : GormDB) :
  runCallbacks (l1 ++ l2) db = runCallbacks l2 (runCallbacks l1 db).
Proof. unfold runCallbacks. apply foldl_app. Qed.

(** Whatever the callbacks before it did, once the callback that
    [Initialize] registers before [gorm:update] has run, every primary key
    column of the statement's schema is in the statement's omit list,
    unless [Omit] was handed a single name with a comma in it; a SET
    clause built from that statement by a builder that leaves out the
    omitted columns then assigns no primary key column. *)
Lemma update_omits_primary_key_unless_split
  (ConvertToAssignments : Stmt -> list string)
  (earlier : list Callback) (db : GormDB) (stmt : Stmt) (pk : string) :
  (forall s col, In col (ConvertToAssignments s) -> ~ In col (Omits s)) ->
  omitSplits (omitArguments (runCallbacks earlier db)) = false ->
  Statement_ (runCallbacks (earlier ++ [removePrimaryKeyFromUpdate]) db) = Some stmt ->
  In pk (primaryKeyColumns (runCallbacks (earlier ++ [removePrimaryKeyFromUpdate]) db)) ->
  cb_before removePrimaryKeyFromUpdate = "gorm:update" /\
  In pk (Omits stmt) /\
  ~ In pk (ConvertToAssignments stmt).
Proof.
  intros Hbuild Hsplit Hstmt Hpk. rewrite runCallbacks_app in Hstmt, Hpk.
  cbn [runCallbacks foldl removePrimaryKeyFromUpdate cb_handler] in Hstmt, Hpk.
  rewrite BeforeUpdate_primaryKeyColumns in Hpk.
  pose proof (BeforeUpdate_omits _ _ _ Hsplit Hstmt Hpk) as Homit.
  split; [reflexivity|]. split; [exact Homit|].
  intros Hset. exact (Hbuild _ _ Hset Homit).
Qed.

Lemma exampleAssignments_leaves_out_omitted (columns : list string) (s : Stmt)
  (col : string) :
  In col (exampleAssignments columns s) -> ~ In col (Omits s).
Proof.
  unfold exampleAssignments. rewrite filter_In. intros [_ Hneg] Hin.
  apply negb_true_iff in Hneg.
  assert (existsb (String.eqb col) (Omits s) = true) as Hex.
  { apply existsb_exists. exists col. split; [exact Hin | apply String.eqb_refl]. }
  congruence.
Qed.

(** The update of a singer whose caller omits [updated_at]: the key [id]
    joins the omit list and is not assigned. *)
Example update_of_singer_omits_id :
  let db := mkGormDB (Some (mkStmt "singers" (Some singerModel) ["updated_at"])) false in
  exists stmt,
    Statement_ (runCallbacks [removePrimaryKeyFromUpdate] db) = Some stmt /\
    Omits stmt = ["updated_at"; "id"] /\
    exampleAssignments ["id"; "first_name"; "updated_at"] stmt = ["first_name"].
Proof. intros db. eexists. repeat split. Qed.

(** C10, where the code falls short of it. [BeforeUpdate] hands the
    omit list to gorm's [Omit], which splits a single argument with a
    comma in it.  For a model whose only key column is named [a,b] and an
    update without omitted columns, the omit list becomes [a] and [b]:
    the key column is a primary key column of the schema, it is not in
    the omit list, and a SET clause that leaves out the omitted columns
    assigns it. *)
Lemma BeforeUpdate_comma_key_is_assigned :
  let db := mkGormDB (Some (mkStmt "pairs" (Some pairsModel) [])) false in
  exists stmt,
    Statement_ (runCallbacks [removePrimaryKeyFromUpdate] db) = Some stmt /\
    primaryKeyColumns (runCallbacks [removePrimaryKeyFromUpdate] db) = ["a,b"] /\
    Omits stmt = ["a"; "b"] /\
    ~ In "a,b" (Omits stmt) /\
    In "a,b" (exampleAssignments ["a,b"; "value"] stmt).
Proof.
  intros db. eexists. split; [reflexivity|]. split; [reflexivity|].
  split; [reflexivity|]. split.
  - cbn. intros [H|[H|[]]]; discriminate.
  - cbn. left. reflexivity.
Qed.

(** ** The order of DROP TABLE *)

Lemma run_sent_only_bind {srv A B} (P : string -> Prop) (p : Prog A)
  (f : A -> Prog B) (c : Conn srv) :
  sent_only P c (run p c).2 ->
  (forall a (c1 : Conn srv), sent_only P c1 (run (f a) c1).2) ->
  sent_only P c (run (bind p f) c).2.
Proof.
  intros Hp Hf. rewrite run_bind.
  destruct (run p c) as [[a|msg] c1]; cbn [snd] in *.
  - eapply sent_only_trans; [exact Hp | apply Hf].
  - exact Hp.
Qed.

Lemma run_sent_only_mbind {srv A B} (P : string -> Prop) (p : Prog A)
  (f : A -> Prog B) (c : Conn srv) :
  sent_only P c (run p c).2 ->
  (forall a (c1 : Conn srv), sent_only P c1 (run (f a) c1).2) ->
  sent_only P c (run (p ≫= f) c).2.
Proof. apply run_sent_only_bind. Qed.

Lemma forRows_sent_only {srv R} (P : string -> Prop)
  (body : R -> Prog (option Err)) (rs : list R) :
  (forall r (c : Conn srv), sent_only P c (run (body r) c).2) ->
  forall c : Conn srv, sent_only P c (run (forRows body rs) c).2.
Proof.
  intros Hbody. induction rs as [|r rs IH]; intros c; cbn [forRows].
  - apply sent_only_refl.
  - apply run_sent_only_mbind; [apply Hbody|].
    intros [err|] c1; [apply sent_only_refl | apply IH].
Qed.

Section DropOrder.
Context {srv : Server} (m : Migrator).
Hypothesis DropConstraint_not_drop_table :
  forall v name (c : Conn srv),
    sent_only not_drop_table c (run (base_DropConstraint m v name) c).2.
Hypothesis DropIndex_not_drop_table :
  forall v name (c : Conn srv),
    sent_only not_drop_table c (run (base_DropIndex m v name) c).2.

(** Dropping what depends on a table sends no DROP TABLE. *)
Lemma dropTableDependencies_not_drop_table (stmt : Stmt) (c : Conn srv) :
  sent_only not_drop_table c (run (dropTableDependencies m stmt) c).2.
Proof.
  unfold dropTableDependencies.
  apply run_sent_only_mbind.
  - unfold dropForeignKeysReferencingTable.
    destruct (CurrentSchema m stmt (stmt_Table stmt)) as [currentSchema curTable].
    apply run_sent_only_mbind; [apply sent_only_refl|].
    intros [err|rs] c1; [apply sent_only_refl|].
    apply run_sent_only_mbind.
    + apply forRows_sent_only. intros [tableName constraintName] c2.
      apply DropConstraint_not_drop_table.
    + intros [err|] c2; apply sent_only_refl.
  - intros [err|] c1; [apply sent_only_refl|].
    apply run_sent_only_mbind.
    + unfold dropTableIndexes.
      destruct (CurrentSchema m stmt (stmt_Table stmt)) as [currentSchema curTable].
      apply run_sent_only_mbind; [apply sent_only_refl|].
      intros [err|rs] c2; [apply sent_only_refl|].
      apply run_sent_only_mbind.
      * apply forRows_sent_only. intros name c3. apply DropIndex_not_drop_table.
      * intros [err|] c3; apply sent_only_refl.
    + intros [err|] c2; apply sent_only_refl.
Qed.

Lemma isDropTable_dropTableSql (stmt : Stmt) : isDropTable (dropTableSql m stmt) = true.
Proof. reflexivity. Qed.


End DropOrder.




Lemma dropConstraint_not_drop_table (t name : string) :
  not_drop_table (Explain "ALTER TABLE ? DROP CONSTRAINT ?" [ArgTable t; ArgColumn name]).
Proof. vm_compute. reflexivity. Qed.

Lemma dropIndex_not_drop_table (name : string) :
  not_drop_table (Explain "DROP INDEX ?" [ArgColumn name]).
Proof. vm_compute. reflexivity. Qed.

Lemma run_execf_sent_only {srv} (P : string -> Prop) (template : string)
  (args : list SqlArg) (c : Conn srv) :
  P (Explain template args) ->
  sent_only P c (run (execf template args) c).2.
Proof.
  intros HP. unfold execf. generalize (Explain template args) HP.
  intros sql Hsql. rewrite run_exec. cbn [snd].
  apply (sent_only_one _ _ _ _ Hsql). apply execOn_trace.
Qed.

Lemma exampleMigrator_DropConstraint_not_drop_table {srv} cfg v name (c0 : Conn srv) :
  sent_only not_drop_table c0
    (run (base_DropConstraint (exampleMigrator cfg) v name) c0).2.
Proof.
  destruct v as [t|s|e].
  - apply (run_execf_sent_only not_drop_table "ALTER TABLE ? DROP CONSTRAINT ?"
             [ArgTable t; ArgColumn name] c0 (dropConstraint_not_drop_table t name)).
  - apply sent_only_refl.
  - apply sent_only_refl.
Qed.

Lemma exampleMigrator_DropIndex_not_drop_table {srv} cfg v name (c0 : Conn srv) :
  sent_only not_drop_table c0
    (run (base_DropIndex (exampleMigrator cfg) v name) c0).2.
Proof.
  apply (run_execf_sent_only not_drop_table "DROP INDEX ?" [ArgColumn name] c0
           (dropIndex_not_drop_table name)).
Qed.



(** What [DropTable] sends for the two tables of [TestMigrate], parent
    first in the arguments: the child's indexes and table, then the
    foreign key that references the parent, the parent's index and the
    parent. *)
Example DropTable_singers_albums :
  let m := exampleMigrator defaultConfig in
  let c : Conn catalogServer :=
    @mkConn catalogServer catalogSingersAlbums (Some []) [] true None true in
  (run (DropTable m [Model singersModel; Model albumsModel]) c).1 = Returned None /\
  trace (run (DropTable m [Model singersModel; Model albumsModel]) c).2 =
  [ "DROP INDEX " +:+ QuoteTo "idx_albums_deleted_at";
    "DROP TABLE IF EXISTS " +:+ QuoteTo "albums";
    "ALTER TABLE " +:+ QuoteTo "albums" +:+ " DROP CONSTRAINT " +:+ QuoteTo "fk_albums_singer";
    "DROP INDEX " +:+ QuoteTo "idx_singers_deleted_at";
    "DROP TABLE IF EXISTS " +:+ QuoteTo "singers" ].
Proof. split; vm_compute; reflexivity. Qed.

(** ** A rejected migration *)

(** With batching on, a migration whose planner returns an error without
    touching the connection returns that error, commits nothing and
    leaves the connection as it was. *)
Lemma autoMigrate_planner_error {srv} (m : Migrator) (values : list Value)
  (c : Conn srv) (cnt : Z) (err : Err) :
  base_AutoMigrate m values = Ret (Some err) ->
  disableAutoMigrateBatching m = false ->
  answer srv (live c) QDefaultSequenceKind = inr cnt ->
  batch c = None ->
  (run (autoMigrate m false values) c).1 = Returned ([], Some err) /\
  same_but_trace c (run (autoMigrate m false values) c).2 /\
  sent_only not_run_batch c (run (autoMigrate m false values) c).2.
Proof.
  intros Hbase Hon Hq Hb. unfold autoMigrate.
  run_step. run_step. rewrite Hq, Hon. red_run.
  run_step. unfold StartBatchDDL. run_step.
  unfold execOn. change (classify "START BATCH DDL") with KStartBatchDDL.
  rewrite Hb. red_run. run_step.
  set (c1 := withBatch c (Some []) "START BATCH DDL").
  assert (Hbody : exists c2,
    run (autoMigrateBody m false false cnt values) c1 = (Returned ([], Some err), c2) /\
    live c2 = live c /\ poolIsSqlConn c2 = poolIsSqlConn c /\
    connRawErr c2 = connRawErr c /\ driverIsSpanner c2 = driverIsSpanner c /\
    sent_only not_run_batch c1 c2).
  { unfold autoMigrateBody. rewrite Hbase. run_step.
    destruct (cnt =? 0).
    - rewrite run_exec. unfold execOn.
      change (classify alterDatabaseSql) with KDdl. cbn [c1 withBatch batch fst snd].
      repeat (first [rewrite run_mbind | rewrite run_Ret]; red_run).
      eexists. split; [reflexivity|]. repeat split.
      eapply sent_only_one; [|reflexivity]. discriminate.
    - repeat (first [rewrite run_mbind | rewrite run_Ret]; red_run).
      exists c1. repeat split. apply sent_only_refl. }
  destruct Hbody as (c2 & -> & Hl & Hp & Hr & Hd & Hs).
  unfold AbortBatch. run_step.
  assert (Hab : execOn c2 "ABORT BATCH" = (None, withBatch c2 None "ABORT BATCH"))
    by reflexivity.
  rewrite Hab. red_run. split; [reflexivity|]. split.
  - unfold same_but_trace; simpl. rewrite Hb. repeat split; congruence.
  - assert (Hc1 : sent_only not_run_batch c c1).
    { eapply sent_only_one; [|reflexivity]. discriminate. }
    eapply sent_only_trans; [exact Hc1|].
    eapply sent_only_trans; [exact Hs|].
    eapply sent_only_one; [|reflexivity]. discriminate.
Qed.

(** C3. A migrator whose planner is preceded by the constraint check
    fails for every list of models in which a field declares a genuine
    UNIQUE constraint: [AutoMigrate] returns the error of the check, the
    same on the first and on the repeated call, and neither call changes
    the live schema or sends RUN BATCH, so nothing is created in place of
    the constraint. *)
Theorem AutoMigrate_unique_fails_identically {srv} (errUniqueConstraintNotSupported : Err)
  (m : Migrator) (values : list Value) (c : Conn srv) (cnt : Z) :
  existsb declaresUnique values = true ->
  disableAutoMigrateBatching m = false ->
  answer srv (live c) QDefaultSequenceKind = inr cnt ->
  batch c = None ->
  let m' := withConstraintCheck errUniqueConstraintNotSupported m in
  let r1 := run (AutoMigrate m' values) c in
  let r2 := run (AutoMigrate m' values) r1.2 in
  r1.1 = Returned (Some errUniqueConstraintNotSupported) /\
  r2.1 = Returned (Some errUniqueConstraintNotSupported) /\
  live r1.2 = live c /\ live r2.2 = live c /\
  sent_only not_run_batch c r2.2.
Proof.
  intros Hu Hon Hq Hb m' r1 r2.
  assert (Hbase : base_AutoMigrate m' values = Ret (Some errUniqueConstraintNotSupported)).
  { cbn. unfold checkUniqueConstraints. rewrite Hu. reflexivity. }
  assert (Hon' : disableAutoMigrateBatching m' = false) by exact Hon.
  destruct (autoMigrate_planner_error m' values c cnt _ Hbase Hon' Hq Hb)
    as (H1 & Hs1 & Ht1).
  assert (Hr1 : r1 = (Returned (Some errUniqueConstraintNotSupported),
                      (run (autoMigrate m' false values) c).2)).
  { subst r1. unfold AutoMigrate. rewrite run_mbind.
    destruct (run (autoMigrate m' false values) c) as [o c1].
    cbn [fst snd] in *. subst o. reflexivity. }
  set (c1 := (run (autoMigrate m' false values) c).2) in *.
  assert (Hq1 : answer srv (live c1) QDefaultSequenceKind = inr cnt).
  { destruct Hs1 as [<- _]. exact Hq. }
  assert (Hb1 : batch c1 = None).
  { destruct Hs1 as (_ & <- & _). exact Hb. }
  destruct (autoMigrate_planner_error m' values c1 cnt _ Hbase Hon' Hq1 Hb1)
    as (H2 & Hs2 & Ht2).
  assert (Hr2 : r2 = (Returned (Some errUniqueConstraintNotSupported),
                      (run (autoMigrate m' false values) c1).2)).
  { subst r2. rewrite Hr1. cbn [snd]. unfold AutoMigrate. rewrite run_mbind.
    destruct (run (autoMigrate m' false values) c1) as [o c2].
    cbn [fst snd] in *. subst o. reflexivity. }
  rewrite Hr2, Hr1. cbn [fst snd]. repeat split.
  - symmetry. apply Hs1.
  - destruct Hs1 as [E1 _], Hs2 as [E2 _]. congruence.
  - eapply sent_only_trans; eassumption.
Qed.

Lemma AutoMigrate_unique_fails_identically_witness :
  let m' := withConstraintCheck errUniqueNotSupportedByServer
              (exampleMigrator defaultConfig) in
  let values := [Model (sha256Model "as" true)] in
  let c : Conn recordingServer := @connect recordingServer (Some []) in
  let r1 := run (AutoMigrate m' values) c in
  let r2 := run (AutoMigrate m' values) r1.2 in
  r1.1 = Returned (Some errUniqueNotSupportedByServer) /\
  r2.1 = Returned (Some errUniqueNotSupportedByServer) /\
  live r1.2 = live c /\ live r2.2 = live c /\
  sent_only not_run_batch c r2.2.
Proof.
  intros m' values c.
  apply (AutoMigrate_unique_fails_identically errUniqueNotSupportedByServer
           (exampleMigrator defaultConfig) values c 0); reflexivity.
Defined.

(** The PostgreSQL dialect has no such check: the embedded migrator sends
    the CREATE TABLE with its UNIQUE constraint, the database refuses the
    batch, and [AutoMigrate] returns the error of RUN BATCH, on the first
    and on the second call, as [TestMigrateUniqueFieldFails] expects. *)
Example AutoMigrate_unique_refused_by_server :
  let m := exampleMigrator defaultConfig in
  let values := [Model (sha256Model "as" true)] in
  let c : Conn recordingServer := @connect recordingServer (Some []) in
  let r1 := run (AutoMigrate m values) c in
  let r2 := run (AutoMigrate m values) r1.2 in
  r1.1 = Returned (Some errUniqueNotSupportedByServer) /\
  r2.1 = Returned (Some errUniqueNotSupportedByServer) /\
  live r2.2 = Some [].
Proof. repeat split; vm_compute; reflexivity. Qed.

(** ** Witnesses for the batch properties *)

Lemma ddl_only_bind {A B} (p : Prog A) (f : A -> Prog B) :
  ddl_only p -> (forall a, ddl_only (f a)) -> ddl_only (bind p f).
Proof.
  intros Hp Hf. induction p as [a|msg|X e k IH]; cbn [bind ddl_only].
  - apply Hf.
  - exact I.
  - destruct e; cbn [ddl_only] in *.
    + intros r. apply IH, Hp.
    + destruct Hp as [Hk Hp]. split; [exact Hk|]. intros r. apply IH, Hp.
    + destruct Hp.
Qed.

Lemma exampleAutoMigrate_ddl_only (values : list Value) :
  ddl_only (exampleAutoMigrate values).
Proof.
  unfold exampleAutoMigrate.
  induction values as [|v values IH]; cbn [forRows]; [exact I|].
  apply ddl_only_bind.
  - destruct v as [t|sch|e]; try exact I.
    apply ddl_only_bind.
    + cbn. intros r. exact I.
    + intros [err|n]; [exact I|]. destruct (0 <? n); [exact I|].
      cbn. split; [reflexivity | intros r; exact I].
  - intros [err|]; [exact I | exact IH].
Qed.

Lemma AutoMigrateDryRun_lists_its_batch_witness :
  let m := exampleMigrator defaultConfig in
  let values := [Model singersModel; Model albumsModel] in
  let c0 : Conn recordingServer := @connect recordingServer (Some []) in
  let r1 := run (AutoMigrateDryRun m values) c0 in
  let r2 := run (AutoMigrateDryRun m values) r1.2 in
  live r1.2 = live c0 /\ live r2.2 = live c0 /\
  sent_only not_run_batch c0 r2.2 /\
  r1.1 = r2.1 /\
  r1.1 = dryRunResult m values c0 0 /\
  r2.1 = dryRunResult m values r1.2 0.
Proof.
  intros m values c0.
  destruct (AutoMigrateDryRun_lists_its_batch m m values c0
              (exampleAutoMigrate_ddl_only values)
              (exampleAutoMigrate_ddl_only values))
    as (H1 & H2 & H3 & H4 & H5).
  split; [exact H1|]. split; [exact H2|]. split; [exact H3|].
  split; [exact (H4 eq_refl)|].
  apply (H5 0); reflexivity.
Defined.

(** C4, the claim as stated fails: two dry runs in a row of the same
    model against the same live schema, the first with the embedded
    migrator rendering the foreign key of [venues] first and the second
    with the one of [singers] first (the two texts that
    [TestAutoMigrate_CreateDataModel] accepts), return different
    statement lists. *)
Lemma AutoMigrateDryRun_twice_differs :
  let values := [Model concertsModel] in
  let c0 : Conn recordingServer := @connect recordingServer (Some []) in
  let r1 := run (AutoMigrateDryRun (concertsMigrator true) values) c0 in
  let r2 := run (AutoMigrateDryRun (concertsMigrator false) values) r1.2 in
  live r1.2 = live c0 /\ live r2.2 = live c0 /\
  r1.1 = Returned ([ mkStatement alterDatabaseSql [];
                     mkStatement (createConcerts true) [] ], None) /\
  r2.1 = Returned ([ mkStatement alterDatabaseSql [];
                     mkStatement (createConcerts false) [] ], None) /\
  r1.1 <> r2.1.
Proof.
  intros values c0 r1 r2.
  assert (H1 : r1.1 = Returned ([ mkStatement alterDatabaseSql [];
                                  mkStatement (createConcerts true) [] ], None))
    by (vm_compute; reflexivity).
  assert (H2 : r2.1 = Returned ([ mkStatement alterDatabaseSql [];
                                  mkStatement (createConcerts false) [] ], None))
    by (vm_compute; reflexivity).
  split; [vm_compute; reflexivity|]. split; [vm_compute; reflexivity|].
  split; [exact H1|]. split; [exact H2|].
  rewrite H1, H2. vm_compute. intros H. discriminate H.
Qed.

(** What the dry run of the two models returns on an empty database: the
    sequence kind, then one CREATE TABLE per model, parent first. *)
Example AutoMigrateDryRun_singers_albums :
  let m := exampleMigrator defaultConfig in
  let c0 : Conn recordingServer := @connect recordingServer (Some []) in
  (run (AutoMigrateDryRun m [Model singersModel; Model albumsModel]) c0).1
  = Returned
      ([ mkStatement alterDatabaseSql [];
         mkStatement (exampleCreateTable singersModel) [];
         mkStatement (exampleCreateTable albumsModel) [] ], None).
Proof. vm_compute. reflexivity. Qed.

Lemma autoMigrate_aborts_opened_batch_witness :
  let m := exampleMigrator defaultConfig in
  let values := [Model singersModel; Model albumsModel] in
  let c : Conn recordingServer := @connect recordingServer (Some []) in
  let c' := (run (autoMigrate m false values) c).2 in
  batch c' = None /\
  last_sent c' = Some "ABORT BATCH" /\
  exists between,
    trace c' = trace c ++ ["START BATCH DDL"] ++ between ++ ["ABORT BATCH"].
Proof.
  intros m values c.
  apply (autoMigrate_aborts_opened_batch m false values c 0); reflexivity.
Defined.

(** ** Names *)

(** The names in the rendered statements are made by gorm's naming
    strategy and by the migrator of the GoogleSQL dialect, neither of
    which is part of this package; what the package has is the
    statements that its tests expect.  The statement that [TestMigrate]
    expects for [albums], the child of [singers], names its foreign key
    [fk_albums_singer], not [fk_singers_albums]. *)
Example TestMigrate_foreign_key_not_parent_child :
  let stmt := nth 2 TestMigrate_statements "" in
  createsTable dquote stmt "albums" = true /\
  referencesTable dquote stmt "singers" = true /\
  namesForeignKey dquote stmt "fk_albums_singer" = true /\
  namesForeignKey dquote stmt (foreignKeyName "singers" "albums") = false /\
  foreignKeysNamedParentChild dquote TestMigrate_statements TestMigrate_tables = false.
Proof. repeat split; vm_compute; reflexivity. Qed.

Lemma associationForeignKeyName_parent_child (a : Association) :
  declaringTable a = parentTable a ->
  associationName a = childTable a ->
  associationForeignKeyName a = foreignKeyName (parentTable a) (childTable a).
Proof. unfold associationForeignKeyName, foreignKeyName. intros -> ->. reflexivity. Qed.

(** In the statements that the two tests expect, a foreign key is named
    [fk_<D>_<A>] after the table [D] of the model that declares the
    association and the association's name [A]: where the parent declares
    a has-many named after the child's table this is
    [fk_<parent>_<child>] (all four foreign keys of
    [TestAutoMigrate_CreateDataModel]), where the child declares the
    reference it is [fk_<child>_<A>] (both foreign keys of [TestMigrate]).
    Every index on [deleted_at] is named [idx_<T>_deleted_at] and every
    sequence [<T>_seq]. *)
Example expected_statements_follow_names :
  foreignKeysNamedByAssociation dquote TestMigrate_statements
    TestMigrate_associations = true /\
  foreignKeysNamedByAssociation backquote CreateDataModel_statements
    CreateDataModel_associations = true /\
  Forall (fun a => associationForeignKeyName a
                   = foreignKeyName (parentTable a) (childTable a))
         CreateDataModel_associations /\
  foreignKeysNamedParentChild backquote CreateDataModel_statements
    CreateDataModel_tables = true /\
  softDeleteIndexesNamed dquote TestMigrate_statements TestMigrate_tables = true /\
  softDeleteIndexesNamed backquote CreateDataModel_statements
    CreateDataModel_tables = true /\
  sequencesNamed backquote CreateDataModel_statements CreateDataModel_tables = true.
Proof.
  repeat split; try (vm_compute; reflexivity).
  repeat constructor.
Qed.

(** ** What the dialect adds to a second run *)

(** [MigrateColumn] leaves a primary key field alone, whatever the live
    column looks like. *)
Lemma MigrateColumn_skips_primary_key (m : Migrator) (value : Value)
  (field : Field) (columnType : ColumnType) :
  PrimaryKey field = true ->
  MigrateColumn m value field columnType = Ret None.
Proof. intros H. unfold MigrateColumn. rewrite H. reflexivity. Qed.

(** Once the sequence kind is set, [autoMigrate] sends no DDL of its own:
    when the embedded migrator finds nothing to do, only the batch is
    opened, run empty and aborted, and the live schema stays as it is. *)
Lemma autoMigrate_adds_no_ddl {srv} (m : Migrator) (values : list Value)
  (c : Conn srv) (cnt : Z) :
  answer srv (live c) QDefaultSequenceKind = inr cnt ->
  cnt <> 0 ->
  disableAutoMigrateBatching m = false ->
  batch c = None ->
  (forall c1 : Conn srv, run (base_AutoMigrate m values) c1 = (Returned None, c1)) ->
  (run (autoMigrate m false values) c).1 = Returned ([], None) /\
  live (run (autoMigrate m false values) c).2 = live c /\
  trace (run (autoMigrate m false values) c).2
    = trace c ++ ["START BATCH DDL"; "RUN BATCH"; "ABORT BATCH"].
Proof.
  intros Hq Hcnt Hon Hb Hquiet. unfold autoMigrate.
  run_step. run_step. rewrite Hq, Hon. red_run.
  run_step. unfold StartBatchDDL. run_step.
  unfold execOn. change (classify "START BATCH DDL") with KStartBatchDDL.
  rewrite Hb. red_run. run_step.
  unfold autoMigrateBody. run_step.
  apply Z.eqb_neq in Hcnt. rewrite Hcnt. rewrite run_Ret.
  run_step. rewrite Hquiet. red_run.
  run_step. unfold RunBatch. run_step.
  unfold execOn. change (classify "RUN BATCH") with KRunBatch.
  cbn [withBatch batch fst snd]. rewrite run_Ret.
  unfold AbortBatch. run_step.
  unfold execOn. change (classify "ABORT BATCH") with KAbortBatch.
  cbn [withBatch batch live trace fst snd].
  repeat split. rewrite <- !app_assoc. reflexivity.
Qed.

(** * More properties of the code *)

(** ** Introspection only reads *)

Lemma query_only_bind {A B} (p : Prog A) (f : A -> Prog B) :
  query_only p -> (forall a, query_only (f a)) -> query_only (bind p f).
Proof.
  intros Hp Hf. induction p as [a|msg|X e k IH]; cbn [bind query_only].
  - apply Hf.
  - exact I.
  - destruct e; cbn [query_only] in *; try contradiction.
    intros r. apply IH, Hp.
Qed.

Lemma query_only_mbind {A B} (p : Prog A) (f : A -> Prog B) :
  query_only p -> (forall a, query_only (f a)) -> query_only (p ≫= f).
Proof. apply query_only_bind. Qed.

Lemma query_only_query {R} (q : Query R) : query_only (query q).
Proof. cbn. intros r. exact I. Qed.

Lemma run_query_only {srv A} (p : Prog A) (c : Conn srv) :
  query_only p -> (run p c).2 = c.
Proof.
  induction p as [a|msg|X e k IH]; intros Hp; cbn [run]; try reflexivity.
  destruct e; cbn [query_only] in Hp; try contradiction.
  apply IH, Hp.
Qed.

Lemma query_only_RunWithValue {A} (value : Value) (fc : Stmt -> Prog (Err + A)) :
  (forall stmt, query_only (fc stmt)) -> query_only (RunWithValue value fc).
Proof.
  intros H. unfold RunWithValue. destruct (ParseValue value); [exact I | apply H].
Qed.

Lemma query_only_HasColumn (m : Migrator) value field :
  query_only (HasColumn m value field).
Proof.
  unfold HasColumn. apply query_only_mbind.
  - apply query_only_RunWithValue. intros stmt.
    destruct (CurrentSchema m stmt (stmt_Table stmt)). apply query_only_query.
  - intros [e|n]; exact I.
Qed.

Lemma query_only_HasIndex (m : Migrator) lookIndex value name :
  query_only (HasIndex m lookIndex value name).
Proof.
  unfold HasIndex. apply query_only_mbind.
  - apply query_only_RunWithValue. intros stmt.
    destruct (CurrentSchema m stmt (stmt_Table stmt)). apply query_only_query.
  - intros [e|n]; exact I.
Qed.

Lemma query_only_HasConstraint (m : Migrator) guess value name :
  query_only (HasConstraint m guess value name).
Proof.
  unfold HasConstraint. apply query_only_mbind.
  - apply query_only_RunWithValue. intros stmt.
    destruct (guess stmt name) as [constraint table].
    destruct (CurrentSchema m stmt table). apply query_only_query.
  - intros [e|n]; exact I.
Qed.

Lemma query_only_GetTables (m : Migrator) : query_only (GetTables m).
Proof.
  unfold GetTables. destruct (CurrentSchema m (mkStmt "" None []) "").
  apply query_only_mbind; [apply query_only_query|].
  intros [e|rs]; exact I.
Qed.

Lemma query_only_isColumnGenerated (m : Migrator) value field :
  query_only (isColumnGenerated m value field).
Proof.
  unfold isColumnGenerated. apply query_only_mbind.
  - apply query_only_RunWithValue. intros stmt.
    destruct (stmt_Schema stmt); [apply query_only_query | exact I].
  - intros [e|n]; exact I.
Qed.

Lemma query_only_ColumnTypes (m : Migrator) value :
  query_only (ColumnTypes m value).
Proof.
  unfold ColumnTypes. destruct (ParseValue value) as [e|stmt]; [exact I|].
  destruct (CurrentSchema m stmt (stmt_Table stmt)) as [currentSchema table].
  apply query_only_mbind; [apply query_only_query|].
  intros [e|columns]; [exact I|]. destruct (rowsErr columns); [exact I|].
  apply query_only_mbind; [apply query_only_query|].
  intros [e|raw]; [exact I|]. destruct (rowsErr raw); [exact I|].
  apply query_only_mbind; [apply query_only_query|].
  intros [e|uniq]; [exact I|]. destruct (rowsErr uniq); [exact I|].
  apply query_only_mbind; [apply query_only_query|].
  intros [e|keys]; [exact I|]. destruct (rowsErr keys); [exact I|].
  apply query_only_mbind; [apply query_only_query|].
  intros [e|types]; [exact I|]. destruct (rowsErr types); exact I.
Qed.

(** X1. The introspection calls only read: whatever the server answers,
    [GetTables], [HasIndex], [HasColumn], [HasConstraint], [ColumnTypes]
    and [isColumnGenerated] leave the connection exactly as it was: the
    live schema, an open batch and the record of what was sent. *)
Theorem introspection_leaves_connection {srv} (m : Migrator) (value : Value)
  (name : string) (lookIndex : Schema -> string -> option string)
  (guess : Stmt -> string -> option string * string) (c : Conn srv) :
  (run (GetTables m) c).2 = c /\
  (run (HasIndex m lookIndex value name) c).2 = c /\
  (run (HasColumn m value name) c).2 = c /\
  (run (HasConstraint m guess value name) c).2 = c /\
  (run (ColumnTypes m value) c).2 = c /\
  (run (isColumnGenerated m value name) c).2 = c.
Proof.
  repeat split; apply run_query_only.
  - apply query_only_GetTables.
  - apply query_only_HasIndex.
  - apply query_only_HasColumn.
  - apply query_only_HasConstraint.
  - apply query_only_ColumnTypes.
  - apply query_only_isColumnGenerated.
Qed.

(** ** A dry run lists what a real run commits *)

(** One migrator, with one program of the embedded migrator for both
    calls: the real run commits what the dry run lists. *)
Lemma AutoMigrate_commits_same_program {srv} (m : Migrator)
  (values : list Value) (c : Conn srv) (stmts : list Statement) :
  ddl_only (base_AutoMigrate m values) ->
  disableAutoMigrateBatching m = false ->
  (run (AutoMigrateDryRun m values) c).1 = Returned (stmts, None) ->
  let r := run (AutoMigrate m values) c in
  match stmts with
  | [] => r.1 = Returned None /\ live r.2 = live c
  | _ :: _ =>
      r.1 = Returned (updateDatabaseDdl srv (live c) (map SQL stmts)).2 /\
      live r.2 = (updateDatabaseDdl srv (live c) (map SQL stmts)).1
  end.
Proof.
  intros Hd Hdis Hdry r. subst r.
  cut (let r := run (AutoMigrate m values) c in
       let d := updateDatabaseDdl srv (live c) (map SQL stmts) in
       r.1 = Returned (match stmts with [] => None | _ => d.2 end) /\
       live r.2 = match stmts with [] => live c | _ => d.1 end).
  { destruct stmts; intros H; exact H. }
  unfold AutoMigrate, AutoMigrateDryRun, autoMigrate in *.
  rewrite Hdis in *. cbn [orb negb] in *.
  rewrite run_mbind. rewrite run_mbind. rewrite run_mbind in Hdry.
  rewrite run_query in *.
  destruct (answer srv (live c) QDefaultSequenceKind) as [err|cnt]; red_run.
  { rewrite run_Ret in Hdry. discriminate. }
  rewrite run_mbind in *. unfold StartBatchDDL in *. rewrite run_exec in *.
  unfold execOn in *. change (classify "START BATCH DDL") with KStartBatchDDL in *.
  destruct (batch c) as [b|] eqn:Hb; red_run.
  { cbn [fst snd] in Hdry. rewrite run_Ret in Hdry. discriminate. }
  cbn [fst snd] in *. rewrite run_deferred in *.
  set (c1 := withBatch c (Some []) "START BATCH DDL") in *.
  unfold autoMigrateBody in *. rewrite run_mbind in *.
  assert (Hfirst : exists c2 b2,
    run (if cnt =? 0 then exec alterDatabaseSql else Ret None) c1
      = (Returned None, c2) /\ batch c2 = Some b2 /\ live c2 = live c).
  { destruct (cnt =? 0).
    - rewrite run_exec. unfold execOn.
      change (classify alterDatabaseSql) with KDdl. simpl.
      eexists _, _. repeat split.
    - simpl. eexists c1, _. repeat split. }
  destruct Hfirst as (c2 & b2 & Hfirst & Hb2 & Hl2).
  rewrite Hfirst in *. rewrite run_mbind in *.
  destruct (run_ddl_only_batched _ Hd c2 b2 Hb2)
    as (Hl3 & (b3 & Hb3) & Hp3 & Hr3 & Hd3 & Hs3).
  destruct (run (base_AutoMigrate m values) c2) as [[[err|]|msg] c3];
    cbn [fst snd negb andb] in *.
  - rewrite run_Ret in Hdry. unfold AbortBatch in Hdry.
    rewrite run_exec in Hdry. cbn in Hdry. discriminate.
  - rewrite run_mbind in *. unfold connRaw, RunBatch, AbortBatch in *.
    rewrite run_exec.
    assert (Hstmts : stmts = b3).
    { rewrite run_mbind in Hdry. cbn [run] in Hdry. unfold rawOn in Hdry.
      rewrite Hb3 in Hdry.
      destruct (poolIsSqlConn c3); [|cbn in Hdry; discriminate].
      destruct (connRawErr c3); [cbn in Hdry; discriminate|].
      destruct (driverIsSpanner c3); [|cbn in Hdry; discriminate].
      cbn in Hdry. congruence. }
    subst b3. clear Hdry.
    unfold execOn. change (classify "RUN BATCH") with KRunBatch.
    rewrite Hb3. rewrite Hl3, Hl2.
    destruct stmts as [|st rest]; [cbn; split; congruence|].
    destruct (updateDatabaseDdl srv (live c) (map SQL (st :: rest))) as [d e].
    cbn. auto.
  - cbn in Hdry. discriminate.
Qed.

(** X2. With batching on, a real [AutoMigrate] whose embedded migrator
    runs the same program as it did in the dry run commits exactly the
    statements that [AutoMigrateDryRun] listed on the same connection,
    in one schema-update request and in the same order, and returns the
    error of that request; when the dry run listed nothing, the real run
    sends no request at all. *)
Theorem AutoMigrate_commits_what_dry_run_lists {srv} (dry real : Migrator)
  (values : list Value) (c : Conn srv) (stmts : list Statement) :
  ddl_only (base_AutoMigrate dry values) ->
  base_AutoMigrate real values = base_AutoMigrate dry values ->
  disableAutoMigrateBatching real = false ->
  (run (AutoMigrateDryRun dry values) c).1 = Returned (stmts, None) ->
  let r := run (AutoMigrate real values) c in
  match stmts with
  | [] => r.1 = Returned None /\ live r.2 = live c
  | _ :: _ =>
      r.1 = Returned (updateDatabaseDdl srv (live c) (map SQL stmts)).2 /\
      live r.2 = (updateDatabaseDdl srv (live c) (map SQL stmts)).1
  end.
Proof.
  intros Hd Hsame Hdis Hdry.
  apply AutoMigrate_commits_same_program.
  - rewrite Hsame. exact Hd.
  - exact Hdis.
  - unfold AutoMigrateDryRun in *.
    rewrite (autoMigrate_dry_same_program real dry values Hsame). exact Hdry.
Qed.

Lemma AutoMigrate_commits_what_dry_run_lists_witness :
  let dry := exampleMigrator (mkSpannerConfig true false false) in
  let real := exampleMigrator defaultConfig in
  let values := [Model singersModel; Model albumsModel] in
  let c : Conn recordingServer := @connect recordingServer (Some []) in
  let stmts := [ mkStatement alterDatabaseSql [];
                 mkStatement (exampleCreateTable singersModel) [];
                 mkStatement (exampleCreateTable albumsModel) [] ] in
  let r := run (AutoMigrate real values) c in
  r.1 = Returned (updateDatabaseDdl recordingServer (live c) (map SQL stmts)).2 /\
  live r.2 = (updateDatabaseDdl recordingServer (live c) (map SQL stmts)).1.
Proof.
  intros dry real values c stmts.
  apply (AutoMigrate_commits_what_dry_run_lists dry real values c stmts).
  - apply exampleAutoMigrate_ddl_only.
  - reflexivity.
  - reflexivity.
  - vm_compute. reflexivity.
Defined.

(** ** Migration without batching *)

Lemma run_ddl_only_unbatched {srv A} (p : Prog A) :
  ddl_only p ->
  forall c : Conn srv,
  sent_only is_ddl c (run p c).2 /\
  (batch c = None -> batch (run p c).2 = None).
Proof.
  induction p as [a|msg|X e k IH]; intros Hd c; cbn [run].
  - split; [apply sent_only_refl | auto].
  - split; [apply sent_only_refl | auto].
  - destruct e; cbn [ddl_only] in Hd.
    + apply IH, Hd.
    + destruct Hd as [Hk Hd].
      pose proof (execOn_trace c sql) as Ht.
      assert (Hbatch : batch c = None -> batch (execOn c sql).2 = None).
      { intros Hb. unfold execOn. rewrite Hk, Hb.
        destruct (updateDatabaseDdl srv (live c) [sql]). reflexivity. }
      destruct (execOn c sql) as [r c1]. cbn [snd] in *.
      destruct (IH r (Hd r) c1) as [Hs Hb1]. split.
      * eapply sent_only_trans; [|exact Hs].
        eapply sent_only_one; [exact Hk | exact Ht].
      * intros Hb. apply Hb1, Hbatch, Hb.
    + destruct Hd.
Qed.

(** X3. With [DisableAutoMigrateBatching] set, a real [AutoMigrate] never
    sends START BATCH DDL, RUN BATCH or ABORT BATCH: everything it sends
    is DDL, and a connection without a batch is left without one. *)
Theorem AutoMigrate_unbatched_sends_only_ddl {srv} (m : Migrator)
  (values : list Value) (c : Conn srv) :
  ddl_only (base_AutoMigrate m values) ->
  disableAutoMigrateBatching m = true ->
  let c' := (run (AutoMigrate m values) c).2 in
  sent_only is_ddl c c' /\ (batch c = None -> batch c' = None).
Proof.
  intros Hd Hdis. apply run_ddl_only_unbatched.
  unfold AutoMigrate, autoMigrate. rewrite Hdis. cbn [orb negb andb].
  apply ddl_only_bind; [|intros r; exact I].
  apply ddl_only_bind; [intros r; exact I|].
  intros [err|cnt]; [exact I|].
  unfold autoMigrateBody. apply ddl_only_bind.
  - destruct (cnt =? 0); [|exact I]. split; [reflexivity | intros r; exact I].
  - intros [err|]; [exact I|].
    apply ddl_only_bind; [exact Hd|].
    intros [err|]; exact I.
Qed.

Lemma AutoMigrate_unbatched_sends_only_ddl_witness :
  let m := exampleMigrator (mkSpannerConfig true false false) in
  let values := [Model singersModel; Model albumsModel] in
  let c : Conn recordingServer := @connect recordingServer (Some []) in
  let c' := (run (AutoMigrate m values) c).2 in
  sent_only is_ddl c c' /\ (batch c = None -> batch c' = None).
Proof.
  intros m values c.
  apply (AutoMigrate_unbatched_sends_only_ddl m values c).
  - apply exampleAutoMigrate_ddl_only.
  - reflexivity.
Defined.

(** ** The key flags of [ColumnTypes] *)

Lemma countConstraints_from (names : list string) (counts : gmap string Z)
  (name : string) :
  default 0 (foldl (fun (counts : gmap string Z) name =>
                      <[name := default 0 (counts !! name) + 1]> counts)
                   counts names !! name)
  = default 0 (counts !! name) + Z.of_nat (rowsNamed name names).
Proof.
  revert counts. induction names as [|n names IH]; intros counts; cbn [foldl].
  - unfold rowsNamed. cbn. lia.
  - rewrite IH. unfold rowsNamed. cbn [List.filter].
    destruct (String.eqb name n) eqn:E.
    + apply String.eqb_eq in E. subst n. rewrite lookup_insert_eq.
      cbn [default length id]. fold (rowsNamed name names). unfold id. lia.
    + apply String.eqb_neq in E. rewrite lookup_insert_ne by congruence.
      fold (rowsNamed name names). lia.
Qed.

(** The counter of [ColumnTypes] holds, per constraint name, the number
    of rows with that name. *)
Lemma countConstraints_rowsNamed (names : list string) (name : string) :
  default 0 (countConstraints names !! name) = Z.of_nat (rowsNamed name names).
Proof.
  unfold countConstraints. rewrite countConstraints_from.
  rewrite lookup_empty. reflexivity.
Qed.

Lemma updateFirst_keeps {X} (g : ColumnType -> X) (name : string)
  (f : ColumnType -> ColumnType) (cts : list ColumnType) :
  (forall mc, g (f mc) = g mc) ->
  map g (updateFirst name f cts) = map g cts.
Proof.
  intros Hf. induction cts as [|mc cts IH]; cbn [updateFirst]; [reflexivity|].
  destruct (String.eqb (NullString_String (NameValue mc)) name); cbn [map].
  - rewrite Hf. reflexivity.
  - rewrite IH. reflexivity.
Qed.

(** When no two columns share a name, changing the first column with a
    name changes the only one. *)
Lemma updateFirst_NoDup (name : string) (f : ColumnType -> ColumnType)
  (cts : list ColumnType) :
  NoDup (map NameValue_String cts) ->
  updateFirst name f cts
  = map (fun mc => if String.eqb (NameValue_String mc) name then f mc else mc) cts.
Proof.
  induction cts as [|mc cts IH]; intros Hnd; cbn [updateFirst map]; [reflexivity|].
  inversion Hnd as [|x l Hnot Hnd']; subst.
  fold (NameValue_String mc).
  destruct (String.eqb (NameValue_String mc) name) eqn:E.
  - f_equal. apply String.eqb_eq in E. subst name.
    clear IH Hnd Hnd'. induction cts as [|mc' cts IH]; [reflexivity|].
    cbn [map] in *. destruct (String.eqb (NameValue_String mc') (NameValue_String mc)) eqn:E'.
    + apply String.eqb_eq in E'. exfalso. apply Hnot. rewrite E'. left.
    + f_equal. apply IH. intros Hin. apply Hnot. right. exact Hin.
  - f_equal. apply IH, Hnd'.
Qed.

(** One row of the second constraint query, applied to one column. *)
Lemma markKeys_NoDup (u : gmap string Z) (ks : list (string * string * string))
  (cts : list ColumnType) :
  NoDup (map NameValue_String cts) ->
  forall ct, In ct (markKeys u ks cts) ->
    exists ct0, In ct0 cts /\ NameValue ct = NameValue ct0 /\
      Bool_ (PrimaryKeyValue ct)
      = Bool_ (PrimaryKeyValue ct0)
        || existsb (fun '(name, _, columnType) =>
                      String.eqb (NameValue_String ct0) name
                      && String.eqb columnType "PRIMARY KEY") ks /\
      Bool_ (UniqueValue ct)
      = Bool_ (UniqueValue ct0)
        || existsb (fun '(name, constraintName, columnType) =>
                      String.eqb (NameValue_String ct0) name
                      && String.eqb columnType "UNIQUE"
                      && (default 0 (u !! constraintName) =? 1)) ks.
Proof.
  revert cts. induction ks as [|[[name constraintName] columnType] ks IH];
    intros cts Hnd ct Hin; cbn [markKeys foldl] in Hin.
  - exists ct. cbn [existsb]. rewrite !orb_false_r. auto.
  - unfold markKeys in IH.
    set (f := fun mc : ColumnType =>
                if String.eqb columnType "PRIMARY KEY" then
                  with_PrimaryKeyValue mc (mkNullBool true true)
                else if String.eqb columnType "UNIQUE" then
                  if default 0 (u !! constraintName) =? 1
                  then with_UniqueValue mc (mkNullBool true true)
                  else mc
                else mc) in *.
    assert (Hname : forall mc, NameValue (f mc) = NameValue mc).
    { intros mc. unfold f.
      destruct (String.eqb columnType "PRIMARY KEY"); [reflexivity|].
      destruct (String.eqb columnType "UNIQUE"); [|reflexivity].
      destruct (default 0 (u !! constraintName) =? 1); reflexivity. }
    assert (Hnd' : NoDup (map NameValue_String (updateFirst name f cts))).
    { unfold NameValue_String.
      rewrite (updateFirst_keeps (fun mc => NullString_String (NameValue mc))).
      - exact Hnd.
      - intros mc. rewrite Hname. reflexivity. }
    destruct (IH _ Hnd' ct Hin) as (ct1 & Hin1 & Hn1 & Hpk1 & Hu1).
    rewrite (updateFirst_NoDup name f cts Hnd) in Hin1.
    apply in_map_iff in Hin1. destruct Hin1 as (ct0 & Hct1 & Hin0).
    exists ct0. split; [exact Hin0|].
    assert (Hns : NameValue_String ct1 = NameValue_String ct0).
    { subst ct1. unfold NameValue_String.
      destruct (String.eqb _ name); [rewrite Hname|]; reflexivity. }
    rewrite Hns in Hpk1, Hu1. rewrite Hpk1, Hu1. cbn [existsb].
    subst ct1. fold (NameValue_String ct0).
    destruct (String.eqb (NameValue_String ct0) name) eqn:E; cbn [andb].
    + split; [rewrite Hn1; apply Hname|]. unfold f.
      destruct (String.eqb columnType "PRIMARY KEY") eqn:Epk.
      * apply String.eqb_eq in Epk. subst columnType.
        cbn. rewrite !orb_true_r. split; reflexivity.
      * destruct (String.eqb columnType "UNIQUE") eqn:Eu; cbn [andb orb].
        -- destruct (default 0 (u !! constraintName) =? 1); cbn;
             rewrite ?orb_true_r; split; reflexivity.
        -- split; reflexivity.
    + split; [exact Hn1|]. split; reflexivity.
Qed.

Lemma assignSpannerTypes_keyFact (ts : list (string * string))
  (cts : list ColumnType) :
  map keyFact (assignSpannerTypes ts cts) = map keyFact cts.
Proof.
  revert cts. induction ts as [|[name dataType] ts IH]; intros cts;
    cbn [assignSpannerTypes foldl]; [reflexivity|].
  unfold assignSpannerTypes in IH. rewrite IH.
  apply updateFirst_keeps. intros mc. reflexivity.
Qed.

Lemma assignSQLColumnTypes_keyFact (raws : list RawColumnType)
  (cts : list ColumnType) :
  map keyFact (assignSQLColumnTypes raws cts) = map keyFact cts.
Proof.
  unfold assignSQLColumnTypes. rewrite map_map. apply map_ext.
  intros ct. destruct (find _ raws); reflexivity.
Qed.

Lemma columnOfRow_keyFact (r : ColumnRow) :
  keyFact (columnOfRow r)
  = (Some (cr_column_name r), mkNullBool false true, mkNullBool false true).
Proof. reflexivity. Qed.

Lemma keyFact_In (ct : ColumnType) (l l' : list ColumnType) :
  map keyFact l = map keyFact l' -> In ct l ->
  exists ct', In ct' l' /\ keyFact ct' = keyFact ct.
Proof.
  intros Hm Hin. apply (in_map keyFact) in Hin. rewrite Hm in Hin.
  apply in_map_iff in Hin. destruct Hin as (ct' & H1 & H2). eauto.
Qed.

Lemma markKeys_NameValue (u : gmap string Z)
  (ks : list (string * string * string)) (cts : list ColumnType) :
  map NameValue (markKeys u ks cts) = map NameValue cts.
Proof.
  revert cts. induction ks as [|[[name constraintName] columnType] ks IH];
    intros cts; cbn [markKeys foldl]; [reflexivity|].
  unfold markKeys in IH. rewrite IH.
  apply updateFirst_keeps. intros mc.
  destruct (String.eqb columnType "PRIMARY KEY"); [reflexivity|].
  destruct (String.eqb columnType "UNIQUE"); [|reflexivity].
  destruct (default 0 (u !! constraintName) =? 1); reflexivity.
Qed.

Lemma ColumnType_Name_of_NameValue (ct : ColumnType) (name : string) :
  NameValue ct = Some name -> ColumnType_Name ct = name.
Proof. unfold ColumnType_Name. intros ->. reflexivity. Qed.

(** X4. What [ColumnTypes] reports about keys, when its five queries
    succeed and no two rows of the column query share a name: there is
    one column per row of the column query, in that order and under that
    name; a column is a primary key exactly when a PRIMARY KEY row of the
    second constraint query names it; and it is unique exactly when a
    UNIQUE row names it whose constraint occurs once among the rows of the
    first constraint query, so a unique constraint over several columns
    marks none of them. *)
Theorem ColumnTypes_key_flags {srv} (m : Migrator) (value : Value)
  (c : Conn srv) (stmt : Stmt) (schema : SchemaRef) (table : string)
  (columns : list ColumnRow) (raw : list RawColumnType) (uniq : list string)
  (keys : list (string * string * string)) (types : list (string * string)) :
  ParseValue value = inr stmt ->
  CurrentSchema m stmt (stmt_Table stmt) = (schema, table) ->
  answer srv (live c) (QColumns schema table) = inr (mkRowSet columns None) ->
  answer srv (live c) (QRawColumnTypes schema table) = inr (mkRowSet raw None) ->
  answer srv (live c) (QUniqueConstraintNames schema table)
    = inr (mkRowSet uniq None) ->
  answer srv (live c) (QKeyConstraintColumns schema table)
    = inr (mkRowSet keys None) ->
  answer srv (live c) (QSpannerTypes schema table) = inr (mkRowSet types None) ->
  NoDup (map cr_column_name columns) ->
  exists columnTypes,
    (run (ColumnTypes m value) c).1 = Returned (columnTypes, None) /\
    map ColumnType_Name columnTypes = map cr_column_name columns /\
    forall ct, In ct columnTypes ->
      (Bool_ (PrimaryKeyValue ct) = true <->
       exists constraintName,
         In (ColumnType_Name ct, constraintName, "PRIMARY KEY") keys) /\
      (Bool_ (UniqueValue ct) = true <->
       exists constraintName,
         In (ColumnType_Name ct, constraintName, "UNIQUE") keys /\
         rowsNamed constraintName uniq = 1%nat).
Proof.
  intros Hv Hs Q1 Q2 Q3 Q4 Q5 Hnd.
  set (cts1 := assignSQLColumnTypes raw (map columnOfRow columns)).
  set (cts2 := markKeys (countConstraints uniq) keys cts1).
  exists (assignSpannerTypes types cts2).
  assert (Hk1 : map keyFact cts1 = map keyFact (map columnOfRow columns))
    by apply assignSQLColumnTypes_keyFact.
  assert (Hnames : forall l : list ColumnType,
            map NameValue_String l
            = map (fun k : NullString * NullBool * NullBool =>
                     NullString_String k.1.1) (map keyFact l)).
  { intros l. rewrite map_map. reflexivity. }
  assert (Hnd1 : NoDup (map NameValue_String cts1)).
  { rewrite Hnames, Hk1, !map_map. exact Hnd. }
  split; [|split].
  - unfold ColumnTypes. rewrite Hv, Hs.
    rewrite run_mbind, run_query, Q1. cbn [rows rowsErr].
    rewrite run_mbind, run_query, Q2. cbn [rows rowsErr].
    rewrite run_mbind, run_query, Q3. cbn [rows rowsErr].
    rewrite run_mbind, run_query, Q4. cbn [rows rowsErr].
    rewrite run_mbind, run_query, Q5. cbn [rows rowsErr].
    reflexivity.
  - assert (Hn : map NameValue (assignSpannerTypes types cts2)
                 = map (fun r => Some (cr_column_name r)) columns).
    { transitivity (map (fun k : NullString * NullBool * NullBool => k.1.1)
                        (map keyFact (assignSpannerTypes types cts2))).
      { rewrite map_map. reflexivity. }
      rewrite assignSpannerTypes_keyFact, map_map.
      change (map (fun x => (keyFact x).1.1) cts2) with (map NameValue cts2).
      unfold cts2. rewrite markKeys_NameValue.
      transitivity (map (fun k : NullString * NullBool * NullBool => k.1.1)
                        (map keyFact cts1)).
      { rewrite map_map. reflexivity. }
      rewrite Hk1, !map_map. reflexivity. }
    revert Hn. generalize (assignSpannerTypes types cts2). clear.
    induction columns as [|r columns IH]; intros [|ct l] Hn; try discriminate;
      [reflexivity|].
    cbn [map] in *. injection Hn as Hct Hl.
    rewrite (ColumnType_Name_of_NameValue ct _ Hct), (IH l Hl). reflexivity.
  - intros ct Hin.
    destruct (keyFact_In ct _ cts2 (assignSpannerTypes_keyFact types cts2) Hin)
      as (ct2 & Hin2 & Hk2).
    destruct (markKeys_NoDup (countConstraints uniq) keys cts1 Hnd1 ct2 Hin2)
      as (ct1 & Hin1 & Hn1 & Hpk & Hu).
    destruct (keyFact_In ct1 _ _ Hk1 Hin1) as (ct0 & Hin0 & Hk0).
    apply in_map_iff in Hin0. destruct Hin0 as (r & <- & _).
    rewrite columnOfRow_keyFact in Hk0. unfold keyFact in Hk0, Hk2.
    injection Hk0 as Hname1 Hpk1 Hu1. injection Hk2 as Hname2 Hpk2 Hu2.
    assert (Hname : NameValue ct = Some (cr_column_name r)) by congruence.
    rewrite (ColumnType_Name_of_NameValue ct _ Hname).
    rewrite <- Hpk2, <- Hu2, Hpk, Hu, <- Hpk1, <- Hu1. cbn [Bool_ orb].
    unfold NameValue_String. rewrite <- Hname1.
    cbn [NullString_String default]. unfold id.
    split.
    + rewrite existsb_exists. split.
      * intros ([[name constraintName] columnType] & Hk & Hb).
        apply andb_prop in Hb. destruct Hb as [Hb1 Hb2].
        apply String.eqb_eq in Hb1, Hb2. subst. eauto.
      * intros [constraintName Hk]. eexists. split; [exact Hk|].
        cbn beta iota. rewrite !String.eqb_refl. reflexivity.
    + rewrite existsb_exists. split.
      * intros ([[name constraintName] columnType] & Hk & Hb).
        apply andb_prop in Hb. destruct Hb as [Hb Hb3].
        apply andb_prop in Hb. destruct Hb as [Hb1 Hb2].
        apply String.eqb_eq in Hb1, Hb2. subst.
        rewrite countConstraints_rowsNamed in Hb3.
        exists constraintName. split; [exact Hk | lia].
      * intros (constraintName & Hk & Hone). eexists. split; [exact Hk|].
        cbn beta iota. rewrite !String.eqb_refl, countConstraints_rowsNamed, Hone.
        reflexivity.
Qed.

Lemma ColumnTypes_key_flags_witness :
  let m := exampleMigrator defaultConfig in
  let value := Model (sha256Model "bs" true) in
  let c : Conn catalogServer := @connect catalogServer catalogAsBs in
  exists columnTypes,
    (run (ColumnTypes m value) c).1 = Returned (columnTypes, None) /\
    map ColumnType_Name columnTypes
    = map cr_column_name (selectColumns catalogAsBs "public" "bs") /\
    forall ct, In ct columnTypes ->
      (Bool_ (PrimaryKeyValue ct) = true <->
       exists constraintName,
         In (ColumnType_Name ct, constraintName, "PRIMARY KEY")
            (selectKeyConstraintColumns catalogAsBs "public" "bs")) /\
      (Bool_ (UniqueValue ct) = true <->
       exists constraintName,
         In (ColumnType_Name ct, constraintName, "UNIQUE")
            (selectKeyConstraintColumns catalogAsBs "public" "bs") /\
         rowsNamed constraintName
           (selectUniqueConstraintNames catalogAsBs "public" "bs") = 1%nat).
Proof.
  intros m value c.
  apply (ColumnTypes_key_flags m value c
           (mkStmt "bs" (Some (sha256Model "bs" true)) [])
           (SchemaName "public") "bs"
           (selectColumns catalogAsBs "public" "bs")
           (selectRawColumnTypes catalogAsBs "public" "bs")
           (selectUniqueConstraintNames catalogAsBs "public" "bs")
           (selectKeyConstraintColumns catalogAsBs "public" "bs")
           (selectSpannerTypes catalogAsBs "public" "bs")).
  - reflexivity.
  - reflexivity.
  - reflexivity.
  - reflexivity.
  - reflexivity.
  - reflexivity.
  - reflexivity.
  - apply (bool_decide_unpack _). vm_compute. exact I.
Defined.

(** ** The columns that [ColumnTypes] reports *)

Section Kept.

(** A reading of a column that none of the later passes of [ColumnTypes]
    changes. *)
Context {X : Type} (g : ColumnType -> X).
Hypothesis g_SQLColumnType : forall ct c, g (with_SQLColumnType ct c) = g ct.
Hypothesis g_PrimaryKeyValue : forall ct v, g (with_PrimaryKeyValue ct v) = g ct.
Hypothesis g_UniqueValue : forall ct v, g (with_UniqueValue ct v) = g ct.
Hypothesis g_types : forall ct d t, g (with_types ct d t) = g ct.

Lemma assignSQLColumnTypes_keeps (raws : list RawColumnType)
  (cts : list ColumnType) :
  map g (assignSQLColumnTypes raws cts) = map g cts.
Proof.
  unfold assignSQLColumnTypes. rewrite map_map. apply map_ext.
  intros ct. destruct (find _ raws); [apply g_SQLColumnType | reflexivity].
Qed.

Lemma markKeys_keeps (u : gmap string Z)
  (ks : list (string * string * string)) (cts : list ColumnType) :
  map g (markKeys u ks cts) = map g cts.
Proof.
  revert cts. induction ks as [|[[name constraintName] columnType] ks IH];
    intros cts; cbn [markKeys foldl]; [reflexivity|].
  unfold markKeys in IH. rewrite IH.
  apply updateFirst_keeps. intros mc.
  destruct (String.eqb columnType "PRIMARY KEY"); [apply g_PrimaryKeyValue|].
  destruct (String.eqb columnType "UNIQUE"); [|reflexivity].
  destruct (default 0 (u !! constraintName) =? 1);
    [apply g_UniqueValue | reflexivity].
Qed.

Lemma assignSpannerTypes_keeps (ts : list (string * string))
  (cts : list ColumnType) :
  map g (assignSpannerTypes ts cts) = map g cts.
Proof.
  revert cts. induction ts as [|[name dataType] ts IH]; intros cts;
    cbn [assignSpannerTypes foldl]; [reflexivity|].
  unfold assignSpannerTypes in IH. rewrite IH.
  apply updateFirst_keeps. intros mc. apply g_types.
Qed.

(** Whatever [ColumnTypes] returns, with or without an error, is empty or
    has one column per row scanned from the column query, which reads as
    the column built from that row. *)
Lemma ColumnTypes_keeps {srv} (m : Migrator) (value : Value) (c : Conn srv)
  (cts : list ColumnType) (e : option Err) :
  (run (ColumnTypes m value) c).1 = Returned (cts, e) ->
  cts = [] \/
  exists stmt rs,
    ParseValue value = inr stmt /\
    answer srv (live c)
      (QColumns (CurrentSchema m stmt (stmt_Table stmt)).1
                (CurrentSchema m stmt (stmt_Table stmt)).2) = inr rs /\
    map g cts = map (fun r => g (columnOfRow r)) (rows rs).
Proof.
  unfold ColumnTypes.
  destruct (ParseValue value) as [err|stmt] eqn:Hv.
  { cbn. intros H. injection H as <- _. left. reflexivity. }
  destruct (CurrentSchema m stmt (stmt_Table stmt)) as [schema table] eqn:Hs.
  rewrite run_mbind, run_query.
  destruct (answer srv (live c) (QColumns schema table)) as [err|columns] eqn:Q1.
  { cbn. intros H. injection H as <- _. left. reflexivity. }
  intros H. right. exists stmt, columns. rewrite Hs. cbn [fst snd].
  split; [reflexivity|]. split; [exact Q1|].
  revert H. cbn [fst snd].
  assert (N0 : map g (map columnOfRow (rows columns))
               = map (fun r => g (columnOfRow r)) (rows columns))
    by apply map_map.
  destruct (rowsErr columns).
  { cbn. intros H. injection H as <- _. exact N0. }
  rewrite run_mbind, run_query.
  destruct (answer srv (live c) (QRawColumnTypes schema table)) as [err|raw].
  { cbn. intros H. injection H as <- _. exact N0. }
  pose proof (assignSQLColumnTypes_keeps (rows raw) (map columnOfRow (rows columns)))
    as N1. rewrite N0 in N1.
  destruct (rowsErr raw).
  { cbn. intros H. injection H as <- _. exact N1. }
  rewrite run_mbind, run_query.
  destruct (answer srv (live c) (QUniqueConstraintNames schema table)) as [err|uniq].
  { cbn. intros H. injection H as <- _. exact N1. }
  destruct (rowsErr uniq).
  { cbn. intros H. injection H as <- _. exact N1. }
  rewrite run_mbind, run_query.
  destruct (answer srv (live c) (QKeyConstraintColumns schema table)) as [err|keys].
  { cbn. intros H. injection H as <- _. exact N1. }
  pose proof (markKeys_keeps (countConstraints (rows uniq)) (rows keys)
                (assignSQLColumnTypes (rows raw) (map columnOfRow (rows columns))))
    as N2. rewrite N1 in N2.
  destruct (rowsErr keys).
  { cbn. intros H. injection H as <- _. exact N2. }
  rewrite run_mbind, run_query.
  destruct (answer srv (live c) (QSpannerTypes schema table)) as [err|types].
  { cbn. intros H. injection H as <- _. exact N2. }
  pose proof (assignSpannerTypes_keeps (rows types)
                (markKeys (countConstraints (rows uniq)) (rows keys)
                   (assignSQLColumnTypes (rows raw) (map columnOfRow (rows columns)))))
    as N3. rewrite N2 in N3.
  destruct (rowsErr types); cbn; intros H; injection H as <- _; exact N3.
Qed.

End Kept.

Lemma ColumnTypes_names {srv} (m : Migrator) (value : Value) (c : Conn srv)
  (cts : list ColumnType) (e : option Err) :
  (run (ColumnTypes m value) c).1 = Returned (cts, e) ->
  cts = [] \/
  exists stmt rs,
    ParseValue value = inr stmt /\
    answer srv (live c)
      (QColumns (CurrentSchema m stmt (stmt_Table stmt)).1
                (CurrentSchema m stmt (stmt_Table stmt)).2) = inr rs /\
    map NameValue cts = map (fun r => Some (cr_column_name r)) (rows rs).
Proof. apply (ColumnTypes_keeps NameValue); reflexivity. Qed.

Lemma joinColumns_In (cols : list ColumnInfo) (types : list PgType)
  (descriptions : list PgDescription) (schema table : string) (r : ColumnRow) :
  In r (joinColumns cols types descriptions schema table) ->
  exists col, In col cols /\ ofTable schema table col = true /\
    ci_column_name col = cr_column_name r /\ cr_column_name r <> generatedId.
Proof.
  unfold joinColumns. rewrite in_flat_map. intros (col & Hcol & Hr).
  exists col. split; [exact Hcol|].
  destruct (ofTable schema table col) eqn:Ht; [|destruct Hr].
  destruct (String.eqb (ci_column_name col) generatedId) eqn:Hg; [destruct Hr|].
  cbn [andb negb] in Hr. apply in_flat_map in Hr. destruct Hr as (pgt & _ & Hr).
  apply in_map_iff in Hr. destruct Hr as (pd & <- & _). cbn [cr_column_name].
  split; [reflexivity|]. split; [reflexivity|].
  apply String.eqb_neq. exact Hg.
Qed.

(** X5. The key column that [CreateTable] adds on its own is never
    reported: whatever [ColumnTypes] returns from a catalog, with or
    without an error, no column is named [spanner_gorm_generated_id], and
    every column reported is a column that the catalog holds for the
    table and schema that were asked for. *)
Theorem ColumnTypes_hides_generated_id (m : Migrator) (value : Value)
  (c : Conn catalogServer) (cts : list ColumnType) (e : option Err) :
  (run (ColumnTypes m value) c).1 = Returned (cts, e) ->
  forall ct, In ct cts ->
    ColumnType_Name ct <> generatedId /\
    exists stmt schema table col,
      ParseValue value = inr stmt /\
      CurrentSchema m stmt (stmt_Table stmt) = (SchemaName schema, table) /\
      In col (cat_columns (live c)) /\
      ci_table_schema col = schema /\ ci_table_name col = table /\
      ci_column_name col = ColumnType_Name ct.
Proof.
  intros Hrun ct Hin.
  destruct (ColumnTypes_names m value c cts e Hrun)
    as [-> | (stmt & rs & Hv & Hq & Hn)]; [destruct Hin|].
  destruct (CurrentSchema m stmt (stmt_Table stmt)) as [schema table] eqn:Hs.
  cbn [fst snd answer catalogServer catalogAnswer] in Hq.
  destruct schema as [sql|schema]; [discriminate|].
  cbn [onSchema] in Hq. injection Hq as <-. cbn [rows okRows] in Hn.
  apply (in_map NameValue) in Hin. rewrite Hn in Hin.
  apply in_map_iff in Hin. destruct Hin as (r & Hname & Hr).
  symmetry in Hname. rewrite (ColumnType_Name_of_NameValue ct _ Hname).
  destruct (joinColumns_In _ _ _ _ _ _ Hr) as (col & Hcol & Ht & Hc & Hg).
  split; [exact Hg|].
  exists stmt, schema, table, col.
  unfold ofTable in Ht. apply andb_prop in Ht. destruct Ht as [Ht1 Ht2].
  apply String.eqb_eq in Ht1, Ht2.
  repeat split; assumption.
Qed.

Lemma ColumnTypes_hides_generated_id_witness :
  let m := exampleMigrator defaultConfig in
  let value := TableName "notes" in
  let c : Conn catalogServer := @connect catalogServer catalogNotes in
  let cts := match (run (ColumnTypes m value) c).1 with
             | Returned r => r.1
             | Panicked _ => []
             end in
  cts <> [] /\
  forall ct, In ct cts ->
    ColumnType_Name ct <> generatedId /\
    exists stmt schema table col,
      ParseValue value = inr stmt /\
      CurrentSchema m stmt (stmt_Table stmt) = (SchemaName schema, table) /\
      In col (cat_columns (live c)) /\
      ci_table_schema col = schema /\ ci_table_name col = table /\
      ci_column_name col = ColumnType_Name ct.
Proof.
  intros m value c cts. split; [vm_compute; discriminate|].
  apply (ColumnTypes_hides_generated_id m value c cts None).
  vm_compute. reflexivity.
Defined.

(** ** [AlterColumn] *)

Lemma findFieldColumnType_none (dbName : string) (cts : list ColumnType) :
  (forall ct, In ct cts -> ColumnType_Name ct <> dbName) ->
  findFieldColumnType dbName cts = None.
Proof.
  unfold findFieldColumnType. intros H.
  assert (G : forall found,
    foldl (fun found columnType =>
             if String.eqb (ColumnType_Name columnType) dbName
             then Some columnType else found) found cts = found).
  { induction cts as [|ct cts IH]; intros found; cbn [foldl]; [reflexivity|].
    destruct (String.eqb (ColumnType_Name ct) dbName) eqn:E.
    - apply String.eqb_eq in E. exfalso. apply (H ct); [left; reflexivity | exact E].
    - apply IH. intros ct' Hin. apply H. right. exact Hin. }
  apply G.
Qed.

Lemma run_query_only_eq {srv A} (p : Prog A) (c : Conn srv) (o : Outcome A) :
  query_only p -> (run p c).1 = o -> run p c = (o, c).
Proof.
  intros Hq Ho. pose proof (run_query_only p c Hq) as Hc.
  destruct (run p c) as [o' c']. cbn [fst snd] in *. congruence.
Qed.

(** X6. [AlterColumn] drops the error of [ColumnTypes]: for a column
    that is not generated and a field that the schema knows, when
    [ColumnTypes] reports no column under the field's name, be it because
    the table has none or because its query failed, the call sends
    nothing and returns "column type not found", not the query error. *)
Theorem AlterColumn_column_type_not_found {srv} (m : Migrator) (sch : Schema)
  (field : string) (field_ : Field) (c : Conn srv)
  (cts : list ColumnType) (e : option Err) :
  (run (isColumnGenerated m (Model sch) field) c).1 = Returned false ->
  LookUpField sch field = Some field_ ->
  (run (ColumnTypes m (Model sch)) c).1 = Returned (cts, e) ->
  (forall ct, In ct cts -> ColumnType_Name ct <> DBName field_) ->
  run (AlterColumn m (Model sch) field) c
  = (Returned (Some (errColumnTypeNotFound (DBName field_))), c).
Proof.
  intros Hg Hf Hct Hnone. unfold AlterColumn.
  rewrite run_mbind.
  rewrite (run_query_only_eq _ c _ (query_only_isColumnGenerated m _ field) Hg).
  unfold RunWithValue_. cbn [ParseValue stmt_Schema]. rewrite Hf.
  rewrite run_mbind.
  rewrite (run_query_only_eq _ c _ (query_only_ColumnTypes m _) Hct).
  cbn [fst snd]. rewrite (findFieldColumnType_none _ _ Hnone). reflexivity.
Qed.

Lemma AlterColumn_column_type_not_found_witness :
  let m := exampleMigrator defaultConfig in
  let c : Conn catalogServer := @connect catalogServer catalogAs in
  run (AlterColumn m (Model notesModel) "Body") c
  = (Returned (Some (errColumnTypeNotFound "body")), c).
Proof.
  intros m c.
  apply (AlterColumn_column_type_not_found m notesModel "Body"
           (exampleField "Body" "body" "varchar") c [] None).
  - reflexivity.
  - reflexivity.
  - reflexivity.
  - intros ct [].
Defined.

(** X7. [AlterColumn] leaves a column alone that agrees with its field:
    when the column is not generated, its reported type equals the
    field's type up to case, its nullability is known and it is nullable
    exactly when the field is not declared NOT NULL, and its default is the field's (none reported when
    the field has no default value of its own), the call sends nothing
    and returns nil. *)
Theorem AlterColumn_in_sync_sends_nothing {srv} (m : Migrator) (sch : Schema)
  (field : string) (field_ : Field) (c : Conn srv)
  (cts : list ColumnType) (e : option Err) (fieldColumnType : ColumnType) :
  (run (isColumnGenerated m (Model sch) field) c).1 = Returned false ->
  LookUpField sch field = Some field_ ->
  (run (ColumnTypes m (Model sch)) c).1 = Returned (cts, e) ->
  findFieldColumnType (DBName field_) cts = Some fieldColumnType ->
  EqualFold (DatabaseTypeName fieldColumnType) (base_DataTypeOf m field_) = true ->
  Valid (NullableValue fieldColumnType) = true ->
  Bool_ (NullableValue fieldColumnType) = negb (NotNull field_) ->
  NullString_String (DefaultValueValue fieldColumnType) = DefaultValue field_ ->
  (DefaultValueInterface field_ = None -> DefaultValueValue fieldColumnType = None) ->
  run (AlterColumn m (Model sch) field) c = (Returned None, c).
Proof.
  intros Hg Hf Hct Hfind Htype _ Hnull Hdef Hnodef. unfold AlterColumn.
  rewrite run_mbind.
  rewrite (run_query_only_eq _ c _ (query_only_isColumnGenerated m _ field) Hg).
  unfold RunWithValue_. cbn [ParseValue stmt_Schema]. rewrite Hf.
  rewrite run_mbind.
  rewrite (run_query_only_eq _ c _ (query_only_ColumnTypes m _) Hct).
  cbn [fst snd]. rewrite Hfind.
  rewrite run_mbind. unfold alterType. rewrite Htype. cbn [orb negb].
  rewrite run_Ret. rewrite run_mbind.
  unfold alterNullable. rewrite Hnull.
  replace (Bool.eqb (negb (NotNull field_)) (NotNull field_)) with false
    by (destruct (NotNull field_); reflexivity).
  rewrite run_Ret. unfold alterDefault. rewrite Hdef, String.eqb_refl.
  cbn [negb orb].
  destruct (DefaultValueInterface field_) as [dv|] eqn:Hdv.
  - reflexivity.
  - rewrite (Hnodef eq_refl). reflexivity.
Qed.

Lemma AlterColumn_in_sync_sends_nothing_witness :
  let m := exampleMigrator defaultConfig in
  let c : Conn catalogServer := @connect catalogServer catalogNotes in
  run (AlterColumn m (Model notesModel) "Body") c = (Returned None, c).
Proof.
  intros m c.
  apply (AlterColumn_in_sync_sends_nothing m notesModel "Body"
           (exampleField "Body" "body" "varchar") c
           (match (run (ColumnTypes m (Model notesModel)) c).1 with
            | Returned r => r.1
            | Panicked _ => []
            end) None
           (default (columnOfRow (mkColumnRow "" (mkNullBool false false) None None
                                    None None None None None None None None))
              (findFieldColumnType "body"
                 (match (run (ColumnTypes m (Model notesModel)) c).1 with
                  | Returned r => r.1
                  | Panicked _ => []
                  end)))).
  - reflexivity.
  - reflexivity.
  - vm_compute. reflexivity.
  - vm_compute. reflexivity.
  - vm_compute. reflexivity.
  - vm_compute. reflexivity.
  - vm_compute. reflexivity.
  - vm_compute. reflexivity.
  - intros _. vm_compute. reflexivity.
Defined.

(** ** Default values *)

Section Strings.

Lemma append_assoc (s t u : string) : (s +:+ t) +:+ u = s +:+ (t +:+ u).
Proof.
  induction s as [|a s IH]; [reflexivity|].
  change (String a ((s +:+ t) +:+ u) = String a (s +:+ (t +:+ u))).
  f_equal. exact IH.
Qed.

Lemma append_empty_r (s : string) : s +:+ "" = s.
Proof.
  induction s as [|a s IH]; [reflexivity|].
  change (String a (s +:+ "") = String a s). f_equal. exact IH.
Qed.

Lemma rev_app_append (s t : string) : String.rev_app s t = String.rev s +:+ t.
Proof.
  revert t. induction s as [|a s IH]; intros t; [reflexivity|].
  unfold String.rev. cbn [String.rev_app].
  rewrite (IH (String a t)), (IH (String a "")), append_assoc. reflexivity.
Qed.

Lemma rev_String (a : ascii) (s : string) :
  String.rev (String a s) = String.rev s +:+ String a "".
Proof. unfold String.rev at 1. cbn [String.rev_app]. apply rev_app_append. Qed.

Lemma rev_append (s t : string) :
  String.rev (s +:+ t) = String.rev t +:+ String.rev s.
Proof.
  induction s as [|a s IH].
  - symmetry. apply append_empty_r.
  - change (String a s +:+ t) with (String a (s +:+ t)).
    rewrite !rev_String, IH, append_assoc. reflexivity.
Qed.

Lemma rev_involutive (s : string) : String.rev (String.rev s) = s.
Proof.
  induction s as [|a s IH]; [reflexivity|].
  rewrite rev_String, rev_append, IH. reflexivity.
Qed.

Lemma prefix_char (a : ascii) (s : string) :
  String.prefix (String a "") s = true <-> exists r, s = String a r.
Proof.
  destruct s as [|b r]; cbn.
  - split; [discriminate | intros [r H]; discriminate].
  - destruct (ascii_dec a b) as [->|Hne].
    + split; [eauto | destruct r; reflexivity].
    + split; [discriminate | intros [r' H]; congruence].
Qed.

(** What [trimLeftChar] leaves does not start with the character. *)
Lemma trimLeftChar_head (cut : ascii) (s : string) :
  String.prefix (String cut "") (trimLeftChar cut s) = false.
Proof.
  induction s as [|a s IH]; cbn [trimLeftChar]; [reflexivity|].
  destruct (Ascii.eqb a cut) eqn:E; [exact IH|].
  apply Ascii.eqb_neq in E. cbn.
  destruct (ascii_dec cut a); [congruence | reflexivity].
Qed.

Lemma trimLeftChar_suffix (cut : ascii) (s : string) :
  exists p, s = p +:+ trimLeftChar cut s.
Proof.
  induction s as [|a s [p IH]]; cbn [trimLeftChar].
  - exists "". reflexivity.
  - destruct (Ascii.eqb a cut).
    + exists (String a p).
      change (String a s = String a (p +:+ trimLeftChar cut s)).
      f_equal. exact IH.
    + exists "". reflexivity.
Qed.

Lemma trimLeftChar_without (cut : ascii) (s : string) :
  containsChar cut s = false -> trimLeftChar cut s = s.
Proof.
  destruct s as [|a s]; cbn; [reflexivity|].
  rewrite Ascii.eqb_sym. destruct (Ascii.eqb a cut); [discriminate | reflexivity].
Qed.

Lemma containsChar_append (c : ascii) (s t : string) :
  containsChar c (s +:+ t) = containsChar c s || containsChar c t.
Proof.
  induction s as [|a s IH]; [reflexivity|].
  change (String a s +:+ t) with (String a (s +:+ t)).
  cbn [containsChar]. rewrite IH, orb_assoc. reflexivity.
Qed.

Lemma containsChar_rev (c : ascii) (s : string) :
  containsChar c (String.rev s) = containsChar c s.
Proof.
  induction s as [|a s IH]; [reflexivity|].
  rewrite rev_String, containsChar_append, IH. cbn.
  rewrite orb_false_r. apply orb_comm.
Qed.

(** [Trim] leaves the character at neither end. *)
Lemma Trim_ends (s : string) (cut : ascii) :
  HasPrefix (Trim s cut) (String cut "") = false /\
  HasSuffix (Trim s cut) (String cut "") = false.
Proof.
  unfold HasPrefix, HasSuffix, Trim.
  set (t := trimLeftChar cut s).
  set (u := trimLeftChar cut (String.rev t)).
  split.
  - destruct (trimLeftChar_suffix cut (String.rev t)) as [p Hp]. fold u in Hp.
    apply (f_equal String.rev) in Hp. rewrite rev_involutive, rev_append in Hp.
    destruct (String.rev u) as [|a w] eqn:Hu; [reflexivity|].
    pose proof (trimLeftChar_head cut s) as Hh. fold t in Hh.
    rewrite Hp in Hh.
    change (String a w +:+ String.rev p) with (String a (w +:+ String.rev p)) in Hh.
    cbn in Hh |- *. destruct (ascii_dec cut a); [|reflexivity].
    destruct (w +:+ String.rev p); discriminate.
  - rewrite rev_involutive. apply trimLeftChar_head.
Qed.

End Strings.

(** X8. The default value that [parseDefaultValueValue] returns never
    starts and never ends with a single quote, whatever the catalog's
    text is. *)
Theorem parseDefaultValueValue_unquoted (defaultValue : string) :
  HasPrefix (parseDefaultValueValue defaultValue) "'" = false /\
  HasSuffix (parseDefaultValueValue defaultValue) "'" = false.
Proof. unfold parseDefaultValueValue. apply Trim_ends. Qed.

Lemma prefix_head_ne (a b : ascii) (s t : string) :
  a <> b -> String.prefix (String a s) (String b t) = false.
Proof.
  intros Hne. cbn [String.prefix].
  destruct (ascii_dec a b); [contradiction | reflexivity].
Qed.

Lemma beforeCast_literal (v rest : string) :
  containsChar ":"%char v = false ->
  beforeCast (v +:+ "'::" +:+ rest) = v +:+ "'".
Proof.
  induction v as [|a v IH]; intros Hv.
  - destruct rest; reflexivity.
  - cbn [containsChar] in Hv. apply orb_false_elim in Hv. destruct Hv as [Ha Hv].
    change (String a v +:+ "'::" +:+ rest) with (String a (v +:+ "'::" +:+ rest)).
    change (String a v +:+ "'") with (String a (v +:+ "'")).
    cbn [beforeCast]. rewrite (IH Hv).
    rewrite prefix_head_ne; [reflexivity|].
    apply Ascii.eqb_neq. exact Ha.
Qed.

(** X9. A quoted literal with a cast, the way the catalog prints the
    default of a text column, is read back as the literal: for a literal
    without quote, colon or line break and a type name without line
    break, [parseDefaultValueValue] of ['literal'::type] is the
    literal. *)
Theorem parseDefaultValueValue_literal (literal type : string) :
  containsChar "'"%char literal = false ->
  containsChar ":"%char literal = false ->
  containsChar "010"%char literal = false ->
  containsChar "010"%char type = false ->
  parseDefaultValueValue ("'" +:+ literal +:+ "'::" +:+ type) = literal.
Proof.
  intros Hq Hc Hn Ht. unfold parseDefaultValueValue.
  replace (containsChar "010" ("'" +:+ literal +:+ "'::" +:+ type)) with false.
  2:{ rewrite !containsChar_append, Hn, Ht. reflexivity. }
  change ("'" +:+ literal +:+ "'::" +:+ type)
    with (String "'" (literal +:+ "'::" +:+ type)).
  cbn [beforeCast].
  replace (String.prefix "::" (String "'" (literal +:+ "'::" +:+ type))) with false
    by reflexivity.
  rewrite (beforeCast_literal _ _ Hc).
  unfold Trim. cbn [trimLeftChar]. rewrite Ascii.eqb_refl.
  destruct literal as [|a v] eqn:Hl; [reflexivity|]. rewrite <- Hl in *.
  assert (Hfirst : trimLeftChar "'" (literal +:+ "'") = literal +:+ "'").
  { rewrite Hl. change (String a v +:+ "'") with (String a (v +:+ "'")).
    cbn [trimLeftChar]. rewrite Hl in Hq. cbn [containsChar] in Hq.
    apply orb_false_elim in Hq. destruct Hq as [Ha _].
    rewrite Ascii.eqb_sym, Ha. reflexivity. }
  rewrite Hfirst, rev_append.
  change (String.rev "'" +:+ String.rev literal) with (String "'" (String.rev literal)).
  cbn [trimLeftChar]. rewrite Ascii.eqb_refl.
  rewrite trimLeftChar_without by (rewrite containsChar_rev; exact Hq).
  apply rev_involutive.
Qed.

Lemma parseDefaultValueValue_literal_witness :
  parseDefaultValueValue ("'" +:+ "active" +:+ "'::" +:+ "character varying")
  = "active".
Proof.
  apply (parseDefaultValueValue_literal "active" "character varying");
    reflexivity.
Defined.

(** X10. The passes of [ColumnTypes] after the column query never touch
    what was scanned from it: every column returned, with or without an
    error, has the name, nullability, length, precision, scale, default,
    comment and auto-increment flag of the column built from one scanned
    row.  So a column reported as auto-increment has no default value,
    and a reported default value has no quote at either end. *)
Theorem ColumnTypes_keeps_scanned {srv} (m : Migrator) (value : Value)
  (c : Conn srv) (cts : list ColumnType) (e : option Err) :
  (run (ColumnTypes m value) c).1 = Returned (cts, e) ->
  forall ct, In ct cts ->
    (exists stmt rs r,
       ParseValue value = inr stmt /\
       answer srv (live c)
         (QColumns (CurrentSchema m stmt (stmt_Table stmt)).1
                   (CurrentSchema m stmt (stmt_Table stmt)).2) = inr rs /\
       In r (rows rs) /\ scanned ct = scanned (columnOfRow r)) /\
    (Bool_ (AutoIncrementValue ct) = true -> DefaultValueValue ct = None) /\
    (forall d, DefaultValueValue ct = Some d ->
       HasPrefix d "'" = false /\ HasSuffix d "'" = false).
Proof.
  intros Hrun ct Hin.
  destruct (ColumnTypes_keeps scanned
              (fun _ _ => eq_refl) (fun _ _ => eq_refl) (fun _ _ => eq_refl)
              (fun _ _ _ => eq_refl) m value c cts e Hrun)
    as [-> | (stmt & rs & Hv & Hq & Hs)]; [destruct Hin|].
  apply (in_map scanned) in Hin. rewrite Hs in Hin.
  apply in_map_iff in Hin. destruct Hin as (r & Hr & Hin).
  assert (Hauto : AutoIncrementValue ct = AutoIncrementValue (columnOfRow r))
    by (unfold scanned in Hr; congruence).
  assert (Hdef : DefaultValueValue ct = DefaultValueValue (columnOfRow r))
    by (unfold scanned in Hr; congruence).
  split; [|split].
  - exists stmt, rs, r. auto.
  - rewrite Hauto, Hdef. unfold columnOfRow.
    cbn [AutoIncrementValue DefaultValueValue].
    destruct (_ || _); [reflexivity | discriminate].
  - intros d. rewrite Hdef. unfold columnOfRow. cbn [DefaultValueValue].
    destruct (_ || _); [discriminate|].
    destruct (cr_column_default r) as [text|]; [|discriminate].
    cbn. intros H. injection H as <-. unfold parseDefaultValueValue.
    apply Trim_ends.
Qed.

Lemma ColumnTypes_keeps_scanned_witness :
  let m := exampleMigrator defaultConfig in
  let value := Model (sha256Model "bs" true) in
  let c : Conn catalogServer := @connect catalogServer catalogAsBs in
  let cts := match (run (ColumnTypes m value) c).1 with
             | Returned r => r.1
             | Panicked _ => []
             end in
  cts <> [] /\
  forall ct, In ct cts ->
    (exists stmt rs r,
       ParseValue value = inr stmt /\
       answer catalogServer (live c)
         (QColumns (CurrentSchema m stmt (stmt_Table stmt)).1
                   (CurrentSchema m stmt (stmt_Table stmt)).2) = inr rs /\
       In r (rows rs) /\ scanned ct = scanned (columnOfRow r)) /\
    (Bool_ (AutoIncrementValue ct) = true -> DefaultValueValue ct = None) /\
    (forall d, DefaultValueValue ct = Some d ->
       HasPrefix d "'" = false /\ HasSuffix d "'" = false).
Proof.
  intros m value c cts. split; [vm_compute; discriminate|].
  apply (ColumnTypes_keeps_scanned m value c cts None).
  vm_compute. reflexivity.
Defined.

(** ** Auto-increment columns *)

Lemma prefix_append (p s : string) : String.prefix p (p +:+ s) = true.
Proof.
  induction p as [|a p IH]; [destruct s; reflexivity|].
  change (String a p +:+ s) with (String a (p +:+ s)). cbn [String.prefix].
  destruct (ascii_dec a a); [exact IH | contradiction].
Qed.

Lemma HasSuffix_append (s post : string) : HasSuffix (s +:+ post) post = true.
Proof. unfold HasSuffix. rewrite rev_append. apply prefix_append. Qed.

Lemma length_append (s t : string) :
  String.length (s +:+ t) = (String.length s + String.length t)%nat.
Proof.
  induction s as [|a s IH]; [reflexivity|].
  change (String a s +:+ t) with (String a (s +:+ t)).
  cbn [String.length]. rewrite IH. reflexivity.
Qed.

Lemma substring_prefix_length (s t : string) :
  String.substring 0 (String.length s) (s +:+ t) = s.
Proof.
  induction s as [|a s IH]; [destruct t; reflexivity|].
  change (String a s +:+ t) with (String a (s +:+ t)).
  cbn [String.length String.substring]. rewrite IH. reflexivity.
Qed.

Lemma substring_middle (p s t : string) :
  String.substring (String.length p) (String.length s) (p +:+ s +:+ t) = s.
Proof.
  induction p as [|a p IH]; [exact (substring_prefix_length s t)|].
  change (String a p +:+ s +:+ t) with (String a (p +:+ s +:+ t)).
  cbn [String.length String.substring]. exact IH.
Qed.

Lemma autoIncrementValuePattern_nextval (sequence : string) :
  containsChar "'"%char sequence = false ->
  autoIncrementValuePattern ("nextval('" +:+ sequence +:+ "_seq'::regclass)") = true.
Proof.
  intros Hq. unfold autoIncrementValuePattern.
  set (name := sequence +:+ "_seq").
  assert (Htext : "nextval('" +:+ sequence +:+ "_seq'::regclass)"
                  = "nextval('" +:+ name +:+ "'::regclass)").
  { unfold name. rewrite append_assoc. reflexivity. }
  rewrite Htext.
  assert (Hlen : String.length ("nextval('" +:+ name +:+ "'::regclass)")
                 = (String.length "nextval('" + String.length name
                    + String.length "'::regclass)")%nat).
  { rewrite !length_append. lia. }
  unfold HasPrefix. rewrite prefix_append. cbn [andb].
  replace (HasSuffix ("nextval('" +:+ name +:+ "'::regclass)") "'::regclass)")
    with true.
  2:{ rewrite <- append_assoc. symmetry. apply HasSuffix_append. }
  cbn [andb]. rewrite Hlen.
  replace (Nat.leb _ _) with true by (symmetry; apply Nat.leb_le; lia).
  cbn [andb].
  replace (String.length "nextval('" + String.length name
           + String.length "'::regclass)" - String.length "nextval('"
           - String.length "'::regclass)")%nat
    with (String.length name) by lia.
  rewrite substring_middle.
  assert (Hname : containsChar "'" name = false).
  { unfold name. rewrite containsChar_append, Hq. reflexivity. }
  rewrite Hname. cbn [negb andb].
  assert (Hrev : String.rev name = "qes_" +:+ String.rev sequence).
  { unfold name. rewrite rev_append. reflexivity. }
  assert (Hd : HasSuffix name dquote = false).
  { unfold HasSuffix. rewrite Hrev. reflexivity. }
  rewrite Hd. unfold HasSuffix. rewrite Hrev.
  replace (String.prefix (String.rev "seq") ("qes_" +:+ String.rev sequence))
    with true by reflexivity.
  cbn [andb]. apply Nat.leb_le. unfold name. rewrite length_append.
  cbn [String.length]. lia.
Qed.

(** X11. A column whose default is [nextval] of a sequence named
    [..._seq], or whose identity increment is set, is reported as
    auto-increment and without a default value. *)
Theorem columnOfRow_auto_increment (row : ColumnRow) (sequence : string) :
  (containsChar "'"%char sequence = false /\
   cr_column_default row = Some ("nextval('" +:+ sequence +:+ "_seq'::regclass)"))
  \/ (exists increment,
        cr_identity_increment row = Some increment /\ increment <> "") ->
  AutoIncrementValue (columnOfRow row) = mkNullBool true true /\
  DefaultValueValue (columnOfRow row) = None.
Proof.
  intros H. unfold columnOfRow. cbn [AutoIncrementValue DefaultValueValue].
  replace (_ || _) with true; [split; reflexivity|].
  symmetry. destruct H as [[Hq Hd] | (increment & Hi & Hne)].
  - rewrite Hd. cbn [NullString_String default].
    unfold id. rewrite (autoIncrementValuePattern_nextval _ Hq). reflexivity.
  - rewrite Hi. apply String.eqb_neq in Hne. rewrite Hne. apply orb_true_r.
Qed.

Lemma columnOfRow_auto_increment_witness :
  let row := mkColumnRow "id" (mkNullBool false true) (Some "int8") None None
               None None None None
               (Some ("nextval('" +:+ "singers_id" +:+ "_seq'::regclass)"))
               None None in
  AutoIncrementValue (columnOfRow row) = mkNullBool true true /\
  DefaultValueValue (columnOfRow row) = None.
Proof.
  intros row. apply (columnOfRow_auto_increment row "singers_id").
  left. split; reflexivity.
Defined.

(** ** Column types of the dialect *)

(** X12. An auto-increment field is declared [serial], whatever its Go
    type and whatever the embedded dialector would say, unless it is a
    float or a time; and the sequence that [AlterColumn] creates or
    updates for such a field is of type [integer]. *)
Theorem DataTypeOf_auto_increment_serial (pgDataTypeOf : Field -> string)
  (field : Field) :
  AutoIncrement field = true ->
  DataType field <> "float" ->
  DataType field <> "time" ->
  DataTypeOf pgDataTypeOf field = "serial" /\
  getSerialDatabaseType (DataTypeOf pgDataTypeOf field) = ("integer", true).
Proof.
  intros Ha Hf Ht.
  assert (H : DataTypeOf pgDataTypeOf field = "serial").
  { unfold DataTypeOf. rewrite Ha.
    apply String.eqb_neq in Hf, Ht. rewrite Hf, Ht.
    destruct (_ || _); reflexivity. }
  rewrite H. split; reflexivity.
Qed.

Lemma DataTypeOf_auto_increment_serial_witness :
  DataTypeOf DataType idField = "serial" /\
  getSerialDatabaseType (DataTypeOf DataType idField) = ("integer", true).
Proof.
  apply (DataTypeOf_auto_increment_serial DataType idField).
  - reflexivity.
  - discriminate.
  - discriminate.
Defined.

(** ** Clause builders *)

(** X13. The LIMIT builder gives a query with an offset and no limit the
    largest limit that does not overflow: for a positive offset the
    limit becomes [MaxInt - Offset], which is not negative and adds up
    with the offset to exactly [MaxInt]; the offset is kept. *)
Theorem ClauseLimit_fills_limit (limit : LimitClause) :
  MinInt <= Offset limit <= MaxInt ->
  0 < Offset limit ->
  Limit limit = None ->
  exists l,
    ClauseLimit (ExprLimit limit)
    = ExprLimit (mkLimitClause (Some l) (Offset limit)) /\
    0 <= l < MaxInt /\ l + Offset limit = MaxInt.
Proof.
  intros Hrange Hpos Hnil. unfold ClauseLimit.
  apply Z.ltb_lt in Hpos as Hb. rewrite Hb, Hnil. cbn [andb bool_decide].
  rewrite bool_decide_true by reflexivity.
  exists (MaxInt - Offset limit).
  assert (Hsub : subInt MaxInt (Offset limit) = MaxInt - Offset limit).
  { unfold subInt, MaxInt, MinInt in *. rewrite Z.mod_small; lia. }
  rewrite Hsub. unfold MaxInt, MinInt in *. repeat split; lia.
Qed.

Lemma ClauseLimit_fills_limit_witness :
  exists l,
    ClauseLimit (ExprLimit (mkLimitClause None 10))
    = ExprLimit (mkLimitClause (Some l) 10) /\
    0 <= l < MaxInt /\ l + 10 = MaxInt.
Proof.
  apply (ClauseLimit_fills_limit (mkLimitClause None 10)).
  - unfold MinInt, MaxInt. cbn [Offset]. lia.
  - cbn [Offset]. lia.
  - reflexivity.
Defined.

(** ** The primary key that [CreateTable] adds *)

Lemma hasPrimaryKeyInDataType_app (m : Migrator) (byDBName : gmap string Field)
  (l1 l2 : list string) (has : bool) :
  hasPrimaryKeyInDataType m byDBName (l1 ++ l2) has
  = match hasPrimaryKeyInDataType m byDBName l1 has with
    | Some h => hasPrimaryKeyInDataType m byDBName l2 h
    | None => None
    end.
Proof.
  revert has. induction l1 as [|n l1 IH]; intros has; cbn; [reflexivity|].
  destruct (byDBName !! n); [apply IH | reflexivity].
Qed.

(** The loop fails exactly when a name has no entry. *)
Lemma hasPrimaryKeyInDataType_Some (m : Migrator) (byDBName : gmap string Field)
  (l : list string) (has : bool) :
  Forall (fun n => is_Some (byDBName !! n)) l <->
  is_Some (hasPrimaryKeyInDataType m byDBName l has).
Proof.
  revert has. induction l as [|n l IH]; intros has; cbn.
  - split; [eauto | constructor].
  - destruct (byDBName !! n) as [f|] eqn:Hn.
    + rewrite <- IH. split.
      * intros H. inversion H; assumption.
      * intros H. constructor; [rewrite Hn; eauto | exact H].
    + split.
      * intros H. inversion H as [|x l' Hx]; subst. rewrite Hn in Hx.
        destruct Hx as [? Hx]. discriminate.
      * intros [? H]. discriminate.
Qed.

(** X14. [CreateTable] adds its key column at most once: when the data
    type of the added field reads as it is declared, running the step
    that adds the key again on the schema it produced changes nothing,
    although the added field is not among the schema's primary fields. *)
Theorem addGeneratedPrimaryKey_once (m : Migrator) (s s' : Schema)
  (index index' : SchemaIndex) :
  base_DataTypeOf m generatedPrimaryKey = "serial primary key" ->
  addGeneratedPrimaryKey m s index = Returned (s', index') ->
  addGeneratedPrimaryKey m s' index' = Returned (s', index').
Proof.
  intros Htype. unfold addGeneratedPrimaryKey at 1.
  destruct (hasPrimaryKeyInDataType m (FieldsByDBName index) (DBNames index) false)
    as [has|] eqn:Hhas; [|discriminate].
  destruct (negb has && (length (PrimaryFields s) =? 0)%nat) eqn:Hadd.
  - intros H. injection H as <- <-. unfold addGeneratedPrimaryKey.
    cbn [DBNames FieldsByDBName PrimaryFields].
    rewrite hasPrimaryKeyInDataType_app.
    assert (Hsome : is_Some (hasPrimaryKeyInDataType m
                      (<["spanner_gorm_generated_id" := generatedPrimaryKey]>
                         (FieldsByDBName index)) (DBNames index) false)).
    { apply hasPrimaryKeyInDataType_Some.
      assert (Hall : Forall (fun n => is_Some (FieldsByDBName index !! n))
                            (DBNames index)).
      { apply (hasPrimaryKeyInDataType_Some m _ _ false). rewrite Hhas. eauto. }
      eapply Forall_impl; [exact Hall|]. intros n Hn. cbn beta in *.
      rewrite lookup_insert_is_Some.
      destruct (decide ("spanner_gorm_generated_id" = n));
        [left; assumption | right; split; assumption]. }
    destruct Hsome as [h ->]. cbn [hasPrimaryKeyInDataType].
    rewrite lookup_insert_eq. cbn [IgnoreMigration generatedPrimaryKey negb].
    rewrite Htype.
    replace (Contains (ToUpper "serial primary key") "PRIMARY KEY") with true
      by (vm_compute; reflexivity).
    rewrite orb_true_r. reflexivity.
  - intros H. injection H as <- <-. unfold addGeneratedPrimaryKey.
    rewrite Hhas, Hadd. reflexivity.
Qed.

Lemma addGeneratedPrimaryKey_once_witness :
  let m := exampleMigrator (mkSpannerConfig false false true) in
  let pk := generatedPrimaryKey in
  let s' := mkSchema "notes" (Fields notesModel ++ [pk]) [] (Some [])
              (fun name => if String.eqb name (DBName pk) then Some pk
                           else LookUpField notesModel name) in
  let index' := mkSchemaIndex ["body"; "spanner_gorm_generated_id"]
                  (<[DBName pk := pk]> (FieldsByDBName notesIndex))
                  (<[Name pk := pk]> (FieldsByName notesIndex)) in
  addGeneratedPrimaryKey m s' index' = Returned (s', index').
Proof.
  intros m pk s' index'.
  apply (addGeneratedPrimaryKey_once m notesModel s' notesIndex index').
  - reflexivity.
  - reflexivity.
Defined.

(** X15. The key that [CreateTable] adds is what ON CONFLICT DO NOTHING
    then names: for a schema without primary fields and without a
    PRIMARY KEY in a data type, the step adds the field to the fields,
    the names and both maps, leaves the primary fields empty, and the
    ON CONFLICT builder, given a DO NOTHING clause without columns on
    the resulting schema, ends the conflict target with
    [spanner_gorm_generated_id]. *)
Theorem ClauseOnConflict_targets_generated_key (m : Migrator) (s : Schema)
  (index : SchemaIndex) :
  PrimaryFields s = [] ->
  hasPrimaryKeyInDataType m (FieldsByDBName index) (DBNames index) false
    = Some false ->
  exists s' index',
    addGeneratedPrimaryKey m s index = Returned (s', index') /\
    Fields s' = Fields s ++ [generatedPrimaryKey] /\
    PrimaryFields s' = [] /\
    DBNames index' = DBNames index ++ [generatedId] /\
    FieldsByDBName index' !! generatedId = Some generatedPrimaryKey /\
    FieldsByName index' !! generatedId = Some generatedPrimaryKey /\
    exists columns,
      ClauseOnConflict (Some s') (ExprOnConflict (mkOnConflict [] true))
      = ExprOnConflict (mkOnConflict (columns ++ [generatedId]) true).
Proof.
  intros Hpk Hhas. unfold addGeneratedPrimaryKey. rewrite Hhas, Hpk.
  cbn [negb andb length Nat.eqb]. eexists _, _. split; [reflexivity|].
  cbn [Fields PrimaryFields DBNames FieldsByDBName FieldsByName].
  split; [reflexivity|]. split; [reflexivity|]. split; [reflexivity|].
  split; [apply lookup_insert_eq|]. split; [apply lookup_insert_eq|].
  unfold ClauseOnConflict.
  cbn [DoNothing Columns length Nat.eqb andb PrimaryFields Fields app].
  rewrite List.filter_app, map_app. cbn [List.filter].
  eexists. reflexivity.
Qed.

Lemma ClauseOnConflict_targets_generated_key_witness :
  let m := exampleMigrator (mkSpannerConfig false false true) in
  exists s' index',
    addGeneratedPrimaryKey m notesModel notesIndex = Returned (s', index') /\
    Fields s' = Fields notesModel ++ [generatedPrimaryKey] /\
    PrimaryFields s' = [] /\
    DBNames index' = DBNames notesIndex ++ [generatedId] /\
    FieldsByDBName index' !! generatedId = Some generatedPrimaryKey /\
    FieldsByName index' !! generatedId = Some generatedPrimaryKey /\
    exists columns,
      ClauseOnConflict (Some s') (ExprOnConflict (mkOnConflict [] true))
      = ExprOnConflict (mkOnConflict (columns ++ [generatedId]) true).
Proof.
  intros m.
  apply (ClauseOnConflict_targets_generated_key m notesModel notesIndex);
    reflexivity.
Defined.

(** ** [GetIndexes] *)

Lemma groupByIndexName_from (result : list IndexRow)
  (columnIndexMap : gmap string (list IndexRow)) (name : string) :
  foldl (fun (columnIndexMap : gmap string (list IndexRow)) idx =>
           <[ir_IndexName idx :=
               default [] (columnIndexMap !! ir_IndexName idx) ++ [idx]]>
             columnIndexMap)
        columnIndexMap result !! name
  = match rowsOfIndex name result with
    | [] => columnIndexMap !! name
    | group => Some (default [] (columnIndexMap !! name) ++ group)
    end.
Proof.
  revert columnIndexMap. induction result as [|r result IH];
    intros columnIndexMap; cbn [foldl]; [reflexivity|].
  rewrite IH. unfold rowsOfIndex. cbn [List.filter].
  destruct (String.eqb (ir_IndexName r) name) eqn:E.
  - apply String.eqb_eq in E. subst name. rewrite lookup_insert_eq.
    cbn [default]. unfold id.
    destruct (List.filter _ result); [reflexivity|].
    rewrite <- app_assoc. reflexivity.
  - apply String.eqb_neq in E. rewrite lookup_insert_ne by exact E. reflexivity.
Qed.

(** Each group holds the rows of its index, in query order, and there
    is a group for each index that has a row. *)
Lemma lookup_groupByIndexName (result : list IndexRow) (name : string) :
  groupByIndexName result !! name
  = match rowsOfIndex name result with
    | [] => None
    | group => Some group
    end.
Proof.
  unfold groupByIndexName. rewrite groupByIndexName_from, lookup_empty.
  destruct (rowsOfIndex name result); reflexivity.
Qed.

Lemma run_indexesOfGroups {srv} (groups : list (string * list IndexRow))
  (c : Conn srv) :
  Forall (fun g => g.2 <> []) groups ->
  exists indexes,
    run (indexesOfGroups (map snd groups)) c = (Returned indexes, c) /\
    Forall2 (fun g tempIdx => indexOfGroup g.2 = Some tempIdx) groups indexes.
Proof.
  induction groups as [|[name idx] groups IH]; intros Hne; cbn [map indexesOfGroups].
  - exists []. split; [reflexivity | constructor].
  - inversion Hne as [|x l Hidx Hrest]; subst. cbn [snd] in *.
    destruct (IH Hrest) as (indexes & Hrun & Hall).
    destruct idx as [|first idx]; [contradiction|]. cbn [indexOfGroup].
    rewrite run_mbind, Hrun. cbn [fst snd].
    eexists. split; [reflexivity|]. constructor; [reflexivity | exact Hall].
Qed.

Lemma rowsOfIndex_In (name : string) (result : list IndexRow) :
  rowsOfIndex name result <> [] <-> In name (map ir_IndexName result).
Proof.
  unfold rowsOfIndex. split.
  - intros Hne. destruct (List.filter _ result) as [|r l] eqn:Hf; [contradiction|].
    assert (Hr : In r (List.filter (fun r => String.eqb (ir_IndexName r) name) result))
      by (rewrite Hf; left; reflexivity).
    apply filter_In in Hr. destruct Hr as [Hin Hn].
    apply String.eqb_eq in Hn. subst name. apply in_map. exact Hin.
  - intros Hin Hnil. apply in_map_iff in Hin. destruct Hin as (r & <- & Hin).
    assert (Hr : In r (List.filter (fun r' => String.eqb (ir_IndexName r') (ir_IndexName r))
                                   result)).
    { apply filter_In. split; [exact Hin | apply String.eqb_refl]. }
    rewrite Hnil in Hr. destruct Hr.
Qed.

(** X16. [GetIndexes] returns one index per index name among the rows
    of its query, whatever the order: no name twice, a name exactly when
    a row has it; the columns of an index are the columns of its rows in
    query order, and its table and its primary and unique flags are
    those of its first row. *)
Theorem GetIndexes_one_per_name {srv} (m : Migrator) (value : Value)
  (c : Conn srv) (stmt : Stmt) (result : list IndexRow) :
  ParseValue value = inr stmt ->
  answer srv (live c) (QIndexColumns (stmt_Table stmt))
    = inr (mkRowSet result None) ->
  exists indexes,
    run (GetIndexes m value) c = (Returned (indexes, None), c) /\
    NoDup (map idx_NameValue indexes) /\
    (forall name,
       In name (map idx_NameValue indexes) <-> In name (map ir_IndexName result)) /\
    forall index, In index indexes ->
      idx_ColumnList index
      = map ir_ColumnName (rowsOfIndex (idx_NameValue index) result) /\
      exists first,
        head (rowsOfIndex (idx_NameValue index) result) = Some first /\
        idx_TableName index = ir_TableName first /\
        idx_PrimaryKeyValue index = mkNullBool (ir_Primary first) true /\
        idx_UniqueValue index = mkNullBool (ir_NonUnique first) true.
Proof.
  intros Hv Hq. unfold GetIndexes. rewrite Hv, run_mbind, run_query, Hq.
  cbn [rows rowsErr].
  set (groups := map_to_list (groupByIndexName result)).
  assert (Hgroups : Forall (fun g => g.2 <> [] /\ g.2 = rowsOfIndex g.1 result) groups).
  { apply Forall_forall. intros [name idx] Hin. cbn [fst snd].
    apply elem_of_map_to_list in Hin. rewrite lookup_groupByIndexName in Hin.
    destruct (rowsOfIndex name result) as [|r l]; [discriminate|].
    injection Hin as <-. split; [discriminate | reflexivity]. }
  destruct (run_indexesOfGroups groups c) as (indexes & Hrun & Hall).
  { eapply Forall_impl; [exact Hgroups|]. intros g [H _]. exact H. }
  rewrite run_mbind, Hrun. cbn [fst snd]. exists indexes.
  split; [reflexivity|].
  assert (Hfacts : Forall2 (fun g index =>
            idx_NameValue index = g.1 /\
            idx_ColumnList index = map ir_ColumnName (rowsOfIndex g.1 result) /\
            exists first,
              head (rowsOfIndex g.1 result) = Some first /\
              idx_TableName index = ir_TableName first /\
              idx_PrimaryKeyValue index = mkNullBool (ir_Primary first) true /\
              idx_UniqueValue index = mkNullBool (ir_NonUnique first) true)
            groups indexes).
  { clear Hrun. induction Hall as [|[name idx] index groups' indexes' Hone Hall IH];
      [constructor|].
    inversion Hgroups as [|x l [Hne Hidx] Hrest]; subst. cbn [fst snd] in *.
    constructor; [|apply IH; exact Hrest].
    cbn [fst]. rewrite <- Hidx.
    destruct idx as [|first idx]; [contradiction|].
    cbn [indexOfGroup] in Hone. injection Hone as <-.
    cbn [idx_NameValue idx_ColumnList idx_TableName idx_PrimaryKeyValue
         idx_UniqueValue head].
    assert (Hfirst : In first (rowsOfIndex name result))
      by (rewrite <- Hidx; left; reflexivity).
    apply filter_In in Hfirst. destruct Hfirst as [_ Hn].
    apply String.eqb_eq in Hn.
    split; [exact Hn|]. split; [reflexivity|]. exists first. auto. }
  assert (Hnames : map idx_NameValue indexes = map fst groups).
  { clear -Hfacts. induction Hfacts as [|g index gs ixs [Hn _] _ IH];
      [reflexivity|]. cbn [map]. rewrite Hn, IH. reflexivity. }
  split; [|split].
  - rewrite Hnames. apply NoDup_fst_map_to_list.
  - intros name. rewrite Hnames, <- rowsOfIndex_In. split.
    + intros Hin. apply in_map_iff in Hin. destruct Hin as ([n idx] & <- & Hin).
      apply list_elem_of_In, elem_of_map_to_list in Hin.
      rewrite lookup_groupByIndexName in Hin. cbn [fst].
      destruct (rowsOfIndex n result); [discriminate | discriminate].
    + intros Hne. apply in_map_iff.
      exists (name, rowsOfIndex name result). split; [reflexivity|].
      apply list_elem_of_In, elem_of_map_to_list.
      rewrite lookup_groupByIndexName.
      destruct (rowsOfIndex name result); [contradiction | reflexivity].
  - intros index Hin. clear -Hfacts Hin.
    induction Hfacts as [|g ix gs ixs (Hn & Hc & Hf) _ IH]; [destruct Hin|].
    destruct Hin as [<- | Hin]; [|apply IH; exact Hin].
    rewrite Hn. split; assumption.
Qed.

Lemma GetIndexes_one_per_name_witness :
  let m := exampleMigrator defaultConfig in
  let c : Conn indexServer := @connect indexServer exampleIndexRows in
  let result := [ mkIndexRow "albums" "PRIMARY_KEY" true true "id";
                  mkIndexRow "albums" "idx_albums_singer_title" false false "singer_id";
                  mkIndexRow "albums" "idx_albums_singer_title" false false "title" ] in
  exists indexes,
    run (GetIndexes m (TableName "albums")) c = (Returned (indexes, None), c) /\
    NoDup (map idx_NameValue indexes) /\
    (forall name,
       In name (map idx_NameValue indexes) <-> In name (map ir_IndexName result)) /\
    forall index, In index indexes ->
      idx_ColumnList index
      = map ir_ColumnName (rowsOfIndex (idx_NameValue index) result) /\
      exists first,
        head (rowsOfIndex (idx_NameValue index) result) = Some first /\
        idx_TableName index = ir_TableName first /\
        idx_PrimaryKeyValue index = mkNullBool (ir_Primary first) true /\
        idx_UniqueValue index = mkNullBool (ir_NonUnique first) true.
Proof.
  intros m c result.
  apply (GetIndexes_one_per_name m (TableName "albums") c
           (mkStmt "albums" None []) result); reflexivity.
Defined.

(** ** [HasColumn] *)

Lemma count_positive {A} (p : A -> bool) (l : list A) :
  (0 <? count p l) = true <-> exists x, In x l /\ p x = true.
Proof.
  unfold count. rewrite Z.ltb_lt. split.
  - destruct (List.filter p l) as [|x rest] eqn:Hf; [cbn; lia|].
    intros _. exists x. apply filter_In. rewrite Hf. left. reflexivity.
  - intros (x & Hin & Hp).
    assert (Hx : In x (List.filter p l)) by (apply filter_In; auto).
    destruct (List.filter p l); [destruct Hx | cbn [length]; lia].
Qed.

(** X17. [HasColumn] takes the name of a field of the model as well as
    the name of a column: for a field that the schema knows under the
    name given, the answer from a catalog is [true] exactly when the
    catalog holds, for the table and schema of the statement, a column
    with the field's column name. *)
Theorem HasColumn_resolves_field (m : Migrator) (sch : Schema)
  (field : string) (field_ : Field) (c : Conn catalogServer)
  (schema table : string) :
  LookUpField sch field = Some field_ ->
  CurrentSchema m (mkStmt (Table sch) (Some sch) []) (Table sch)
    = (SchemaName schema, table) ->
  (run (HasColumn m (Model sch) field) c).1 = Returned true <->
  exists col,
    In col (cat_columns (live c)) /\
    ci_table_schema col = schema /\ ci_table_name col = table /\
    ci_column_name col = DBName field_.
Proof.
  intros Hf Hs. unfold HasColumn, RunWithValue.
  cbn [ParseValue stmt_Schema stmt_Table]. rewrite Hf, Hs.
  rewrite run_mbind, run_query. cbn [answer catalogServer catalogAnswer onSchema].
  rewrite run_Ret. cbn [fst].
  split.
  - intros H. injection H as H. apply count_positive in H.
    destruct H as (col & Hin & Hp). exists col. split; [exact Hin|].
    apply andb_prop in Hp. destruct Hp as [Ht Hc]. unfold ofTable in Ht.
    apply andb_prop in Ht. destruct Ht as [Ht1 Ht2].
    apply String.eqb_eq in Ht1, Ht2, Hc. auto.
  - intros (col & Hin & <- & <- & Hc). f_equal. apply count_positive.
    exists col. split; [exact Hin|]. unfold ofTable.
    rewrite Hc, !String.eqb_refl. reflexivity.
Qed.

Lemma HasColumn_resolves_field_witness :
  let m := exampleMigrator defaultConfig in
  let c : Conn catalogServer := @connect catalogServer (catalogSingers false) in
  (run (HasColumn m (Model singerModel) "FullName") c).1 = Returned true <->
  exists col,
    In col (cat_columns (live c)) /\
    ci_table_schema col = "public" /\ ci_table_name col = "singers" /\
    ci_column_name col = "full_name".
Proof.
  intros m c.
  apply (HasColumn_resolves_field m singerModel "FullName" fullNameField c
           "public" "singers"); reflexivity.
Defined.

(** ** The update callback, run again *)

Lemma omitSplits_long (columns : list string) :
  (2 <= length columns)%nat -> omitSplits columns = false.
Proof.
  destruct columns as [|a [|b rest]]; cbn [length omitSplits]; [lia | lia | reflexivity].
Qed.

Lemma omitSplits_again (omits pks : list string) :
  omitSplits (omits ++ pks) = false ->
  omitSplits ((omits ++ pks) ++ pks) = false.
Proof.
  intros H. destruct pks as [|pk pks]; [rewrite app_nil_r; exact H|].
  apply omitSplits_long. rewrite !length_app. cbn [length]. lia.
Qed.

(** X18. Running [BeforeUpdate] a second time on the same statement
    omits no further column and gives none back, provided the first run
    does not hand [Omit] a single name with a comma in it (which gorm
    splits): the omit list of the second run has the same members as that
    of the first, and the table and schema of the statement stay as they
    are. *)
Theorem BeforeUpdate_again_same_columns (db : GormDB) (stmt1 stmt2 : Stmt) :
  omitSplits (omitArguments db) = false ->
  Statement_ (BeforeUpdate db) = Some stmt1 ->
  Statement_ (BeforeUpdate (BeforeUpdate db)) = Some stmt2 ->
  (forall col, In col (Omits stmt2) <-> In col (Omits stmt1)) /\
  stmt_Table stmt2 = stmt_Table stmt1 /\
  stmt_Schema stmt2 = stmt_Schema stmt1.
Proof.
  unfold omitArguments, primaryKeyColumns. unfold BeforeUpdate at 1 3.
  destruct (Statement_ db) as [stmt|] eqn:Hs.
  2:{ intros _ H. unfold BeforeUpdate in H. rewrite Hs in H. discriminate. }
  destruct (stmt_Schema stmt) as [sch|] eqn:Hsch.
  2:{ unfold BeforeUpdate. rewrite Hs, Hsch, Hs.
      intros _ [= <-] [= <-]. repeat split; auto. }
  destruct (PrimaryFieldDBNames sch) as [pks|] eqn:Hp.
  2:{ unfold BeforeUpdate. rewrite Hs, Hsch, Hp, Hs.
      intros _ [= <-] [= <-]. repeat split; auto. }
  cbn [Statement_ default app]. intros Hsplit [= <-].
  destruct (Omit_keeps_statement stmt (Omits stmt ++ pks)) as [Ht1 Hs1].
  unfold BeforeUpdate. cbn [Statement_]. rewrite Hs1, Hsch, Hp.
  cbn [Statement_ app]. intros [= <-].
  destruct (Omit_keeps_statement (Omit stmt (Omits stmt ++ pks))
              (Omits (Omit stmt (Omits stmt ++ pks)) ++ pks)) as [Ht2 Hs2].
  unfold id in Hsplit.
  split; [|split; [exact Ht2 | rewrite Hs2, Hs1; exact Hsch]].
  intros col. rewrite (Omit_unsplit stmt _ Hsplit).
  rewrite (Omit_unsplit _ _ (omitSplits_again _ _ Hsplit)).
  split.
  - intros Hin. apply in_app_or in Hin. destruct Hin as [Hin | Hin]; [exact Hin|].
    apply in_or_app. right. exact Hin.
  - intros Hin. apply in_or_app. left. exact Hin.
Qed.

Lemma BeforeUpdate_again_same_columns_witness :
  let db := mkGormDB (Some (mkStmt "singers" (Some singerModel) ["updated_at"])) false in
  let stmt1 := mkStmt "singers" (Some singerModel) ["updated_at"; "id"] in
  let stmt2 := mkStmt "singers" (Some singerModel) ["updated_at"; "id"; "id"] in
  (forall col, In col (Omits stmt2) <-> In col (Omits stmt1)) /\
  stmt_Table stmt2 = stmt_Table stmt1 /\
  stmt_Schema stmt2 = stmt_Schema stmt1.
Proof.
  intros db stmt1 stmt2.
  apply (BeforeUpdate_again_same_columns db stmt1 stmt2); reflexivity.
Defined.

(** ** A batch that the caller has open *)

(** X19. [autoMigrate] installs its ABORT BATCH only once its own START
    BATCH DDL has succeeded: on a connection whose caller already has a
    DDL batch open, a migration that wants a batch returns the error of
    START BATCH DDL and no statements, never runs the embedded migrator,
    sends nothing but that one statement, and leaves the caller's batch
    as it was. *)
Theorem autoMigrate_keeps_callers_batch {srv} (m : Migrator) (dryRun : bool)
  (values : list Value) (c : Conn srv) (cnt : Z) (b : list Statement) :
  answer srv (live c) QDefaultSequenceKind = inr cnt ->
  dryRun || negb (disableAutoMigrateBatching m) = true ->
  batch c = Some b ->
  run (autoMigrate m dryRun values) c
  = (Returned ([], Some errBatchActive), withBatch c (Some b) "START BATCH DDL").
Proof.
  intros Hq Hon Hb. unfold autoMigrate.
  rewrite run_mbind, run_query, Hq. cbn [fst snd]. rewrite Hon.
  rewrite run_mbind. unfold StartBatchDDL. rewrite run_exec.
  unfold execOn. change (classify "START BATCH DDL") with KStartBatchDDL.
  rewrite Hb. reflexivity.
Qed.

Lemma autoMigrate_keeps_callers_batch_witness :
  let m := exampleMigrator defaultConfig in
  let values := [Model singersModel; Model albumsModel] in
  let b := [mkStatement (exampleCreateTable notesModel) []] in
  let c : Conn recordingServer :=
    @mkConn recordingServer (Some []) (Some b) [] true None true in
  run (autoMigrate m false values) c
  = (Returned ([], Some errBatchActive), withBatch c (Some b) "START BATCH DDL").
Proof.
  intros m values b c.
  apply (autoMigrate_keeps_callers_batch m false values c 0 b); reflexivity.
Defined.

(** ** One request per migration *)

(** X20. With batching on, [AutoMigrate] changes the live schema through
    at most one schema-update request: afterwards the live schema is
    either untouched, or it is what that one request made of it, and the
    request holds exactly the DDL statements that were sent during the
    call, in the order in which they were sent. *)
Theorem AutoMigrate_at_most_one_request {srv} (m : Migrator)
  (values : list Value) (c : Conn srv) :
  ddl_only (base_AutoMigrate m values) ->
  disableAutoMigrateBatching m = false ->
  let c' := (run (AutoMigrate m values) c).2 in
  exists delta,
    trace c' = trace c ++ delta /\
    (live c' = live c \/
     live c' = (updateDatabaseDdl srv (live c) (List.filter isDdl delta)).1).
Proof.
  intros Hd Hdis c'. subst c'. unfold AutoMigrate, autoMigrate.
  rewrite Hdis. cbn [orb negb].
  rewrite run_mbind, run_mbind, run_query.
  destruct (answer srv (live c) QDefaultSequenceKind) as [err|cnt]; cbn [fst snd].
  { rewrite run_Ret. cbn. exists []. rewrite app_nil_r. auto. }
  rewrite run_mbind. unfold StartBatchDDL. rewrite run_exec.
  unfold execOn. change (classify "START BATCH DDL") with KStartBatchDDL.
  destruct (batch c) as [b|] eqn:Hb; cbn [fst snd].
  { rewrite run_Ret. cbn. exists ["START BATCH DDL"]. auto. }
  rewrite run_deferred.
  set (c1 := withBatch c (Some []) "START BATCH DDL").
  unfold autoMigrateBody. rewrite run_mbind.
  assert (Hfirst : exists c2 d0,
    run (if cnt =? 0 then exec alterDatabaseSql else Ret None) c1
      = (Returned None, c2) /\
    trace c2 = trace c1 ++ d0 /\ List.filter isDdl d0 = d0 /\
    batch c2 = Some (map (fun sql => mkStatement sql []) d0) /\
    live c2 = live c).
  { destruct (cnt =? 0).
    - rewrite run_exec. unfold execOn.
      change (classify alterDatabaseSql) with KDdl. cbn [batch c1 withBatch].
      exists (withBatch c1 (Some ([] ++ [mkStatement alterDatabaseSql []]))
                alterDatabaseSql), [alterDatabaseSql].
      repeat split.
    - exists c1, []. cbn. rewrite app_nil_r. repeat split. }
  destruct Hfirst as (c2 & d0 & Hfirst & Ht2 & Hf2 & Hb2 & Hl2).
  rewrite Hfirst. rewrite run_mbind.
  destruct (run_ddl_only_batch_content _ Hd c2 _ Hb2)
    as (d1 & Ht3 & Hf3 & Hb3 & Hl3).
  destruct (run (base_AutoMigrate m values) c2) as [[[err|]|msg] c3];
    cbn [fst snd negb andb] in *.
  - rewrite run_Ret. unfold AbortBatch. rewrite run_exec. cbn.
    exists ("START BATCH DDL" :: d0 ++ d1 ++ ["ABORT BATCH"]). split.
    + rewrite Ht3, Ht2. subst c1. cbn [withBatch trace].
      rewrite <- !app_assoc. reflexivity.
    + left. rewrite Hl3. exact Hl2.
  - assert (Hrun : execOn c3 "RUN BATCH"
                   = match d0 ++ d1 with
                     | [] => (None, withBatch c3 None "RUN BATCH")
                     | _ :: _ =>
                         let '(d, e) := updateDatabaseDdl srv (live c) (d0 ++ d1) in
                         (e, withLive c3 d None "RUN BATCH")
                     end).
    { unfold execOn. change (classify "RUN BATCH") with KRunBatch.
      rewrite Hb3, <- map_app, Hl3, Hl2.
      destruct (d0 ++ d1) as [|sql rest] eqn:Hall; [reflexivity|].
      cbn [map]. rewrite map_SQL_mkStatement. reflexivity. }
    rewrite run_mbind. unfold RunBatch, AbortBatch. rewrite run_exec, Hrun.
    exists ("START BATCH DDL" :: d0 ++ d1 ++ ["RUN BATCH"; "ABORT BATCH"]).
    assert (Hfilter : List.filter isDdl
                        ("START BATCH DDL" :: d0 ++ d1 ++ ["RUN BATCH"; "ABORT BATCH"])
                      = d0 ++ d1).
    { cbn [List.filter]. change (isDdl "START BATCH DDL") with false.
      cbn beta iota. rewrite !List.filter_app, Hf2, Hf3. cbn.
      rewrite app_nil_r. reflexivity. }
    rewrite Hfilter.
    destruct (d0 ++ d1) as [|sql rest] eqn:Hall.
    + cbn. split.
      * rewrite Ht3, Ht2. subst c1. cbn [withBatch trace].
        rewrite <- !app_assoc. reflexivity.
      * left. rewrite Hl3. exact Hl2.
    + destruct (updateDatabaseDdl srv (live c) (sql :: rest)) as [d e].
      cbn. split.
      * rewrite Ht3, Ht2. subst c1. cbn [withBatch trace].
        rewrite <- !app_assoc. reflexivity.
      * right. reflexivity.
  - unfold AbortBatch. rewrite run_exec. cbn.
    exists ("START BATCH DDL" :: d0 ++ d1 ++ ["ABORT BATCH"]). split.
    + rewrite Ht3, Ht2. subst c1. cbn [withBatch trace].
      rewrite <- !app_assoc. reflexivity.
    + left. rewrite Hl3. exact Hl2.
Qed.

Lemma AutoMigrate_at_most_one_request_witness :
  let m := exampleMigrator defaultConfig in
  let values := [Model singersModel; Model albumsModel] in
  let c : Conn recordingServer := @connect recordingServer (Some []) in
  let c' := (run (AutoMigrate m values) c).2 in
  exists delta,
    trace c' = trace c ++ delta /\
    (live c' = live c \/
     live c' = (updateDatabaseDdl recordingServer (live c)
                  (List.filter isDdl delta)).1).
Proof.
  intros m values c.
  apply (AutoMigrate_at_most_one_request m values c).
  - apply exampleAutoMigrate_ddl_only.
  - reflexivity.
Defined.

(** ** The types that [ColumnTypes] reports *)

(** When no two columns and no two rows of the type query share a name,
    a row of the type query changes the column it names and no other. *)
Lemma assignSpannerTypes_NoDup (ts : list (string * string))
  (cts : list ColumnType) :
  NoDup (map NameValue_String cts) ->
  NoDup (map fst ts) ->
  forall ct, In ct (assignSpannerTypes ts cts) ->
    exists ct0, In ct0 cts /\ scanned ct = scanned ct0 /\ keyFact ct = keyFact ct0 /\
      SQLColumnType ct = SQLColumnType ct0 /\
      ((forall dataType, In (NameValue_String ct0, dataType) ts ->
          ColumnTypeValue ct = Some dataType /\
          DataTypeValue ct
          = if HasPrefix (NullString_String (DataTypeValue ct0)) "_"
            then Some dataType else DataTypeValue ct0) /\
       ((forall dataType, ~ In (NameValue_String ct0, dataType) ts) ->
          ColumnTypeValue ct = ColumnTypeValue ct0 /\
          DataTypeValue ct = DataTypeValue ct0)).
Proof.
  revert cts. induction ts as [|[name dataType] ts IH]; intros cts Hnd Hts ct Hin;
    cbn [assignSpannerTypes foldl] in Hin.
  - exists ct. split; [exact Hin|]. split; [reflexivity|]. split; [reflexivity|].
    split; [reflexivity|].
    split; [intros d [] | intros _; split; reflexivity].
  - unfold assignSpannerTypes in IH.
    set (f := fun mc : ColumnType =>
                with_types mc
                  (if HasPrefix (NullString_String (DataTypeValue mc)) "_"
                   then Some dataType else DataTypeValue mc)
                  (Some dataType)) in *.
    inversion Hts as [|x l Hnot Hts']; subst.
    assert (Hnd' : NoDup (map NameValue_String (updateFirst name f cts))).
    { unfold NameValue_String.
      rewrite (updateFirst_keeps (fun mc => NullString_String (NameValue mc)));
        [exact Hnd | reflexivity]. }
    destruct (IH _ Hnd' Hts' ct Hin) as (ct1 & Hin1 & Hsc & Hkf & Hsql & Hyes & Hno).
    rewrite (updateFirst_NoDup name f cts Hnd) in Hin1.
    apply in_map_iff in Hin1. destruct Hin1 as (ct0 & Hct1 & Hin0).
    exists ct0. split; [exact Hin0|].
    destruct (String.eqb (NameValue_String ct0) name) eqn:E.
    + apply String.eqb_eq in E. subst ct1.
      assert (Hn : NameValue_String (f ct0) = name) by exact E.
      rewrite Hn in Hyes, Hno.
      assert (Hnone : forall d, ~ In (name, d) ts).
      { intros d Hd. apply Hnot. apply list_elem_of_In.
        apply (in_map fst) in Hd. exact Hd. }
      destruct (Hno Hnone) as [Hc Hdt].
      split; [exact Hsc|]. split; [exact Hkf|]. split; [exact Hsql|]. split.
      * intros d [Hd | Hd].
        -- injection Hd as _ <-. rewrite Hc, Hdt. split; reflexivity.
        -- rewrite E in Hd. destruct (Hnone _ Hd).
      * intros Hall. exfalso. apply (Hall dataType). left. rewrite E. reflexivity.
    + subst ct1.
      split; [exact Hsc|]. split; [exact Hkf|]. split; [exact Hsql|]. split.
      * intros d [Hd | Hd].
        -- injection Hd as Hd _. apply String.eqb_neq in E. congruence.
        -- apply Hyes, Hd.
      * intros Hall. apply Hno. intros d Hd. apply (Hall d). right. exact Hd.
Qed.

(** X21. The types that [ColumnTypes] reports, when its five queries
    succeed and neither the column query nor the type query has two rows
    with the same name: a column with a row in the type query has that
    row's Spanner type as its column type, and as its data type too when
    the catalog's type name starts with an underscore, as those of
    arrays do; otherwise, and without such a row, its data type is the
    catalog's type name. *)
Theorem ColumnTypes_types {srv} (m : Migrator) (value : Value)
  (c : Conn srv) (stmt : Stmt) (schema : SchemaRef) (table : string)
  (columns : list ColumnRow) (raw : list RawColumnType) (uniq : list string)
  (keys : list (string * string * string)) (types : list (string * string)) :
  ParseValue value = inr stmt ->
  CurrentSchema m stmt (stmt_Table stmt) = (schema, table) ->
  answer srv (live c) (QColumns schema table) = inr (mkRowSet columns None) ->
  answer srv (live c) (QRawColumnTypes schema table) = inr (mkRowSet raw None) ->
  answer srv (live c) (QUniqueConstraintNames schema table)
    = inr (mkRowSet uniq None) ->
  answer srv (live c) (QKeyConstraintColumns schema table)
    = inr (mkRowSet keys None) ->
  answer srv (live c) (QSpannerTypes schema table) = inr (mkRowSet types None) ->
  NoDup (map cr_column_name columns) ->
  NoDup (map fst types) ->
  exists columnTypes,
    (run (ColumnTypes m value) c).1 = Returned (columnTypes, None) /\
    forall ct, In ct columnTypes ->
      exists row, In row columns /\ ColumnType_Name ct = cr_column_name row /\
        (forall dataType, In (cr_column_name row, dataType) types ->
           ColumnTypeValue ct = Some dataType /\
           DataTypeValue ct
           = if HasPrefix (NullString_String (cr_udt_name row)) "_"
             then Some dataType else cr_udt_name row) /\
        ((forall dataType, ~ In (cr_column_name row, dataType) types) ->
           ColumnTypeValue ct = None /\ DataTypeValue ct = cr_udt_name row).
Proof.
  intros Hv Hs Q1 Q2 Q3 Q4 Q5 Hnd Hnt.
  set (cts1 := assignSQLColumnTypes raw (map columnOfRow columns)).
  set (cts2 := markKeys (countConstraints uniq) keys cts1).
  exists (assignSpannerTypes types cts2).
  assert (Hk2 : map typeFact cts2 = map typeFact (map columnOfRow columns)).
  { unfold cts2, cts1.
    rewrite (markKeys_keeps typeFact) by reflexivity.
    apply (assignSQLColumnTypes_keeps typeFact). reflexivity. }
  assert (Hnd2 : NoDup (map NameValue_String cts2)).
  { assert (Hn : map NameValue_String cts2
                 = map (fun k : NullString * NullString * NullString =>
                          NullString_String k.1.1) (map typeFact cts2))
      by (rewrite map_map; reflexivity).
    rewrite Hn, Hk2, !map_map. exact Hnd. }
  split.
  - unfold ColumnTypes. rewrite Hv, Hs.
    rewrite run_mbind, run_query, Q1. cbn [rows rowsErr].
    rewrite run_mbind, run_query, Q2. cbn [rows rowsErr].
    rewrite run_mbind, run_query, Q3. cbn [rows rowsErr].
    rewrite run_mbind, run_query, Q4. cbn [rows rowsErr].
    rewrite run_mbind, run_query, Q5. cbn [rows rowsErr].
    reflexivity.
  - intros ct Hin.
    destruct (assignSpannerTypes_NoDup types cts2 Hnd2 Hnt ct Hin)
      as (ct0 & Hin0 & Hsc & _ & _ & Hyes & Hno).
    apply (in_map typeFact) in Hin0. rewrite Hk2 in Hin0.
    apply in_map_iff in Hin0. destruct Hin0 as (ct00 & Hfact & Hin00).
    apply in_map_iff in Hin00. destruct Hin00 as (row & <- & Hrow).
    unfold typeFact in Hfact. cbn [columnOfRow NameValue DataTypeValue ColumnTypeValue]
      in Hfact. injection Hfact as Hname Hdt Hctv.
    assert (Hn0 : NameValue_String ct0 = cr_column_name row).
    { unfold NameValue_String. rewrite <- Hname. reflexivity. }
    rewrite Hn0, <- Hdt in Hyes. rewrite Hn0, <- Hdt, <- Hctv in Hno.
    exists row. split; [exact Hrow|]. split; [|split; assumption].
    apply ColumnType_Name_of_NameValue.
    unfold scanned in Hsc. congruence.
Qed.

Lemma ColumnTypes_types_witness :
  let m := exampleMigrator defaultConfig in
  let value := Model (sha256Model "bs" true) in
  let c : Conn catalogServer := @connect catalogServer catalogAsBs in
  let columns := selectColumns catalogAsBs "public" "bs" in
  let types := selectSpannerTypes catalogAsBs "public" "bs" in
  exists columnTypes,
    (run (ColumnTypes m value) c).1 = Returned (columnTypes, None) /\
    forall ct, In ct columnTypes ->
      exists row, In row columns /\ ColumnType_Name ct = cr_column_name row /\
        (forall dataType, In (cr_column_name row, dataType) types ->
           ColumnTypeValue ct = Some dataType /\
           DataTypeValue ct
           = if HasPrefix (NullString_String (cr_udt_name row)) "_"
             then Some dataType else cr_udt_name row) /\
        ((forall dataType, ~ In (cr_column_name row, dataType) types) ->
           ColumnTypeValue ct = None /\ DataTypeValue ct = cr_udt_name row).
Proof.
  intros m value c columns types.
  apply (ColumnTypes_types m value c
           (mkStmt "bs" (Some (sha256Model "bs" true)) [])
           (SchemaName "public") "bs" columns
           (selectRawColumnTypes catalogAsBs "public" "bs")
           (selectUniqueConstraintNames catalogAsBs "public" "bs")
           (selectKeyConstraintColumns catalogAsBs "public" "bs")
           types).
  - reflexivity.
  - reflexivity.
  - reflexivity.
  - reflexivity.
  - reflexivity.
  - reflexivity.
  - reflexivity.
  - apply (bool_decide_unpack _). vm_compute. exact I.
  - apply (bool_decide_unpack _). vm_compute. exact I.
Defined.

(** ** A table and what depends on it *)

(** X22. [DropTable] drops a table only after what depends on it: in the
    step for one table, when the foreign keys that reference the table
    and its indexes were dropped without error, DROP TABLE is the next
    and last statement sent; when dropping them failed or panicked,
    nothing more is sent, the step ends like the dropping did, and no
    DROP TABLE was sent at all. *)
Theorem dropOne_after_dependencies {srv} (m : Migrator) (value : Value)
  (stmt : Stmt) (c : Conn srv) :
  (forall v name (c0 : Conn srv),
      sent_only not_drop_table c0 (run (base_DropConstraint m v name) c0).2) ->
  (forall v name (c0 : Conn srv),
      sent_only not_drop_table c0 (run (base_DropIndex m v name) c0).2) ->
  ParseValue value = inr stmt ->
  let dependencies := run (dropTableDependencies m stmt) c in
  let r := run (dropOne m value) c in
  sent_only not_drop_table c dependencies.2 /\
  (dependencies.1 = Returned None ->
   trace r.2 = trace dependencies.2 ++ [dropTableSql m stmt]) /\
  (dependencies.1 <> Returned None -> r = dependencies).
Proof.
  intros Hc Hi Hv dependencies r. subst dependencies r.
  split; [apply (dropTableDependencies_not_drop_table m Hc Hi)|].
  unfold dropOne, RunWithValue_. rewrite Hv, run_mbind.
  destruct (run (dropTableDependencies m stmt) c) as [[[err|]|msg] c1];
    cbn [fst snd].
  - split; [discriminate | reflexivity].
  - split; [|intros H; contradiction].
    intros _. generalize (dropTableSql m stmt). intros sql.
    rewrite run_exec. apply execOn_trace.
  - split; [discriminate | reflexivity].
Qed.

Lemma dropOne_after_dependencies_witness :
  let m := exampleMigrator defaultConfig in
  let c : Conn catalogServer :=
    @mkConn catalogServer catalogSingersAlbums (Some []) [] true None true in
  let stmt := mkStmt "singers" (Some singersModel) [] in
  let dependencies := run (dropTableDependencies m stmt) c in
  let r := run (dropOne m (Model singersModel)) c in
  sent_only not_drop_table c dependencies.2 /\
  (dependencies.1 = Returned None ->
   trace r.2 = trace dependencies.2 ++ [dropTableSql m stmt]) /\
  (dependencies.1 <> Returned None -> r = dependencies).
Proof.
  intros m c stmt.
  apply (dropOne_after_dependencies m (Model singersModel) stmt c).
  - intros v name c0. apply exampleMigrator_DropConstraint_not_drop_table.
  - intros v name c0. apply exampleMigrator_DropIndex_not_drop_table.
  - reflexivity.
Defined.
